(** * ControldeGastosByLPaz: ledger storage and aggregation engine

    A shallow embedding of [app.js] (the two variants kept in
    [src/service-worker.js]: the legacy "expenses" application, lines 1-400,
    and the unified "transactions" application, lines 401-688) together with
    the properties its specification states about it.

    Conventions of the embedding.
    - A JavaScript Number is an IEEE-754 binary64 value.  Amounts are produced
      by [parseAmount], which rounds to an integer; an amount is kept as
      that integer ([Z]) and a sum of amounts as the integer sum.  The code
      adds Numbers: its sums ([reduceAmounts], [JSNumber.sub]) are these
      integers as long as they stay below 2^53 ([reduceAmounts_exact],
      [sub_exact]); beyond, they round or overflow to Infinity.  A
      statement that equates a sum with a value therefore carries that bound
      ([safeAmounts]) and says what the binary64 sum yields.  Quotients and
      products ([expenseSum / incomeSum * 100], [v / max * 100]) are not
      exact: they are computed with the binary64 operations of [SpecFloat].
    - A String that the code trims (the name of an expense or of a
      transaction) is the sequence of its UTF-16 code units; the strings
      that hold ASCII text by construction (dates, types, keys) are
      [string].
    - A [Date] object is its time value: milliseconds since the epoch, UTC.
      The local time zone is a fixed offset [LocalTZA] (no daylight-saving
      transitions), and the clock reading [new Date()] is the parameter [now].
    - An IndexedDB object store is the list of its records in ascending key
      order together with its key generator.  Storage requests succeed
      (storage faults are outside the model); an exception raised by the
      application code itself is the outcome [TypeError].
    - Writes to the DOM are collected in a [view] record; currency
      formatting ([fmt]) is not modelled, the view holds the numbers. *)

From Stdlib Require Import ZArith Bool List Lia Ascii String.
From Stdlib Require Import Sorting.Sorted Sorting.Permutation.
From Stdlib Require Import Floats.SpecFloat.
Import ListNotations.

Local Open Scope Z_scope.

(* ===================================================================== *)
(** ** JavaScript numbers *)
(* ===================================================================== *)

Module JSNumber.

Definition prec : Z := 53.
Definition emax : Z := 1024.

(** A Number: binary64. *)
Definition number : Type := spec_float.

(** The Number that an integer literal or integer-valued variable holds
    (round to nearest even; exact below 2^53). *)
Definition of_Z (z : Z) : number := binary_normalize prec emax z 0 false.

(** [x / y] and [x * y]. *)
Definition div (x y : number) : number := SFdiv prec emax x y.
Definition mul (x y : number) : number := SFmul prec emax x y.

(** [Number.isFinite(v)]. *)
Definition isFinite (v : number) : bool :=
  match v with
  | S754_zero _ | S754_finite _ _ _ => true
  | S754_infinity _ | S754_nan => false
  end.

(** [v >= 0]. *)
Definition ge_zero (v : number) : bool := SFleb (S754_zero false) v.

(** The results of [Math.round]: an integer, an infinity or NaN.  (The
    sign of a zero result is dropped: [-0] and [0] print alike.) *)
Inductive integral : Type :=
| RNaN
| RInf (negative : bool)
| RInt (z : Z).

(** [floor(m * 2^e + 1/2)]. *)
Definition round_half_up (m e : Z) : Z :=
  if 0 <=? e then m * 2 ^ e
  else (2 * m + 2 ^ (- e)) / 2 ^ (- e + 1).

(** [Math.round(x)]: the integer nearest to [x], ties towards +infinity. *)
Definition Math_round (x : number) : integral :=
  match x with
  | S754_nan => RNaN
  | S754_infinity s => RInf s
  | S754_zero _ => RInt 0
  | S754_finite s m e => RInt (round_half_up (cond_Zopp s (Zpos m)) e)
  end.

(** [Math.min(a, r)] and [Math.max(a, r)] for an integer constant [a]. *)
Definition Math_min (a : Z) (r : integral) : integral :=
  match r with
  | RNaN => RNaN
  | RInf true => RInf true
  | RInf false => RInt a
  | RInt z => RInt (Z.min a z)
  end.

Definition Math_max (a : Z) (r : integral) : integral :=
  match r with
  | RNaN => RNaN
  | RInf true => RInt a
  | RInf false => RInf false
  | RInt z => RInt (Z.max a z)
  end.

(** [Math.max(1, ...values)] over integer values. *)
Definition Math_max_spread (a : Z) (values : list Z) : Z :=
  fold_left Z.max values a.

(** [x + y] and [x - y]. *)
Definition add (x y : number) : number := SFadd prec emax x y.
Definition sub (x y : number) : number := SFsub prec emax x y.

(** [Math.ceil(x)]: the least integer that is not below [x]; a result
    between -1 and 0 is the zero of the sign of [x]. *)
Definition Math_ceil (x : number) : number :=
  match x with
  | S754_finite s m e =>
      if 0 <=? e then x
      else
        let c := - ((- cond_Zopp s (Zpos m)) / 2 ^ (- e)) in
        if c =? 0 then S754_zero s else of_Z c
  | _ => x
  end.

(** [Math.max(a, x)] of two Numbers: NaN when one of them is NaN, and +0
    is above -0. *)
Definition Math_max2 (a x : number) : number :=
  match SFcompare a x with
  | Some Lt => x
  | Some Eq => match a with S754_zero true => x | _ => a end
  | Some Gt => a
  | None => S754_nan
  end.

End JSNumber.

(* ===================================================================== *)
(** ** JavaScript strings *)
(* ===================================================================== *)

Module JSString.

Local Open Scope string_scope.

(** A String is the sequence of its UTF-16 code units (0..65535).  The
    names of expenses and transactions, which the code trims, are kept in
    this form. *)
Definition codeUnits : Type := list Z.

(** The code units of a literal written in ASCII. *)
Definition literal (s : string) : codeUnits :=
  map (fun c => Z.of_nat (nat_of_ascii c)) (list_ascii_of_string s).

(** The white space and the line terminators of ECMAScript, which
    [String.prototype.trim] removes: TAB, LF, VT, FF, CR, SPACE, NO-BREAK
    SPACE (U+00A0), U+1680, U+2000..U+200A, U+2028, U+2029, U+202F,
    U+205F, U+3000 and U+FEFF. *)
Definition is_space (c : Z) : bool :=
  (((9 <=? c) && (c <=? 13)) || (c =? 32) || (c =? 160) || (c =? 5760)
   || ((8192 <=? c) && (c <=? 8202)) || (c =? 8232) || (c =? 8233)
   || (c =? 8239) || (c =? 8287) || (c =? 12288) || (c =? 65279))%Z.

Fixpoint trimStart (s : codeUnits) : codeUnits :=
  match s with
  | [] => []
  | c :: s' => if is_space c then trimStart s' else s
  end.

Fixpoint trimEnd (s : codeUnits) : codeUnits :=
  match s with
  | [] => []
  | c :: s' =>
      match trimEnd s' with
      | [] => if is_space c then [] else [c]
      | t => c :: t
      end
  end.

(** [s.trim()]. *)
Definition trim (s : codeUnits) : codeUnits := trimEnd (trimStart s).

(** [!s] for a String given by its code units: the empty string is the
    only falsy string. *)
Definition empty (s : codeUnits) : bool :=
  match s with [] => true | _ => false end.

(** [!s] for a String written in ASCII (the value of a date input). *)
Definition falsy (s : string) : bool :=
  match s with EmptyString => true | _ => false end.

(** [a.localeCompare(b)] as a sign.  Dates are ISO-8601 strings (digits
    and hyphens, one fixed layout), on which the collation order is the
    code-unit order. *)
Definition localeCompare (a b : string) : Z :=
  match String.compare a b with
  | Lt => -1
  | Eq => 0
  | Gt => 1
  end.

End JSString.

(* ===================================================================== *)
(** ** JavaScript dates *)
(* ===================================================================== *)

Module JSDate.

Definition msPerDay : Z := 86400000.

Definition Day (t : Z) : Z := t / msPerDay.
Definition TimeWithinDay (t : Z) : Z := t mod msPerDay.

Definition DayFromYear (y : Z) : Z :=
  365 * (y - 1970) + (y - 1969) / 4 - (y - 1901) / 100 + (y - 1601) / 400.

(** The year [y] with [DayFromYear y <= d < DayFromYear (y + 1)]. *)
Definition YearFromDay (d : Z) : Z :=
  let y := 1970 + (400 * d) / 146097 in
  if d <? DayFromYear y then y - 1
  else if DayFromYear (y + 1) <=? d then y + 1
  else y.

Definition InLeapYear (y : Z) : bool :=
  (y mod 4 =? 0) && (negb (y mod 100 =? 0) || (y mod 400 =? 0)).

Definition leapDay (y : Z) : Z := if InLeapYear y then 1 else 0.

(** Day number within the year of the first day of month [m] (0..11). *)
Definition monthStart (y m : Z) : Z :=
  match m with
  | 0 => 0
  | 1 => 31
  | 2 => 59 + leapDay y
  | 3 => 90 + leapDay y
  | 4 => 120 + leapDay y
  | 5 => 151 + leapDay y
  | 6 => 181 + leapDay y
  | 7 => 212 + leapDay y
  | 8 => 243 + leapDay y
  | 9 => 273 + leapDay y
  | 10 => 304 + leapDay y
  | _ => 334 + leapDay y
  end.

Definition DaysInMonth (y m : Z) : Z :=
  match m with
  | 1 => 28 + leapDay y
  | 3 | 5 | 8 | 10 => 30
  | _ => 31
  end.

Definition MonthFromDay (d : Z) : Z :=
  let y := YearFromDay d in
  let dy := d - DayFromYear y in
  if dy <? monthStart y 1 then 0
  else if dy <? monthStart y 2 then 1
  else if dy <? monthStart y 3 then 2
  else if dy <? monthStart y 4 then 3
  else if dy <? monthStart y 5 then 4
  else if dy <? monthStart y 6 then 5
  else if dy <? monthStart y 7 then 6
  else if dy <? monthStart y 8 then 7
  else if dy <? monthStart y 9 then 8
  else if dy <? monthStart y 10 then 9
  else if dy <? monthStart y 11 then 10
  else 11.

Definition DateFromDay (d : Z) : Z :=
  let y := YearFromDay d in
  d - DayFromYear y - monthStart y (MonthFromDay d) + 1.

Definition YearFromTime (t : Z) : Z := YearFromDay (Day t).
Definition MonthFromTime (t : Z) : Z := MonthFromDay (Day t).
Definition DateFromTime (t : Z) : Z := DateFromDay (Day t).

(** [MakeDay(year, month, date)]: months outside 0..11 carry into the
    year, dates outside the month carry into the neighbouring months. *)
Definition MakeDay (year month date : Z) : Z :=
  let ym := year + month / 12 in
  let mn := month mod 12 in
  DayFromYear ym + monthStart ym mn + date - 1.

Definition MakeTime (hour min sec ms : Z) : Z :=
  hour * 3600000 + min * 60000 + sec * 1000 + ms.

Definition MakeDate (day time : Z) : Z := day * msPerDay + time.

(** *** Date strings *)

Definition digit (c : ascii) : option Z :=
  let n := Z.of_nat (nat_of_ascii c) in
  if (48 <=? n) && (n <=? 57) then Some (n - 48) else None.

Fixpoint digits (s : list ascii) (acc : Z) : option Z :=
  match s with
  | [] => Some acc
  | c :: s' =>
      match digit c with
      | Some d => digits s' (10 * acc + d)
      | None => None
      end
  end.

(** The fields of a date-only string [YYYY-MM-DD], the format of the
    value of a date input. *)
Definition parseFields (s : string) : option (Z * Z * Z) :=
  match list_ascii_of_string s with
  | [y1; y2; y3; y4; "-"%char; m1; m2; "-"%char; d1; d2] =>
      match digits [y1; y2; y3; y4] 0, digits [m1; m2] 0, digits [d1; d2] 0 with
      | Some y, Some m, Some d =>
          if (1 <=? m) && (m <=? 12) && (1 <=? d) && (d <=? DaysInMonth y (m - 1))
          then Some (y, m, d) else None
      | _, _, _ => None
      end
  | _ => None
  end.

(** [new Date(dateISO)] for a date-only string: midnight UTC of that day;
    [None] is the invalid date, whose time value is NaN. *)
Definition parse (s : string) : option Z :=
  match parseFields s with
  | Some (y, m, d) => Some (MakeDate (MakeDay y (m - 1) d) 0)
  | None => None
  end.

Definition digitChar (n : Z) : ascii := ascii_of_nat (Z.to_nat (48 + n mod 10)).

Definition pad2 (n : Z) : string :=
  String (digitChar (n / 10)) (String (digitChar n) EmptyString).

Definition pad4 (n : Z) : string :=
  String (digitChar (n / 1000)) (String (digitChar (n / 100)) (pad2 n)).

(** [d.toISOString().slice(0, 10)] for years 0..9999. *)
Definition toISODate (t : Z) : string :=
  (pad4 (YearFromTime t) ++ "-" ++ pad2 (MonthFromTime t + 1) ++ "-"
     ++ pad2 (DateFromTime t))%string.

(** *** Local time *)

Section LocalTime.

(** Offset of local time from UTC, in milliseconds. *)
Variable LocalTZA : Z.

Definition LocalTime (t : Z) : Z := t + LocalTZA.
Definition UTC (t : Z) : Z := t - LocalTZA.

Definition getFullYear (t : Z) : Z := YearFromTime (LocalTime t).
Definition getMonth (t : Z) : Z := MonthFromTime (LocalTime t).
Definition getDate (t : Z) : Z := DateFromTime (LocalTime t).

(** [new Date(y, m, d, h, mi, s, ms)]: the fields are local time; a
    year in 0..99 stands for 1900 + year. *)
Definition construct (y m d h mi s ms : Z) : Z :=
  let yr := if (0 <=? y) && (y <=? 99) then 1900 + y else y in
  UTC (MakeDate (MakeDay yr m d) (MakeTime h mi s ms)).

(** [x.setHours(h, mi, s, ms)]. *)
Definition setHours (x h mi s ms : Z) : Z :=
  UTC (MakeDate (Day (LocalTime x)) (MakeTime h mi s ms)).

(** [x.setDate(dt)]. *)
Definition setDate (x dt : Z) : Z :=
  let t := LocalTime x in
  UTC (MakeDate (MakeDay (YearFromTime t) (MonthFromTime t) dt) (TimeWithinDay t)).

(** The calendar fields that [d.toLocaleDateString(locale, { day, month,
    year })] prints: the year, the month (0..11) and the day of [d] in
    local time.  The text itself is a matter of the locale. *)
Definition toLocaleDateString (t : Z) : Z * Z * Z :=
  (getFullYear t, getMonth t, getDate t).

End LocalTime.

End JSDate.

(* ===================================================================== *)
(** ** JavaScript arrays and maps *)
(* ===================================================================== *)

Module JSArray.

Section Sort.
Context {A : Type}.
Variable compareFn : A -> A -> Z.

(** [Array.prototype.sort(compareFn)] is a stable sort: an element goes
    in front of the first element it does not compare greater than. *)
Fixpoint insert (x : A) (l : list A) : list A :=
  match l with
  | [] => [x]
  | y :: l' => if compareFn x y <=? 0 then x :: y :: l' else y :: insert x l'
  end.

Definition sort (l : list A) : list A := fold_right insert [] l.
End Sort.

Section Index.
Context {A : Type}.

(** [arr.findIndex(p)]: [None] stands for -1. *)
Fixpoint findIndex (p : A -> bool) (l : list A) : option nat :=
  match l with
  | [] => None
  | x :: l' => if p x then Some O else option_map S (findIndex p l')
  end.

(** [arr[i] = v] for an index inside the array. *)
Fixpoint assign (l : list A) (i : nat) (v : A) : list A :=
  match l, i with
  | [], _ => []
  | _ :: l', O => v :: l'
  | x :: l', S j => x :: assign l' j v
  end.

(** [arr[idx] = v] where [idx] is the result of [findIndex]: with -1
    the assignment creates the property "-1" and leaves the elements
    as they are. *)
Definition assignAt (l : list A) (idx : option nat) (v : A) : list A :=
  match idx with
  | Some i => assign l i v
  | None => l
  end.

(** [arr.slice(-n)]: the last [n] elements. *)
Definition sliceLast (n : nat) (l : list A) : list A :=
  skipn (List.length l - n) l.
End Index.

End JSArray.

(** A [Map] from strings to numbers, in insertion order. *)
Module JSMap.

Definition t : Type := list (string * Z).

Fixpoint get (m : t) (k : string) : option Z :=
  match m with
  | [] => None
  | (k', v) :: m' => if String.eqb k k' then Some v else get m' k
  end.

(** [map.set(k, v)]: an existing key keeps its position. *)
Fixpoint set (m : t) (k : string) (v : Z) : t :=
  match m with
  | [] => [(k, v)]
  | (k', v') :: m' =>
      if String.eqb k k' then (k, v) :: m' else (k', v') :: set m' k v
  end.

(** [map.get(k) || 0]. *)
Definition getOrZero (m : t) (k : string) : Z :=
  match get m k with
  | Some v => v
  | None => 0
  end.

End JSMap.

(* ===================================================================== *)
(** ** IndexedDB object stores *)
(* ===================================================================== *)

Module IDB.

Section Store.
Context {A : Type}.

(** An object store with [{ keyPath: 'id', autoIncrement: true }]:
    its records in ascending key order, the key generator, and the
    names of its indexes. *)
Record objectStore : Type := {
  records : list (Z * A);
  keyGenerator : Z;
  indexNames : list string
}.

Definition createObjectStore (indexes : list string) : objectStore :=
  {| records := []; keyGenerator := 1; indexNames := indexes |}.

Fixpoint lookup (k : Z) (l : list (Z * A)) : option A :=
  match l with
  | [] => None
  | (k', v) :: l' => if k =? k' then Some v else lookup k l'
  end.

Fixpoint upsert (k : Z) (v : A) (l : list (Z * A)) : list (Z * A) :=
  match l with
  | [] => [(k, v)]
  | (k', v') :: l' =>
      if k =? k' then (k, v) :: l'
      else if k <? k' then (k, v) :: (k', v') :: l'
      else (k', v') :: upsert k v l'
  end.

(** [getAll()]: every value, in key order. *)
Definition getAll (s : objectStore) : list A := map snd (records s).

(** [get(key)]: [None] is [undefined]. *)
Definition get (s : objectStore) (key : Z) : option A := lookup key (records s).

(** [add(value)] of a value without key: the generator supplies the
    key, which the store writes into the value at the key path. *)
Definition add (s : objectStore) (value : Z -> A) : objectStore * Z :=
  let key := keyGenerator s in
  ({| records := records s ++ [(key, value key)];
      keyGenerator := key + 1;
      indexNames := indexNames s |}, key).

(** [put(value)] of a value that carries its key. *)
Definition put (s : objectStore) (key : Z) (value : A) : objectStore :=
  {| records := upsert key value (records s);
     keyGenerator := Z.max (keyGenerator s) (key + 1);
     indexNames := indexNames s |}.

(** [delete(key)]: succeeds whether or not the key is present. *)
Definition delete (s : objectStore) (key : Z) : objectStore :=
  {| records := filter (fun kv => negb (fst kv =? key)) (records s);
     keyGenerator := keyGenerator s;
     indexNames := indexNames s |}.
End Store.

Arguments objectStore : clear implicits.

End IDB.

(** The outcome of an event handler: it runs to its end, or it throws. *)
Inductive outcome (A : Type) : Type :=
| Done (a : A)
| TypeError.
Arguments Done {A} a.
Arguments TypeError {A}.

(* ===================================================================== *)
(** ** Data model *)
(* ===================================================================== *)

(** A [File] chosen in a file input. *)
Record file : Type := {
  file_name : string;
  file_type : string;
  file_blob : string
}.

(** A record of the [attachments] store (its [id] is its key). *)
Record attachment : Type := {
  blob : string;
  att_name : string;
  att_type : string;
  att_created : Z
}.

Record attachmentRef : Type := {
  storeId : Z;
  kind : string;
  ref_name : string;
  ref_type : string
}.

Record range : Type := { start : Z; end_ : Z }.

(** [within(dateISO, start, end)]: a comparison with the invalid date is
    false. *)
Definition within (dateISO : string) (start end_ : Z) : bool :=
  match JSDate.parse dateISO with
  | Some t => (start <=? t) && (t <=? end_)
  | None => false
  end.

(** [parseAmount(input)], on the Number [v = Number(input.value)]. *)
Definition parseAmount (v : JSNumber.number) : Z :=
  if JSNumber.isFinite v && JSNumber.ge_zero v then
    match JSNumber.Math_round v with
    | JSNumber.RInt z => z
    | _ => 0
    end
  else 0.

(** [Math.max(4, Math.round((v / max) * 100))], the height of a bar. *)
Definition barHeight (v max : Z) : JSNumber.integral :=
  JSNumber.Math_max 4
    (JSNumber.Math_round
       (JSNumber.mul (JSNumber.div (JSNumber.of_Z v) (JSNumber.of_Z max))
          (JSNumber.of_Z 100))).

(** [total > 0 ? Math.min(100, Math.round((spent / total) * 100)) : 0]. *)
Definition spentRatio (spent total : Z) : JSNumber.integral :=
  if total >? 0 then
    JSNumber.Math_min 100
      (JSNumber.Math_round
         (JSNumber.mul (JSNumber.div (JSNumber.of_Z spent) (JSNumber.of_Z total))
            (JSNumber.of_Z 100)))
  else JSNumber.RInt 0.

(** [arr.reduce((s, t) => s + t.amount, 0)] as the code computes it, in
    binary64: the Numbers of the amounts are added to 0 in the order of the
    list.  ([amount] gives the integer that [t.amount] holds.) *)
Definition reduceAmounts {A : Type} (amount : A -> Z) (arr : list A) : JSNumber.number :=
  fold_left (fun s t => JSNumber.add s (JSNumber.of_Z (amount t))) arr (JSNumber.of_Z 0).

(** [(a, b) => b.date.localeCompare(a.date) || b.id - a.id]. *)
Definition byDateDesc {A : Type} (date : A -> string) (id : A -> Z) (a b : A) : Z :=
  let c := JSString.localeCompare (date b) (date a) in
  if c =? 0 then id b - id a else c.

(** [(a, b) => a[0].localeCompare(b[0])]. *)
Definition byKeyAsc (a b : string * Z) : Z :=
  JSString.localeCompare (fst a) (fst b).

(** The loop and the sort of [groupByDate]: every entry adds [weight] to
    the total kept under its date,
    [map.set(k, (map.get(k) || 0) + weight)], and the entries of the map are
    sorted by key.  The totals are integer sums, which the Numbers of the
    code hold as long as they are below 2^53. *)
Definition groupByDateWith {A : Type} (date : A -> string) (weight : A -> Z)
    (entries : list A) : list (string * Z) :=
  let map :=
    fold_left
      (fun map t => JSMap.set map (date t) (JSMap.getOrZero map (date t) + weight t))
      entries [] in
  JSArray.sort byKeyAsc map.

(** [endOfDay(d)] and [startOfDay(d)]. *)
Definition endOfDay (LocalTZA d : Z) : Z := JSDate.setHours LocalTZA d 23 59 59 999.
Definition startOfDay (LocalTZA d : Z) : Z := JSDate.setHours LocalTZA d 0 0 0 0.

(** [todayStr()]: the date of the clock reading, in UTC. *)
Definition todayStr (now : Z) : string := JSDate.toISODate now.

(** The fortnight and month windows, shared by [getPeriodRange] and
    [ranges]: [y], [m], [d] are the local year, month and day of the clock
    reading. *)
Definition fortnightOf (LocalTZA y m d : Z) : range :=
  if d <=? 15
  then {| start := JSDate.construct LocalTZA y m 1 0 0 0 0;
          end_ := JSDate.construct LocalTZA y m 15 23 59 59 999 |}
  else {| start := JSDate.construct LocalTZA y m 16 0 0 0 0;
          end_ := JSDate.construct LocalTZA y (m + 1) 0 23 59 59 999 |}.

Definition monthOf (LocalTZA y m : Z) : range :=
  {| start := JSDate.construct LocalTZA y m 1 0 0 0 0;
     end_ := JSDate.construct LocalTZA y (m + 1) 0 23 59 59 999 |}.

(** [const end = endOfDay(now); const start = new Date(end);
    start.setDate(start.getDate() - 6); start.setHours(0,0,0,0)]. *)
Definition weekOf (LocalTZA now : Z) : range :=
  let weekEnd := endOfDay LocalTZA now in
  let weekStart := weekEnd in
  let weekStart := JSDate.setDate LocalTZA weekStart (JSDate.getDate LocalTZA weekStart - 6) in
  let weekStart := JSDate.setHours LocalTZA weekStart 0 0 0 0 in
  {| start := weekStart; end_ := weekEnd |}.

(** [!state.editId]: [null] and 0 are falsy. *)
Definition staged (editId : option Z) : option Z :=
  match editId with
  | Some 0 => None
  | other => other
  end.

(** The attachment record written for a chosen file, and the reference the
    transaction keeps to it. *)
Definition attachmentOf (now : Z) (f : file) : attachment :=
  {| blob := file_blob f; att_name := file_name f; att_type := file_type f;
     att_created := now |}.

Definition refOf (id : Z) (kind : string) (f : file) : attachmentRef :=
  {| storeId := id; kind := kind; ref_name := file_name f; ref_type := file_type f |}.

(** [if (f) { const id = await dbp.add('attachments', {...});
    attachmentRefs.push({ storeId: id, kind, ... }); }]. *)
Definition addAttachment (now : Z) (kind : string) (f : option file)
    (acc : IDB.objectStore attachment * list attachmentRef)
  : IDB.objectStore attachment * list attachmentRef :=
  match f with
  | Some f =>
      let '(s, id) := IDB.add (fst acc) (fun _ => attachmentOf now f) in
      (s, snd acc ++ [refOf id kind f])
  | None => acc
  end.

(* ===================================================================== *)
(** ** The legacy application (expenses and an income scalar) *)
(* ===================================================================== *)

Module Legacy.

Record expense : Type := {
  id : Z;
  name : JSString.codeUnits;
  amount : Z;
  date : string;
  attachments : list attachmentRef;
  created : Z
}.

(** *** The database [gastosDB] *)

Record database : Type := {
  version : Z;
  expensesStore : option (IDB.objectStore expense);
  attachmentsStore : option (IDB.objectStore attachment);
  metaStore : option (list (string * Z))
}.

Definition noDatabase : database :=
  {| version := 0; expensesStore := None; attachmentsStore := None; metaStore := None |}.

(** [req.onupgradeneeded]. *)
Definition onupgradeneeded (db : database) : database :=
  {| version := 1;
     expensesStore :=
       match expensesStore db with
       | Some s => Some s
       | None => Some (IDB.createObjectStore ["by_date"; "by_name"]%string)
       end;
     attachmentsStore :=
       match attachmentsStore db with
       | Some s => Some s
       | None => Some (IDB.createObjectStore [])
       end;
     metaStore :=
       match metaStore db with
       | Some s => Some s
       | None => Some []
       end |}.

(** [dbp.open()]: [indexedDB.open('gastosDB', 1)] on the database of that
    name, if there is one.  The upgrade runs when the stored version is
    below 1; a higher stored version rejects the request ([None]). *)
Definition dbp_open (existing : option database) : option database :=
  let db := match existing with Some db => db | None => noDatabase end in
  if version db <? 1 then Some (onupgradeneeded db)
  else if version db =? 1 then Some db
  else None.

(** *** State *)

Record state : Type := {
  expenses : list expense;
  income : Z;
  filtered : list expense;
  period : string;
  editId : option Z
}.

(** The open database and the state of the page. *)
Record world : Type := {
  db_expenses : IDB.objectStore expense;
  db_attachments : IDB.objectStore attachment;
  db_meta : list (string * Z);
  st : state
}.

Definition compareFn : expense -> expense -> Z := byDateDesc date id.

Definition getPeriodRange (LocalTZA now : Z) (kind : string) : range :=
  if String.eqb kind "week" then weekOf LocalTZA now
  else if String.eqb kind "fortnight" then
    fortnightOf LocalTZA (JSDate.getFullYear LocalTZA now)
      (JSDate.getMonth LocalTZA now) (JSDate.getDate LocalTZA now)
  else if String.eqb kind "month" then
    monthOf LocalTZA (JSDate.getFullYear LocalTZA now) (JSDate.getMonth LocalTZA now)
  else {| start := JSDate.construct LocalTZA 1970 0 1 0 0 0 0;
          end_ := endOfDay LocalTZA now |}.

(** [map.set(k, (map.get(k) || 0) + e.amount)]. *)
Definition groupByDate (expenses : list expense) : list (string * Z) :=
  groupByDateWith date amount expenses.

(** The bar heights written by [renderMiniChart(expenses, range)]. *)
Definition renderMiniChart (expenses : list expense) : list JSNumber.integral :=
  let byDate := groupByDate expenses in
  let values := map snd byDate in
  let max := JSNumber.Math_max_spread 1 values in
  map (fun p => barHeight (snd p) max) byDate.

(** What [computeAndRender] shows (the period average is left out). *)
Record view : Type := {
  incomeDisplay : Z;
  spentDisplay : Z;
  availableDisplay : Z;
  progressBar : JSNumber.integral;
  periodTotal : Z;
  periodCount : nat;
  expenseList : list expense;
  chartBars : list JSNumber.integral
}.

(** [arr.reduce((s, e) => s + e.amount, 0)], as the integer sum: the
    Number that the code computes ([reduceAmounts]) holds it as long as it
    is below 2^53. *)
Definition sumAmounts (l : list expense) : Z :=
  fold_left (fun s e => s + amount e) l 0.

Definition computeAndRender (LocalTZA now : Z) (s : state) : state * view :=
  let r := getPeriodRange LocalTZA now (period s) in
  let filtered := filter (fun e => within (date e) (start r) (end_ r)) (expenses s) in
  let totalSpent := sumAmounts (expenses s) in
  let spentPeriod := sumAmounts filtered in
  ({| expenses := expenses s; income := income s; filtered := filtered;
      period := period s; editId := editId s |},
   {| incomeDisplay := income s;
      spentDisplay := totalSpent;
      availableDisplay := Z.max 0 (income s - totalSpent);
      progressBar := spentRatio totalSpent (income s);
      periodTotal := spentPeriod;
      periodCount := List.length filtered;
      expenseList := expenses s;
      chartBars := renderMiniChart filtered |}).

Definition render (LocalTZA now : Z) (w : world) (s : state) : world :=
  {| db_expenses := db_expenses w; db_attachments := db_attachments w;
     db_meta := db_meta w; st := fst (computeAndRender LocalTZA now s) |}.

(** [metaIncome?.value || 0]. *)
Fixpoint metaGet (m : list (string * Z)) (key : string) : option Z :=
  match m with
  | [] => None
  | (k, v) :: m' => if String.eqb key k then Some v else metaGet m' key
  end.

Definition loadAll (LocalTZA now : Z) (w : world) : world :=
  let expenses := IDB.getAll (db_expenses w) in
  let metaIncome := metaGet (db_meta w) "income" in
  render LocalTZA now w
    {| expenses := JSArray.sort compareFn expenses;
       income := match metaIncome with Some v => v | None => 0 end;
       filtered := filtered (st w);
       period := period (st w);
       editId := editId (st w) |}.

(** The fields of the expense form. *)
Record expenseForm : Type := {
  f_name : JSString.codeUnits;
  f_amount : JSNumber.number;
  f_date : string;
  f_photo : option file;
  f_document : option file
}.

Definition onAddExpense (LocalTZA now : Z) (f : expenseForm) (w : world) : world :=
  let name := JSString.trim (f_name f) in
  let amount := parseAmount (f_amount f) in
  let date := if JSString.falsy (f_date f) then todayStr now else f_date f in
  if JSString.empty name || (amount <=? 0) then w
  else
    let '(atts, attachmentRefs) :=
      addAttachment now "document" (f_document f)
        (addAttachment now "photo" (f_photo f) (db_attachments w, [])) in
    let '(store, id) :=
      IDB.add (db_expenses w)
        (fun id => {| id := id; name := name; amount := amount; date := date;
                      attachments := attachmentRefs; created := now |}) in
    let expense :=
      {| id := id; name := name; amount := amount; date := date;
         attachments := attachmentRefs; created := now |} in
    render LocalTZA now
      {| db_expenses := store; db_attachments := atts; db_meta := db_meta w; st := st w |}
      {| expenses := expense :: expenses (st w);
         income := income (st w);
         filtered := filtered (st w);
         period := period (st w);
         editId := editId (st w) |}.

(** The fields of the edit dialog. *)
Record editForm : Type := {
  editName : JSString.codeUnits;
  editAmount : JSNumber.number;
  editDate : string
}.

Definition openEditDialog (e : expense) (w : world) : world :=
  {| db_expenses := db_expenses w; db_attachments := db_attachments w;
     db_meta := db_meta w;
     st := {| expenses := expenses (st w); income := income (st w);
              filtered := filtered (st w); period := period (st w);
              editId := Some (id e) |} |}.

Definition updateExpense (LocalTZA now : Z) (f : editForm) (w : world) : outcome world :=
  match staged (editId (st w)) with
  | None => Done w
  | Some editId =>
      let name := JSString.trim (editName f) in
      let amount := parseAmount (editAmount f) in
      let date := if JSString.falsy (editDate f) then todayStr now else editDate f in
      if JSString.empty name || (amount <=? 0) then Done w
      else
        match IDB.get (db_expenses w) editId with
        | None => TypeError
        | Some e =>
            let e :=
              {| id := id e; name := name; amount := amount; date := date;
                 attachments := attachments e; created := created e |} in
            let store := IDB.put (db_expenses w) (id e) e in
            let idx := JSArray.findIndex (fun x => id x =? id e) (expenses (st w)) in
            let expenses := JSArray.assignAt (expenses (st w)) idx e in
            Done (render LocalTZA now
                    {| db_expenses := store; db_attachments := db_attachments w;
                       db_meta := db_meta w; st := st w |}
                    {| expenses := JSArray.sort compareFn expenses;
                       income := income (st w);
                       filtered := filtered (st w);
                       period := period (st w);
                       editId := Legacy.editId (st w) |})
        end
  end.

Definition deleteExpense (LocalTZA now : Z) (id : Z) (w : world) : world :=
  let store := IDB.delete (db_expenses w) id in
  render LocalTZA now
    {| db_expenses := store; db_attachments := db_attachments w;
       db_meta := db_meta w; st := st w |}
    {| expenses := filter (fun e => negb (Legacy.id e =? id)) (expenses (st w));
       income := income (st w);
       filtered := filtered (st w);
       period := period (st w);
       editId := editId (st w) |}.

(** The click handler of an attachment link:
    [await dbp.get('attachments', ref.storeId)]. *)
Definition openAttachment (ref : attachmentRef) (w : world) : option attachment :=
  IDB.get (db_attachments w) (storeId ref).

(** *** The declared income *)

(** [dbp.put('meta', { key, value })] on the store with
    [{ keyPath: 'key' }]: the record takes its place in key order, and a
    record of the same key is replaced. *)
Fixpoint metaPut (m : list (string * Z)) (key : string) (value : Z) : list (string * Z) :=
  match m with
  | [] => [(key, value)]
  | (k, v) :: m' =>
      match String.compare key k with
      | Eq => (key, value) :: m'
      | Lt => (key, value) :: (k, v) :: m'
      | Gt => (k, v) :: metaPut m' key value
      end
  end.

(** [openIncomeDialog]: the Number that the income input holds after
    [$('#incomeInput').value = state.income || ''] (the empty input reads
    as 0). *)
Definition openIncomeDialog (w : world) : JSNumber.number :=
  if income (st w) =? 0 then S754_zero false else JSNumber.of_Z (income (st w)).

(** [saveIncome], on the Number held by the income input. *)
Definition saveIncome (LocalTZA now : Z) (incomeInput : JSNumber.number) (w : world) : world :=
  let v := parseAmount incomeInput in
  render LocalTZA now
    {| db_expenses := db_expenses w; db_attachments := db_attachments w;
       db_meta := metaPut (db_meta w) "income" v; st := st w |}
    {| expenses := expenses (st w);
       income := v;
       filtered := filtered (st w);
       period := period (st w);
       editId := editId (st w) |}.

(** The [change] handler of the period select:
    [state.period = e.target.value; computeAndRender()]. *)
Definition onPeriodChange (LocalTZA now : Z) (value : string) (w : world) : world :=
  render LocalTZA now w
    {| expenses := expenses (st w);
       income := income (st w);
       filtered := filtered (st w);
       period := value;
       editId := editId (st w) |}.

(** *** The average of the period *)

(** [Math.max(1, Math.ceil((end - start) / (1000*60*60*24)) + 1)]. *)
Definition days (r : range) : JSNumber.number :=
  JSNumber.Math_max2 (JSNumber.of_Z 1)
    (JSNumber.add
       (JSNumber.Math_ceil
          (JSNumber.div (JSNumber.of_Z (end_ r - start r))
             (JSNumber.of_Z (1000 * 60 * 60 * 24))))
       (JSNumber.of_Z 1)).

(** [Math.round(spentPeriod / days)]. *)
Definition avg (spentPeriod : Z) (r : range) : JSNumber.integral :=
  JSNumber.Math_round (JSNumber.div (JSNumber.of_Z spentPeriod) (days r)).

(** *** The edit dialog and the list *)

(** The values that [openEditDialog] writes into the inputs of the edit
    dialog, as [updateExpense] reads them back. *)
Definition editDialogFields (e : expense) : editForm :=
  {| editName := name e; editAmount := JSNumber.of_Z (amount e); editDate := date e |}.

(** The text of the attachment link: ['Comprobante'] or
    [`${n} archivos`]. *)
Inductive linkText : Type :=
| Comprobante
| archivos (n : nat).

(** A list item written by [renderList]: its [data-id], the name and the
    amount of its title, the date of its meta line ([None] is the invalid
    date), and its attachment link ([None] when the link stays hidden)
    with the reference that a click on it opens. *)
Record item : Type := {
  dataset_id : Z;
  title : JSString.codeUnits * Z;
  meta : option (Z * Z * Z);
  thumb : option (linkText * attachmentRef)
}.

Record listView : Type := {
  emptyState : bool;
  expenseItems : list item
}.

Definition renderList (LocalTZA : Z) (expenses : list expense) : listView :=
  {| emptyState := match expenses with [] => true | _ => false end;
     expenseItems :=
       map (fun e =>
              {| dataset_id := id e;
                 title := (name e, amount e);
                 meta := option_map (JSDate.toLocaleDateString LocalTZA) (JSDate.parse (date e));
                 thumb :=
                   match attachments e with
                   | [] => None
                   | ref :: _ =>
                       Some (if (List.length (attachments e) =? 1)%nat then Comprobante
                             else archivos (List.length (attachments e)),
                             ref)
                   end |})
           expenses |}.

End Legacy.

(* ===================================================================== *)
(** ** The unified application (typed transactions) *)
(* ===================================================================== *)

Module Unified.

Record tx : Type := {
  id : Z;
  type : string;
  name : JSString.codeUnits;
  amount : Z;
  date : string;
  attachments : list attachmentRef;
  created : Z
}.

(** *** The database [gastosDB_v2] *)

Record database : Type := {
  version : Z;
  transactionsStore : option (IDB.objectStore tx);
  attachmentsStore : option (IDB.objectStore attachment)
}.

Definition noDatabase : database :=
  {| version := 0; transactionsStore := None; attachmentsStore := None |}.

(** [req.onupgradeneeded]. *)
Definition onupgradeneeded (db : database) : database :=
  {| version := 1;
     transactionsStore :=
       match transactionsStore db with
       | Some s => Some s
       | None => Some (IDB.createObjectStore ["by_date"; "by_name"; "by_type"]%string)
       end;
     attachmentsStore :=
       match attachmentsStore db with
       | Some s => Some s
       | None => Some (IDB.createObjectStore [])
       end |}.

(** [dbp.open()]: [indexedDB.open('gastosDB_v2', 1)] on the database of
    that name, if there is one. *)
Definition dbp_open (existing : option database) : option database :=
  let db := match existing with Some db => db | None => noDatabase end in
  if version db <? 1 then Some (onupgradeneeded db)
  else if version db =? 1 then Some db
  else None.

(** *** State *)

Record state : Type := {
  txs : list tx;
  editId : option Z
}.

Record world : Type := {
  db_transactions : IDB.objectStore tx;
  db_attachments : IDB.objectStore attachment;
  st : state
}.

Definition compareFn : tx -> tx -> Z := byDateDesc date id.

Definition isExpense (t : tx) : bool := String.eqb (type t) "expense".
Definition isIncome (t : tx) : bool := String.eqb (type t) "income".

(** [map.set(k, (map.get(k) || 0) + (t.type === 'expense' ? t.amount : 0))]. *)
Definition groupByDate (txs : list tx) : list (string * Z) :=
  groupByDateWith date (fun t => if isExpense t then amount t else 0) txs.

Record ranges_t : Type := {
  today : range;
  week : range;
  fortnight : range;
  month : range
}.

Definition ranges (LocalTZA now : Z) : ranges_t :=
  let y := JSDate.getFullYear LocalTZA now in
  let m := JSDate.getMonth LocalTZA now in
  let d := JSDate.getDate LocalTZA now in
  {| today := {| start := startOfDay LocalTZA now; end_ := endOfDay LocalTZA now |};
     week := weekOf LocalTZA now;
     fortnight := fortnightOf LocalTZA y m d;
     month := monthOf LocalTZA y m |}.

(** [arr.reduce((s, t) => s + t.amount, 0)], as the integer sum: the
    Number that the code computes ([reduceAmounts]) holds it as long as it
    is below 2^53. *)
Definition sumAmounts (l : list tx) : Z :=
  fold_left (fun s t => s + amount t) l 0.

(** [sumRange(rg)] of [computeAndRender]. *)
Definition sumRange (txs : list tx) (rg : range) : Z :=
  sumAmounts (filter (fun t => isExpense t && within (date t) (start rg) (end_ rg)) txs).

(** The points that the chart shows, [byDate.slice(-14)]. *)
Definition last14 (txs : list tx) : list (string * Z) :=
  JSArray.sliceLast 14 (groupByDate txs).

(** The bar heights written by [renderMiniChart()]. *)
Definition renderMiniChart (txs : list tx) : list JSNumber.integral :=
  let byDate := groupByDate txs in
  let values := map snd byDate in
  let max := JSNumber.Math_max_spread 1 values in
  map (fun p => barHeight (snd p) max) (JSArray.sliceLast 14 byDate).

Record view : Type := {
  incomeDisplay : Z;
  spentDisplay : Z;
  availableDisplay : Z;
  progressBar : JSNumber.integral;
  statTotal : Z;
  statToday : Z;
  statWeek : Z;
  statFortnight : Z;
  statMonth : Z;
  txList : list tx;
  chartBars : list JSNumber.integral
}.

Definition computeAndRender (LocalTZA now : Z) (s : state) : view :=
  let incomeSum := sumAmounts (filter isIncome (txs s)) in
  let expenseSum := sumAmounts (filter isExpense (txs s)) in
  let available := incomeSum - expenseSum in
  let ratio := spentRatio expenseSum incomeSum in
  let r := ranges LocalTZA now in
  {| incomeDisplay := incomeSum;
     spentDisplay := expenseSum;
     availableDisplay := available;
     progressBar := ratio;
     statTotal := expenseSum;
     statToday := sumRange (txs s) (today r);
     statWeek := sumRange (txs s) (week r);
     statFortnight := sumRange (txs s) (fortnight r);
     statMonth := sumRange (txs s) (month r);
     txList := txs s;
     chartBars := renderMiniChart (txs s) |}.

Definition loadAll (w : world) : world :=
  let txs := IDB.getAll (db_transactions w) in
  {| db_transactions := db_transactions w; db_attachments := db_attachments w;
     st := {| txs := JSArray.sort compareFn txs; editId := editId (st w) |} |}.

(** The fields of the transaction form. *)
Record txForm : Type := {
  f_type : string;
  f_name : JSString.codeUnits;
  f_amount : JSNumber.number;
  f_date : string;
  f_photo : option file;
  f_document : option file
}.

Definition onAddTx (now : Z) (f : txForm) (w : world) : world :=
  let type := f_type f in
  let name := JSString.trim (f_name f) in
  let amount := parseAmount (f_amount f) in
  let date := if JSString.falsy (f_date f) then todayStr now else f_date f in
  if JSString.empty name || (amount <=? 0) then w
  else
    let '(atts, attachmentRefs) :=
      addAttachment now "document" (f_document f)
        (addAttachment now "photo" (f_photo f) (db_attachments w, [])) in
    let '(store, id) :=
      IDB.add (db_transactions w)
        (fun id => {| id := id; type := type; name := name; amount := amount;
                      date := date; attachments := attachmentRefs; created := now |}) in
    let tx :=
      {| id := id; type := type; name := name; amount := amount; date := date;
         attachments := attachmentRefs; created := now |} in
    {| db_transactions := store; db_attachments := atts;
       st := {| txs := tx :: txs (st w); editId := editId (st w) |} |}.

(** The fields of the edit dialog. *)
Record editForm : Type := {
  editType : string;
  editName : JSString.codeUnits;
  editAmount : JSNumber.number;
  editDate : string;
  editPhoto : option file;
  editDocument : option file
}.

Definition openEditDialog (t : tx) (w : world) : world :=
  {| db_transactions := db_transactions w; db_attachments := db_attachments w;
     st := {| txs := txs (st w); editId := Some (id t) |} |}.

(** [updateTx] as far as the source text goes (it ends after the fields
    of the loaded record are overwritten): the handler has returned early,
    has thrown, or goes on with the overwritten record. *)
Inductive updateTx_progress : Type :=
| Returned
| Thrown
| Overwritten (t : tx).

Definition updateTx (now : Z) (f : editForm) (w : world) : updateTx_progress :=
  match staged (editId (st w)) with
  | None => Returned
  | Some editId =>
      let type := editType f in
      let name := JSString.trim (editName f) in
      let amount := parseAmount (editAmount f) in
      let date := if JSString.falsy (editDate f) then todayStr now else editDate f in
      if JSString.empty name || (amount <=? 0) then Returned
      else
        match IDB.get (db_transactions w) editId with
        | None => Thrown
        | Some t =>
            Overwritten
              {| id := id t; type := type; name := name; amount := amount;
                 date := date; attachments := attachments t; created := created t |}
        end
  end.

(** The click handler of an attachment link:
    [await dbp.get('attachments', ref.storeId)]. *)
Definition openAttachment (ref : attachmentRef) (w : world) : option attachment :=
  IDB.get (db_attachments w) (storeId ref).

End Unified.

(** The databases of the origin that the two applications open. *)
Record indexedDB : Type := {
  gastosDB : option Legacy.database;
  gastosDB_v2 : option Unified.database
}.

(** [await dbp.open()] of the legacy application. *)
Definition open_legacy (o : indexedDB) : option indexedDB :=
  match Legacy.dbp_open (gastosDB o) with
  | Some db => Some {| gastosDB := Some db; gastosDB_v2 := gastosDB_v2 o |}
  | None => None
  end.

(** [await dbp.open()] of the unified application. *)
Definition open_unified (o : indexedDB) : option indexedDB :=
  match Unified.dbp_open (gastosDB_v2 o) with
  | Some db => Some {| gastosDB := gastosDB o; gastosDB_v2 := Some db |}
  | None => None
  end.

(** The transactions that the unified application lists after opening its
    database: [dbp.getAll('transactions')]. *)
Definition unified_listAll (o : indexedDB) : list Unified.tx :=
  match gastosDB_v2 o with
  | Some db =>
      match Unified.transactionsStore db with
      | Some s => IDB.getAll s
      | None => []
      end
  | None => []
  end.

(* ===================================================================== *)
(** ** Vocabulary of the specification *)
(* ===================================================================== *)

(** A Number below zero. *)
Definition negative (v : JSNumber.number) : bool := SFltb v (S754_zero false).

(** Date descending, id descending as tie-break. *)
Definition descending {A : Type} (date : A -> string) (id : A -> Z) (a b : A) : Prop :=
  String.compare (date a) (date b) = Gt \/ (date a = date b /\ id b <= id a).

Definition mirrorSorted (l : list Unified.tx) : Prop :=
  Sorted (descending Unified.date Unified.id) l.

Definition legacyMirrorSorted (l : list Legacy.expense) : Prop :=
  Sorted (descending Legacy.date Legacy.id) l.

(** The order that a comparison function asks for. *)
Definition precedes {A : Type} (compareFn : A -> A -> Z) (a b : A) : Prop :=
  compareFn a b <= 0.

(** Strictly ascending by date. *)
Definition ascending (a b : string * Z) : Prop := String.compare (fst a) (fst b) = Lt.

(** The sum of [weight] over the entries dated [d]. *)
Definition sumOn {A : Type} (date : A -> string) (weight : A -> Z) (d : string)
    (entries : list A) : Z :=
  fold_left (fun s t => s + weight t) (filter (fun t => String.eqb (date t) d) entries) 0.

(** The sum of the amounts of the expense-typed transactions dated [d]. *)
Definition expenseOn (d : string) (txs : list Unified.tx) : Z :=
  Unified.sumAmounts (filter (fun t => Unified.isExpense t && String.eqb (Unified.date t) d) txs).

(** The sum of the amounts of the transactions of one type, by recursion
    on the list. *)
Fixpoint totalOf (type : string) (txs : list Unified.tx) : Z :=
  match txs with
  | [] => 0
  | t :: rest =>
      (if String.eqb (Unified.type t) type then Unified.amount t else 0) + totalOf type rest
  end.

(** The sum of the amounts of a list of expenses, by recursion on the
    list. *)
Fixpoint totalSpent (expenses : list Legacy.expense) : Z :=
  match expenses with
  | [] => 0
  | e :: rest => Legacy.amount e + totalSpent rest
  end.

(** The histogram as the specification words it: the points are the dates
    of the expense-typed transactions, no others. *)
Definition groups_expenses_only (txs : list Unified.tx) (points : list (string * Z)) : Prop :=
  forall d, In d (map fst points) <->
            exists t, In t txs /\ Unified.isExpense t = true /\ Unified.date t = d.

(** The local calendar date (year, month 0..11, day) and the local time of
    day of an instant. *)
Definition localDate (LocalTZA t : Z) : Z * Z * Z :=
  (JSDate.getFullYear LocalTZA t, JSDate.getMonth LocalTZA t, JSDate.getDate LocalTZA t).

Definition localTimeOfDay (LocalTZA t : Z) : Z :=
  JSDate.TimeWithinDay (JSDate.LocalTime LocalTZA t).

(** The expense records and the attachments held by the legacy database,
    and the attachments held by the unified one. *)
Definition legacy_expenses (o : indexedDB) : list Legacy.expense :=
  match gastosDB o with
  | Some db =>
      match Legacy.expensesStore db with
      | Some s => IDB.getAll s
      | None => []
      end
  | None => []
  end.

Definition legacy_attachments (o : indexedDB) : list (Z * attachment) :=
  match gastosDB o with
  | Some db =>
      match Legacy.attachmentsStore db with
      | Some s => IDB.records s
      | None => []
      end
  | None => []
  end.

Definition unified_attachments (o : indexedDB) : list (Z * attachment) :=
  match gastosDB_v2 o with
  | Some db =>
      match Unified.attachmentsStore db with
      | Some s => IDB.records s
      | None => []
      end
  | None => []
  end.

(** A legacy expense reappears as a transaction of type expense. *)
Definition carried (e : Legacy.expense) (t : Unified.tx) : Prop :=
  Unified.type t = "expense"%string /\
  Unified.name t = Legacy.name e /\
  Unified.amount t = Legacy.amount e /\
  Unified.date t = Legacy.date e.

(** The upgrade as the specification words it: every expense record and
    every attachment of the legacy store is in the unified model. *)
Definition upgrade_preserves (o o' : indexedDB) : Prop :=
  (forall e, In e (legacy_expenses o) -> exists t, In t (unified_listAll o') /\ carried e t) /\
  (forall a, In a (legacy_attachments o) -> In a (unified_attachments o')).

(** Amounts are non-negative integers whose sum is a safe integer. *)
Definition safeAmounts {A : Type} (amount : A -> Z) (entries : list A) : Prop :=
  Forall (fun t => 0 <= amount t) entries /\
  fold_left (fun s t => s + amount t) entries 0 < 2 ^ 53.

(** An integer between [lo] and [hi]. *)
Definition integerIn (lo hi : Z) (r : JSNumber.integral) : Prop :=
  exists n, r = JSNumber.RInt n /\ lo <= n <= hi.

(** *** Rounding in binary64 *)

(** A truncated mantissa [m] with location [l], at exponent [e <= 0], is
    below the integer [B]: the value it stands for is at most [B], and the
    truncation [m * 2^e] itself is less than [B] when digits were lost. *)
Definition below (B m : Z) (l : location) (e : Z) : Prop :=
  0 <= m /\ m <= B * 2 ^ (- e) /\ (l <> loc_Exact -> m < B * 2 ^ (- e)).

(** A Number with sign [s] that is not NaN. *)
Inductive signed (s : bool) : spec_float -> Prop :=
| signed_zero : signed s (S754_zero s)
| signed_finite m e : signed s (S754_finite s m e)
| signed_infinity : signed s (S754_infinity s).

(** A zero or a finite Number of sign [s] and of magnitude at most [B]. *)
Inductive at_most (B : Z) (s : bool) : spec_float -> Prop :=
| at_most_zero : at_most B s (S754_zero s)
| at_most_finite m e :
    e <= 0 -> Z.pos m <= B * 2 ^ (- e) -> at_most B s (S754_finite s m e).

(** [p * 2^n] as a positive number. *)
Definition shiftp (p : positive) (n : Z) : positive :=
  match n with
  | Z.pos k => Pos.iter xO p k
  | _ => p
  end.

(** The Number of sign [s] that holds the integer [p] below 2^53: a
    mantissa of 53 digits. *)
Definition canonical (s : bool) (p : positive) : spec_float :=
  S754_finite s (shiftp p (53 - Z.pos (digits2_pos p))) (Z.pos (digits2_pos p) - 53).

(** *** Stores and mirrors *)

(** The keys of an object store with a key generator: strictly ascending,
    positive, and below the next key that the generator hands out. *)
Definition wellKeyed {A : Type} (s : IDB.objectStore A) : Prop :=
  Sorted Z.lt (map fst (IDB.records s)) /\
  0 < IDB.keyGenerator s /\
  Forall (fun kv => 0 < fst kv < IDB.keyGenerator s) (IDB.records s).

(** Every record holds its key at the key path [id]. *)
Definition keyedBy {A : Type} (id : A -> Z) (s : IDB.objectStore A) : Prop :=
  Forall (fun kv => id (snd kv) = fst kv) (IDB.records s).

(** The mirror holds the records of the store, each once. *)
Definition legacyConsistent (w : Legacy.world) : Prop :=
  wellKeyed (Legacy.db_expenses w) /\
  keyedBy Legacy.id (Legacy.db_expenses w) /\
  Permutation (Legacy.expenses (Legacy.st w)) (IDB.getAll (Legacy.db_expenses w)).

Definition unifiedConsistent (w : Unified.world) : Prop :=
  wellKeyed (Unified.db_transactions w) /\
  keyedBy Unified.id (Unified.db_transactions w) /\
  Permutation (Unified.txs (Unified.st w)) (IDB.getAll (Unified.db_transactions w)).

(** The record that a create builds from the fields of its form, with the
    given attachment references and key. *)
Definition txOf (now : Z) (f : Unified.txForm) (attachmentRefs : list attachmentRef)
    (id : Z) : Unified.tx :=
  {| Unified.id := id;
     Unified.type := Unified.f_type f;
     Unified.name := JSString.trim (Unified.f_name f);
     Unified.amount := parseAmount (Unified.f_amount f);
     Unified.date := if JSString.falsy (Unified.f_date f) then todayStr now
                     else Unified.f_date f;
     Unified.attachments := attachmentRefs;
     Unified.created := now |}.

Definition expenseOf (now : Z) (f : Legacy.expenseForm) (attachmentRefs : list attachmentRef)
    (id : Z) : Legacy.expense :=
  {| Legacy.id := id;
     Legacy.name := JSString.trim (Legacy.f_name f);
     Legacy.amount := parseAmount (Legacy.f_amount f);
     Legacy.date := if JSString.falsy (Legacy.f_date f) then todayStr now
                    else Legacy.f_date f;
     Legacy.attachments := attachmentRefs;
     Legacy.created := now |}.

(** The record that an update writes back: the name, the amount and the
    date of the edit form, the rest as loaded. *)
Definition edited (now : Z) (f : Legacy.editForm) (e : Legacy.expense) : Legacy.expense :=
  {| Legacy.id := Legacy.id e;
     Legacy.name := JSString.trim (Legacy.editName f);
     Legacy.amount := parseAmount (Legacy.editAmount f);
     Legacy.date := if JSString.falsy (Legacy.editDate f) then todayStr now
                    else Legacy.editDate f;
     Legacy.attachments := Legacy.attachments e;
     Legacy.created := Legacy.created e |}.

(** The attachment store and the references that the two file inputs of a
    create leave. *)
Definition attached (now : Z) (photo document : option file)
    (s : IDB.objectStore attachment) : IDB.objectStore attachment * list attachmentRef :=
  addAttachment now "document" document (addAttachment now "photo" photo (s, [])).

(** A record as the validation of a create or of an update lets it
    through: a positive amount, a trimmed name that is not empty -- it
    neither starts nor ends with white space -- and a date. *)
Definition validExpense (e : Legacy.expense) : Prop :=
  0 < Legacy.amount e /\
  JSString.trim (Legacy.name e) = Legacy.name e /\
  Legacy.name e <> [] /\
  JSString.is_space (hd 0 (Legacy.name e)) = false /\
  JSString.is_space (last (Legacy.name e) 0) = false /\
  Legacy.date e <> EmptyString.

(** One handler of the legacy application runs to its end.  (A handler
    that throws has written nothing before it throws.) *)
Inductive legacyStep (LocalTZA : Z) : Legacy.world -> Legacy.world -> Prop :=
| step_loadAll now w :
    legacyStep LocalTZA w (Legacy.loadAll LocalTZA now w)
| step_onAddExpense now f w :
    legacyStep LocalTZA w (Legacy.onAddExpense LocalTZA now f w)
| step_openEditDialog e w :
    legacyStep LocalTZA w (Legacy.openEditDialog e w)
| step_updateExpense now f w w' :
    Legacy.updateExpense LocalTZA now f w = Done w' -> legacyStep LocalTZA w w'
| step_deleteExpense now id w :
    legacyStep LocalTZA w (Legacy.deleteExpense LocalTZA now id w)
| step_saveIncome now incomeInput w :
    legacyStep LocalTZA w (Legacy.saveIncome LocalTZA now incomeInput w)
| step_onPeriodChange now value w :
    legacyStep LocalTZA w (Legacy.onPeriodChange LocalTZA now value w).

(** A run of the legacy application: handlers, one after the other. *)
Inductive legacyRun (LocalTZA : Z) : Legacy.world -> Legacy.world -> Prop :=
| run_start w : legacyRun LocalTZA w w
| run_step w1 w2 w3 :
    legacyRun LocalTZA w1 w2 -> legacyStep LocalTZA w2 w3 -> legacyRun LocalTZA w1 w3.

(** The sum of the values of the points of a histogram. *)
Definition sumValues (points : list (string * Z)) : Z :=
  fold_left (fun s p => s + snd p) points 0.

(** *** Dates as day numbers *)

(** The day number (days since the epoch) of a date-only string. *)
Definition dayNumber (dateISO : string) : option Z :=
  match JSDate.parseFields dateISO with
  | Some (y, m, d) => Some (JSDate.MakeDay y (m - 1) d)
  | None => None
  end.

(** The date-only string denotes one of the days [lo..hi]. *)
Definition datedIn (lo hi : Z) (dateISO : string) : bool :=
  match dayNumber dateISO with
  | Some n => (lo <=? n) && (n <=? hi)
  | None => false
  end.

(** The local day number of an instant. *)
Definition localDay (LocalTZA t : Z) : Z := JSDate.Day (JSDate.LocalTime LocalTZA t).

(* ===================================================================== *)
(** ** Sample inputs *)
(* ===================================================================== *)

(** 2024-03-10T15:00:00Z. *)
Definition sampleNow : Z := 1710082800000.

(** UTC-3, the offset of America/Santiago in March. *)
Definition santiago : Z := -10800000.

Definition receipt : file :=
  {| file_name := "r.jpg"; file_type := "image/jpeg"; file_blob := "jpeg-bytes" |}.

Definition invoice : file :=
  {| file_name := "f.pdf"; file_type := "application/pdf"; file_blob := "pdf-bytes" |}.

Definition emptyLegacy : Legacy.world :=
  {| Legacy.db_expenses := IDB.createObjectStore ["by_date"; "by_name"]%string;
     Legacy.db_attachments := IDB.createObjectStore [];
     Legacy.db_meta := [];
     Legacy.st := {| Legacy.expenses := []; Legacy.income := 0; Legacy.filtered := [];
                     Legacy.period := "week"; Legacy.editId := None |} |}.

Definition lunchForm : Legacy.expenseForm :=
  {| Legacy.f_name := JSString.literal "Almuerzo"; Legacy.f_amount := JSNumber.of_Z 120000;
     Legacy.f_date := "2024-03-10"; Legacy.f_photo := Some receipt;
     Legacy.f_document := Some invoice |}.

Definition earlierLunchForm : Legacy.expenseForm :=
  {| Legacy.f_name := JSString.literal "Almuerzo"; Legacy.f_amount := JSNumber.of_Z 120000;
     Legacy.f_date := "2024-03-01"; Legacy.f_photo := None;
     Legacy.f_document := None |}.

(** A legacy world holding one expense (id 1) with two attachments (ids 1
    and 2). *)
Definition lunchWorld : Legacy.world := Legacy.onAddExpense 0 sampleNow lunchForm emptyLegacy.

(** [lunchWorld] after a second expense (id 2, no attachment). *)
Definition twoExpenses : Legacy.world :=
  Legacy.onAddExpense 0 sampleNow earlierLunchForm lunchWorld.

Definition renameForm : Legacy.editForm :=
  {| Legacy.editName := JSString.literal "Cena"; Legacy.editAmount := JSNumber.of_Z 9000;
     Legacy.editDate := "2024-03-09" |}.

(** The edit dialog is staged on id 7, which the store does not hold. *)
Definition staleEdit : Legacy.world :=
  {| Legacy.db_expenses := Legacy.db_expenses lunchWorld;
     Legacy.db_attachments := Legacy.db_attachments lunchWorld;
     Legacy.db_meta := Legacy.db_meta lunchWorld;
     Legacy.st := {| Legacy.expenses := Legacy.expenses (Legacy.st lunchWorld);
                     Legacy.income := 0;
                     Legacy.filtered := Legacy.filtered (Legacy.st lunchWorld);
                     Legacy.period := "week"; Legacy.editId := Some 7 |} |}.

Definition emptyUnified : Unified.world :=
  {| Unified.db_transactions := IDB.createObjectStore ["by_date"; "by_name"; "by_type"]%string;
     Unified.db_attachments := IDB.createObjectStore [];
     Unified.st := {| Unified.txs := []; Unified.editId := None |} |}.

Definition staleEditTx : Unified.world :=
  {| Unified.db_transactions := Unified.db_transactions emptyUnified;
     Unified.db_attachments := Unified.db_attachments emptyUnified;
     Unified.st := {| Unified.txs := []; Unified.editId := Some 7 |} |}.

Definition renameTxForm : Unified.editForm :=
  {| Unified.editType := "expense"; Unified.editName := JSString.literal "Cena";
     Unified.editAmount := JSNumber.of_Z 9000; Unified.editDate := "2024-03-09";
     Unified.editPhoto := None; Unified.editDocument := None |}.

(** A form with a blank name and amount 0, and a receipt chosen. *)
Definition blankForm : Unified.txForm :=
  {| Unified.f_type := "expense"; Unified.f_name := JSString.literal "   ";
     Unified.f_amount := S754_zero false; Unified.f_date := "2024-03-10";
     Unified.f_photo := Some receipt; Unified.f_document := None |}.

(** A form whose name holds a NO-BREAK SPACE, an EM SPACE and a TAB and
    nothing else, with a valid amount and a receipt chosen. *)
Definition spacesForm : Unified.txForm :=
  {| Unified.f_type := "expense"; Unified.f_name := [160; 8195; 9];
     Unified.f_amount := JSNumber.of_Z 120000; Unified.f_date := "2024-03-10";
     Unified.f_photo := Some receipt; Unified.f_document := None |}.

Definition marchForm (date : string) : Unified.txForm :=
  {| Unified.f_type := "expense"; Unified.f_name := JSString.literal "Almuerzo";
     Unified.f_amount := JSNumber.of_Z 120000; Unified.f_date := date;
     Unified.f_photo := None; Unified.f_document := None |}.

(** The unified application after a load of a store that holds one
    transaction dated 2024-03-10. *)
Definition loadedWorld : Unified.world :=
  Unified.loadAll
    {| Unified.db_transactions :=
         Unified.db_transactions (Unified.onAddTx sampleNow (marchForm "2024-03-10") emptyUnified);
       Unified.db_attachments := IDB.createObjectStore [];
       Unified.st := {| Unified.txs := []; Unified.editId := None |} |}.

(** An origin on which only the legacy application has run: one expense
    with two attachments, and a declared income. *)
Definition legacyOrigin : indexedDB :=
  {| gastosDB :=
       Some {| Legacy.version := 1;
               Legacy.expensesStore := Some (Legacy.db_expenses lunchWorld);
               Legacy.attachmentsStore := Some (Legacy.db_attachments lunchWorld);
               Legacy.metaStore := Some [("income"%string, 500000)] |};
     gastosDB_v2 := None |}.

Definition mkTx (id : Z) (type : string) (amount : Z) (date : string) : Unified.tx :=
  {| Unified.id := id; Unified.type := type; Unified.name := JSString.literal "x"; Unified.amount := amount;
     Unified.date := date; Unified.attachments := []; Unified.created := 0 |}.

Definition stateOf (txs : list Unified.tx) : Unified.state :=
  {| Unified.txs := txs; Unified.editId := None |}.

(** Scenario A: an income of 500000 and an expense of 120000 on one day. *)
Definition scenarioA : list Unified.tx :=
  [mkTx 1 "income" 500000 "2024-03-10"; mkTx 2 "expense" 120000 "2024-03-10"].

(** A form with the amount 1e308, which the amount input accepts. *)
Definition hugeForm (type : string) : Unified.txForm :=
  {| Unified.f_type := type; Unified.f_name := JSString.literal "Casa";
     Unified.f_amount := JSNumber.of_Z (10 ^ 308); Unified.f_date := "2024-03-10";
     Unified.f_photo := None; Unified.f_document := None |}.

(** The unified application after two incomes and two expenses of 1e308
    were created. *)
Definition overflowWorld : Unified.world :=
  Unified.onAddTx sampleNow (hugeForm "expense")
    (Unified.onAddTx sampleNow (hugeForm "expense")
       (Unified.onAddTx sampleNow (hugeForm "income")
          (Unified.onAddTx sampleNow (hugeForm "income") emptyUnified))).

(** Scenario B: three expenses on two days. *)
Definition scenarioB : list Unified.tx :=
  [mkTx 1 "expense" 1000 "2024-01-01"; mkTx 2 "expense" 2000 "2024-01-01";
   mkTx 3 "expense" 3000 "2024-01-02"].

(** A day with an income and nothing else. *)
Definition salaryOnly : list Unified.tx := [mkTx 1 "income" 500000 "2024-01-03"].

(** Fifteen days of expenses: 1000 on the first day, 10 on each of the
    fourteen days after it. *)
Definition fifteenDays : list Unified.tx :=
  mkTx 1 "expense" 1000 "2024-01-01"
  :: map (mkTx 2 "expense" 10)
       ["2024-01-02"; "2024-01-03"; "2024-01-04"; "2024-01-05"; "2024-01-06";
        "2024-01-07"; "2024-01-08"; "2024-01-09"; "2024-01-10"; "2024-01-11";
        "2024-01-12"; "2024-01-13"; "2024-01-14"; "2024-01-15"]%string.

(** The expense that [lunchWorld] holds, and [lunchWorld] with the edit
    dialog opened on it. *)
Definition lunch : Legacy.expense :=
  expenseOf sampleNow lunchForm [refOf 1 "photo" receipt; refOf 2 "document" invoice] 1.

Definition lunchEdit : Legacy.world := Legacy.openEditDialog lunch lunchWorld.

(** A form with a photo and a document. *)
Definition lunchTxForm : Unified.txForm :=
  {| Unified.f_type := "expense"; Unified.f_name := JSString.literal "Almuerzo";
     Unified.f_amount := JSNumber.of_Z 120000; Unified.f_date := "2024-03-10";
     Unified.f_photo := Some receipt; Unified.f_document := Some invoice |}.

(** Forms whose names have Unicode white space at their ends: "Cafe"
    followed by a NO-BREAK SPACE, and "Cena" between an EM SPACE and a
    NO-BREAK SPACE; and forms whose names are one NO-BREAK SPACE. *)
Definition cafeForm : Legacy.expenseForm :=
  {| Legacy.f_name := JSString.literal "Cafe" ++ [160];
     Legacy.f_amount := JSNumber.of_Z 3500; Legacy.f_date := "2024-03-10";
     Legacy.f_photo := None; Legacy.f_document := None |}.

Definition cafeTxForm : Unified.txForm :=
  {| Unified.f_type := "expense"; Unified.f_name := JSString.literal "Cafe" ++ [160];
     Unified.f_amount := JSNumber.of_Z 3500; Unified.f_date := "2024-03-10";
     Unified.f_photo := Some receipt; Unified.f_document := None |}.

Definition cenaEdit : Legacy.editForm :=
  {| Legacy.editName := [8195] ++ JSString.literal "Cena" ++ [160];
     Legacy.editAmount := JSNumber.of_Z 9000; Legacy.editDate := "2024-03-09" |}.

Definition nbspForm : Legacy.expenseForm :=
  {| Legacy.f_name := [160]; Legacy.f_amount := JSNumber.of_Z 3500;
     Legacy.f_date := "2024-03-10"; Legacy.f_photo := Some receipt;
     Legacy.f_document := None |}.

Definition nbspEdit : Legacy.editForm :=
  {| Legacy.editName := [160]; Legacy.editAmount := JSNumber.of_Z 9000;
     Legacy.editDate := "2024-03-09" |}.

Definition nbspTxEdit : Unified.editForm :=
  {| Unified.editType := "expense"; Unified.editName := [160];
     Unified.editAmount := JSNumber.of_Z 9000; Unified.editDate := "2024-03-09";
     Unified.editPhoto := None; Unified.editDocument := None |}.

(** A stored expense without attachments, dated the first of March. *)
Definition dinner : Legacy.expense :=
  {| Legacy.id := 1; Legacy.name := JSString.literal "Cena"; Legacy.amount := 9000;
     Legacy.date := "2024-03-01"; Legacy.attachments := []; Legacy.created := 0 |}.

(* ===================================================================== *)
(** ** Tactics *)
(* ===================================================================== *)

(** Linear arithmetic with division and remainder by constants. *)
Ltac divlia := Z.div_mod_to_equations; lia.

(** One case per month for a hypothesis [H : 0 <= m <= 11]. *)
Ltac month_split H :=
  let C := fresh "C" in
  match type of H with
  | 0 <= ?m <= 11 =>
      assert (C : m = 0 \/ m = 1 \/ m = 2 \/ m = 3 \/ m = 4 \/ m = 5 \/ m = 6 \/ m = 7
                  \/ m = 8 \/ m = 9 \/ m = 10 \/ m = 11) by lia;
      clear H;
      repeat (destruct C as [C|C]; [subst|]); [..|subst]
  end.

(** Evaluates the month tables at literal months. *)
Ltac month_simpl :=
  repeat match goal with
         | |- context [Z.pos ?p + 1] =>
             let v := eval compute in (Z.pos p + 1) in change (Z.pos p + 1) with v
         | |- context [0 + 1] => change (0 + 1) with 1
         end;
  cbv beta iota delta [JSDate.monthStart JSDate.DaysInMonth] in *.

(** Decides the comparisons of a cascade by arithmetic. *)
Ltac decide_ltb :=
  repeat match goal with
         | |- context [?a <? ?b] => destruct (Z.ltb_spec a b); try lia
         end.

(* ===================================================================== *)
(** * Properties *)
(* ===================================================================== *)

Example parse_example : JSDate.parse "2024-03-10" = Some 1710028800000.
Proof. reflexivity. Qed.

Example toISODate_example : todayStr sampleNow = "2024-03-10"%string.
Proof. reflexivity. Qed.

Example trim_example :
  JSString.trim (JSString.literal "  ab c  ") = JSString.literal "ab c".
Proof. reflexivity. Qed.

(** A NO-BREAK SPACE in front, an EM SPACE, a LINE SEPARATOR and a
    ZERO WIDTH NO-BREAK SPACE behind: [trim] removes them all, and keeps
    the NO-BREAK SPACE inside. *)
Example trim_unicode_example :
  JSString.trim ([160] ++ JSString.literal "Caf" ++ [233; 160; 49] ++ [8195; 8232; 65279])
  = JSString.literal "Caf" ++ [233; 160; 49].
Proof. reflexivity. Qed.

(** ** Object stores *)

Section StoreFacts.
Context {A : Type}.
Implicit Types (s : IDB.objectStore A) (l : list (Z * A)).

Lemma filter_keeps_all (p : Z * A -> bool) l :
  (forall kv, In kv l -> p kv = true) -> filter p l = l.
Proof.
  induction l as [|kv l IH]; intros H; simpl; [reflexivity|].
  rewrite (H kv (or_introl eq_refl)). f_equal. apply IH.
  intros kv' Hin. apply H. now right.
Qed.

Lemma lookup_none_keys k l :
  IDB.lookup k l = None -> forall kv, In kv l -> fst kv <> k.
Proof.
  induction l as [|[k' v] l IH]; simpl; intros Hl kv Hin; [contradiction|].
  destruct (Z.eqb_spec k k') as [->|Hne]; [discriminate|].
  destruct Hin as [<-|Hin]; simpl; [congruence|now apply IH].
Qed.

Lemma lookup_filter_out k l :
  IDB.lookup k (filter (fun kv => negb (fst kv =? k)) l) = None.
Proof.
  induction l as [|[k' v] l IH]; simpl; [reflexivity|].
  destruct (Z.eqb_spec k' k) as [->|Hne]; simpl; [exact IH|].
  destruct (Z.eqb_spec k k'); [congruence|exact IH].
Qed.

(** Deleting a key that the store does not hold leaves the store as it
    is. *)
Lemma delete_absent s k : IDB.get s k = None -> IDB.delete s k = s.
Proof.
  unfold IDB.get, IDB.delete. intros Hnone. destruct s as [recs gen idx]; simpl in *.
  f_equal. apply filter_keeps_all. intros kv Hin.
  apply negb_true_iff, Z.eqb_neq. now apply (lookup_none_keys k recs).
Qed.

Lemma get_delete s k : IDB.get (IDB.delete s k) k = None.
Proof. unfold IDB.get, IDB.delete; simpl. apply lookup_filter_out. Qed.

Lemma getAll_delete s k v :
  In v (IDB.getAll (IDB.delete s k)) -> In v (IDB.getAll s).
Proof.
  unfold IDB.getAll, IDB.delete; simpl. rewrite !in_map_iff.
  intros [kv [<- Hin]]. apply filter_In in Hin. exists kv. tauto.
Qed.

Lemma lookup_filter_other k k' l :
  k' <> k -> IDB.lookup k' (filter (fun kv => negb (fst kv =? k)) l) = IDB.lookup k' l.
Proof.
  intros Hne. induction l as [|[k0 v0] l IH]; simpl; [reflexivity|].
  destruct (Z.eqb_spec k0 k) as [->|Hne0]; simpl.
  - destruct (Z.eqb_spec k' k); [contradiction|exact IH].
  - destruct (k' =? k0); [reflexivity|exact IH].
Qed.

Lemma get_delete_other s k k' : k' <> k -> IDB.get (IDB.delete s k) k' = IDB.get s k'.
Proof. intros Hne. unfold IDB.get, IDB.delete; simpl. now apply lookup_filter_other. Qed.

(** A delete removes the records of its key and no other record. *)
Lemma records_delete s k kv :
  In kv (IDB.records (IDB.delete s k)) <-> In kv (IDB.records s) /\ fst kv <> k.
Proof.
  unfold IDB.delete; cbn [IDB.records]. rewrite filter_In, negb_true_iff, Z.eqb_neq. tauto.
Qed.

End StoreFacts.

(** ** The amount parser *)

Lemma round_half_up_nonneg m e : 0 <= m -> 0 <= JSNumber.round_half_up m e.
Proof.
  intros Hm. unfold JSNumber.round_half_up.
  destruct (0 <=? e) eqn:He.
  - apply Z.leb_le in He. apply Z.mul_nonneg_nonneg; [exact Hm|].
    apply Z.pow_nonneg; lia.
  - apply Z.leb_gt in He. apply Z.div_pos.
    + assert (0 < 2 ^ (- e)) by (apply Z.pow_pos_nonneg; lia). lia.
    + apply Z.pow_pos_nonneg; lia.
Qed.

Lemma parseAmount_nonneg v : 0 <= parseAmount v.
Proof.
  unfold parseAmount.
  destruct v as [s|s| |s m e]; simpl; try lia.
  destruct s; simpl; [lia|].
  apply round_half_up_nonneg. lia.
Qed.

Lemma parseAmount_rejects v :
  negative v = true \/ JSNumber.isFinite v = false -> parseAmount v = 0.
Proof.
  unfold parseAmount, negative.
  destruct v as [[]|[]| |[] m e]; simpl; intros [H|H]; try discriminate; reflexivity.
Qed.

Lemma falsy_empty s : JSString.falsy s = true <-> s = EmptyString.
Proof. destruct s; simpl; split; intros H; congruence. Qed.

Lemma empty_nil s : JSString.empty s = true <-> s = [].
Proof. destruct s; simpl; split; intros H; congruence. Qed.

(** ** Trimming *)

Lemma trimStart_head s :
  JSString.trimStart s = [] \/
  exists c t, JSString.trimStart s = c :: t /\ JSString.is_space c = false.
Proof.
  induction s as [|c s IH]; cbn [JSString.trimStart]; [now left|].
  destruct (JSString.is_space c) eqn:Hc; [exact IH|].
  right. now exists c, s.
Qed.

Lemma trimEnd_head c t :
  JSString.is_space c = false -> exists t', JSString.trimEnd (c :: t) = c :: t'.
Proof.
  intros Hc. cbn [JSString.trimEnd]. rewrite Hc. destruct (JSString.trimEnd t); eauto.
Qed.

Lemma trimEnd_idempotent s : JSString.trimEnd (JSString.trimEnd s) = JSString.trimEnd s.
Proof.
  induction s as [|c s IH]; [reflexivity|]. cbn [JSString.trimEnd].
  destruct (JSString.trimEnd s) as [|d u] eqn:Hu.
  - destruct (JSString.is_space c) eqn:Hc; [reflexivity|].
    cbn [JSString.trimEnd]. now rewrite Hc.
  - change (JSString.trimEnd (c :: d :: u)) with
      (match JSString.trimEnd (d :: u) with
       | [] => if JSString.is_space c then [] else [c]
       | t => c :: t
       end).
    now rewrite IH.
Qed.

(** Trimming a trimmed string changes nothing. *)
Lemma trim_idempotent s : JSString.trim (JSString.trim s) = JSString.trim s.
Proof.
  unfold JSString.trim.
  destruct (trimStart_head s) as [->|[c [t [-> Hc]]]]; [reflexivity|].
  destruct (trimEnd_head c t Hc) as [t' Ht]. rewrite Ht.
  cbn [JSString.trimStart]. rewrite Hc. rewrite <- Ht. apply trimEnd_idempotent.
Qed.

(** The white space that [trimStart] removes. *)
Lemma trimStart_prefix s :
  exists pre, s = pre ++ JSString.trimStart s /\ forallb JSString.is_space pre = true.
Proof.
  induction s as [|c s [pre [E H]]]; cbn [JSString.trimStart]; [now exists []|].
  destruct (JSString.is_space c) eqn:Hc.
  - exists (c :: pre). cbn [forallb app]. rewrite Hc, H. split; [now f_equal|reflexivity].
  - now exists [].
Qed.

(** The white space that [trimEnd] removes, and the end that it leaves. *)
Lemma trimEnd_suffix s :
  exists post,
    s = JSString.trimEnd s ++ post /\ forallb JSString.is_space post = true /\
    (JSString.trimEnd s = [] \/ JSString.is_space (last (JSString.trimEnd s) 0) = false).
Proof.
  induction s as [|c s [post [E [H L]]]]; cbn [JSString.trimEnd].
  - exists []. repeat split. now left.
  - destruct (JSString.trimEnd s) as [|d u] eqn:Hu.
    + destruct (JSString.is_space c) eqn:Hc.
      * exists (c :: post). cbn [forallb app]. rewrite Hc, H.
        split; [now rewrite E at 1|]. split; [reflexivity|now left].
      * exists post. split; [now rewrite E at 1|]. split; [exact H|]. right. exact Hc.
    + exists post. split; [now rewrite E at 1|]. split; [exact H|]. right.
      destruct L as [L|L]; [discriminate|]. exact L.
Qed.

Lemma trim_spec s :
  exists pre post,
    s = pre ++ JSString.trim s ++ post /\
    forallb JSString.is_space pre = true /\
    forallb JSString.is_space post = true /\
    (JSString.trim s = [] \/
     (JSString.is_space (hd 0 (JSString.trim s)) = false /\
      JSString.is_space (last (JSString.trim s) 0) = false)).
Proof.
  unfold JSString.trim.
  destruct (trimStart_prefix s) as [pre [E1 H1]].
  destruct (trimEnd_suffix (JSString.trimStart s)) as [post [E2 [H2 L]]].
  exists pre, post. split; [now rewrite <- E2|]. split; [exact H1|]. split; [exact H2|].
  destruct L as [L|L]; [now left|].
  destruct (trimStart_head s) as [E|[c [t [E Hc]]]].
  - left. now rewrite E.
  - right. split; [|exact L].
    rewrite E. destruct (trimEnd_head c t Hc) as [t' ->]. exact Hc.
Qed.

(** A string of white space only trims to the empty string, and only such
    a string does. *)
Lemma trim_nil s : JSString.trim s = [] <-> forallb JSString.is_space s = true.
Proof.
  split.
  - intros E. destruct (trim_spec s) as [pre [post [Es [H1 [H2 _]]]]].
    rewrite E in Es. rewrite Es. cbn [app]. rewrite forallb_app, H1, H2. reflexivity.
  - intros H. unfold JSString.trim.
    assert (Hs : JSString.trimStart s = []).
    { induction s as [|c s IH]; [reflexivity|]. cbn [forallb] in H.
      apply andb_true_iff in H. destruct H as [Hc H]. cbn [JSString.trimStart]. rewrite Hc.
      now apply IH. }
    now rewrite Hs.
Qed.

(** A trimmed name that is not empty neither starts nor ends with white
    space. *)
Lemma trim_ends s :
  JSString.trim s <> [] ->
  JSString.is_space (hd 0 (JSString.trim s)) = false /\
  JSString.is_space (last (JSString.trim s) 0) = false.
Proof.
  intros Hn. destruct (trim_spec s) as [_ [_ [_ [_ [_ [E|H]]]]]]; [contradiction|exact H].
Qed.

(** ** C7: validation of a create *)

(** [C7] For every create submission whose trimmed name is empty -- that
    is, whose name holds nothing but white space, the white space of
    [String.prototype.trim] (NO-BREAK SPACE and the other Unicode spaces
    included) -- or whose parsed amount is not strictly positive (zero
    included), [onAddTx] (and the legacy [onAddExpense]) returns before any
    storage request and leaves the whole world -- attachment store, record
    store, state -- as it was; the amount parser maps every negative and
    every non-finite Number to 0 and never yields a negative amount, and a
    create that does change the world puts a record with a strictly
    positive amount and a name that is not empty in the mirror. *)
Theorem C7_create_rejected_is_noop :
  (forall now f w,
      JSString.trim (Unified.f_name f) = [] \/ parseAmount (Unified.f_amount f) <= 0 ->
      Unified.onAddTx now f w = w) /\
  (forall LocalTZA now f w,
      JSString.trim (Legacy.f_name f) = [] \/ parseAmount (Legacy.f_amount f) <= 0 ->
      Legacy.onAddExpense LocalTZA now f w = w) /\
  (forall name, JSString.trim name = [] <-> forallb JSString.is_space name = true) /\
  (forall v, negative v = true \/ JSNumber.isFinite v = false -> parseAmount v = 0) /\
  (forall v, 0 <= parseAmount v) /\
  (forall now f w,
      Unified.onAddTx now f w <> w ->
      exists t, Unified.txs (Unified.st (Unified.onAddTx now f w)) = t :: Unified.txs (Unified.st w)
                /\ 0 < Unified.amount t /\ Unified.name t <> []).
Proof.
  split; [|split; [|split; [|split; [|split]]]].
  - intros now f w H. unfold Unified.onAddTx.
    replace (JSString.empty (JSString.trim (Unified.f_name f))
             || (parseAmount (Unified.f_amount f) <=? 0)) with true; [reflexivity|].
    symmetry. apply orb_true_iff. destruct H as [H|H].
    + left. now apply empty_nil.
    + right. now apply Z.leb_le.
  - intros tza now f w H. unfold Legacy.onAddExpense.
    replace (JSString.empty (JSString.trim (Legacy.f_name f))
             || (parseAmount (Legacy.f_amount f) <=? 0)) with true; [reflexivity|].
    symmetry. apply orb_true_iff. destruct H as [H|H].
    + left. now apply empty_nil.
    + right. now apply Z.leb_le.
  - exact trim_nil.
  - exact parseAmount_rejects.
  - exact parseAmount_nonneg.
  - intros now f w. unfold Unified.onAddTx.
    destruct (JSString.empty (JSString.trim (Unified.f_name f))
              || (parseAmount (Unified.f_amount f) <=? 0)) eqn:Hv.
    + intros H. now contradiction H.
    + intros _. apply orb_false_iff in Hv. destruct Hv as [Hn Hv]. apply Z.leb_gt in Hv.
      destruct (addAttachment now "document" (Unified.f_document f)
                  (addAttachment now "photo" (Unified.f_photo f) (Unified.db_attachments w, [])))
        as [atts refs].
      simpl. eexists. split; [reflexivity|]. simpl. split; [exact Hv|].
      intros E. apply empty_nil in E. congruence.
Qed.

(** A name of one NO-BREAK SPACE, an EM SPACE and a TAB with a valid amount
    and a receipt attached, and a blank name with amount 0: nothing is
    written; -5 and +Infinity parse to 0. *)
Lemma C7_witness :
  (JSString.trim (Unified.f_name spacesForm) = []
   \/ parseAmount (Unified.f_amount spacesForm) <= 0)
  /\ 0 < parseAmount (Unified.f_amount spacesForm)
  /\ Unified.onAddTx sampleNow spacesForm emptyUnified = emptyUnified
  /\ Unified.onAddTx sampleNow blankForm emptyUnified = emptyUnified
  /\ parseAmount (S754_finite true 5 0) = 0
  /\ parseAmount (S754_infinity false) = 0.
Proof.
  split; [left; reflexivity|].
  split; [reflexivity|].
  split; [apply (proj1 C7_create_rejected_is_noop); left; reflexivity|].
  split; [apply (proj1 C7_create_rejected_is_noop); right; discriminate|].
  split.
  - apply (proj1 (proj2 (proj2 (proj2 C7_create_rejected_is_noop)))). left. reflexivity.
  - apply (proj1 (proj2 (proj2 (proj2 C7_create_rejected_is_noop)))). right. reflexivity.
Defined.

(** A name of one NO-BREAK SPACE is rejected by every handler that
    validates a name: nothing is stored, nothing is thrown. *)
Example nbsp_name_is_rejected :
  Legacy.onAddExpense 0 sampleNow nbspForm emptyLegacy = emptyLegacy /\
  Legacy.updateExpense 0 sampleNow nbspEdit lunchEdit = Done lunchEdit /\
  Legacy.updateExpense 0 sampleNow nbspEdit staleEdit = Done staleEdit /\
  Unified.updateTx sampleNow nbspTxEdit staleEditTx = Unified.Returned.
Proof. repeat split. Qed.

(** White space at the ends of a name is not stored, whatever its kind. *)
Example stored_names_are_trimmed :
  map Legacy.name
    (IDB.getAll (Legacy.db_expenses (Legacy.onAddExpense 0 sampleNow cafeForm emptyLegacy)))
  = [JSString.literal "Cafe"] /\
  map Unified.name
    (IDB.getAll (Unified.db_transactions (Unified.onAddTx sampleNow cafeTxForm emptyUnified)))
  = [JSString.literal "Cafe"].
Proof. split; reflexivity. Qed.

(** ** C8: update and delete on a missing record *)

(** With nothing staged for edit, update returns at once. *)
Lemma updateExpense_unstaged LocalTZA now f w :
  staged (Legacy.editId (Legacy.st w)) = None ->
  Legacy.updateExpense LocalTZA now f w = Done w.
Proof. intros H. unfold Legacy.updateExpense. now rewrite H. Qed.

Lemma updateTx_unstaged now f w :
  staged (Unified.editId (Unified.st w)) = None ->
  Unified.updateTx now f w = Unified.Returned.
Proof. intros H. unfold Unified.updateTx. now rewrite H. Qed.

(** Deleting an id that neither the store nor the mirror holds changes
    neither the stores nor the records of the mirror. *)
Lemma deleteExpense_absent LocalTZA now id w :
  IDB.get (Legacy.db_expenses w) id = None ->
  (forall e, In e (Legacy.expenses (Legacy.st w)) -> Legacy.id e <> id) ->
  let w' := Legacy.deleteExpense LocalTZA now id w in
  Legacy.db_expenses w' = Legacy.db_expenses w /\
  Legacy.db_attachments w' = Legacy.db_attachments w /\
  Legacy.db_meta w' = Legacy.db_meta w /\
  Legacy.expenses (Legacy.st w') = Legacy.expenses (Legacy.st w) /\
  Legacy.income (Legacy.st w') = Legacy.income (Legacy.st w) /\
  Legacy.editId (Legacy.st w') = Legacy.editId (Legacy.st w).
Proof.
  intros Hget Hmirror. simpl.
  rewrite (delete_absent _ _ Hget).
  repeat split; try reflexivity.
  induction (Legacy.expenses (Legacy.st w)) as [|e l IH]; simpl; [reflexivity|].
  destruct (Z.eqb_spec (Legacy.id e) id) as [Heq|Hne].
  - exfalso. apply (Hmirror e); [now left|exact Heq].
  - simpl. f_equal. apply IH. intros e' Hin. apply Hmirror. now right.
Qed.

(** An update staged on an id that the store does not hold reads the
    fields of [undefined]: whatever the valid form and the world, it
    throws. *)
Lemma updateExpense_missing LocalTZA now f w editId :
  staged (Legacy.editId (Legacy.st w)) = Some editId ->
  JSString.trim (Legacy.editName f) <> [] ->
  0 < parseAmount (Legacy.editAmount f) ->
  IDB.get (Legacy.db_expenses w) editId = None ->
  Legacy.updateExpense LocalTZA now f w = TypeError.
Proof.
  intros Hs Hn Ha Hg. unfold Legacy.updateExpense. rewrite Hs.
  destruct (JSString.empty (JSString.trim (Legacy.editName f))) eqn:Hf.
  - apply empty_nil in Hf. contradiction.
  - simpl. destruct (Z.leb_spec (parseAmount (Legacy.editAmount f)) 0); [lia|].
    now rewrite Hg.
Qed.

(** [C8] The code at the failing input: the edit dialog is staged on id 7,
    the store holds no record 7, the form is valid; [updateExpense] throws
    instead of completing as a no-op, and so does [updateTx] of the unified
    variant. *)
Theorem C8_update_missing_id_throws :
  IDB.get (Legacy.db_expenses staleEdit) 7 = None /\
  Legacy.updateExpense 0 sampleNow renameForm staleEdit = TypeError /\
  IDB.get (Unified.db_transactions staleEditTx) 7 = None /\
  Unified.updateTx sampleNow renameTxForm staleEditTx = Unified.Thrown.
Proof. vm_compute. repeat split. Qed.

(** ** C9: delete leaves the attachments *)

(** [C9] [deleteExpense] removes the record with the given id, and
    nothing else: afterwards the record is not found by key and is in no
    listing, every record of another id is in the store and in the mirror
    exactly when it was there before and reads as before, and the
    attachment store is as it was, so every attachment reference resolves
    to what it resolved to before and the attachments of the deleted record
    stay retrievable by their stored ids.  In the scenario of an expense
    with two attachments beside a second expense, the listing holds the
    second expense alone after the delete and both attachments are still
    retrieved. *)
Theorem C9_delete_keeps_attachments :
  (forall LocalTZA now id w,
      let w' := Legacy.deleteExpense LocalTZA now id w in
      IDB.get (Legacy.db_expenses w') id = None /\
      (forall kv, In kv (IDB.records (Legacy.db_expenses w')) -> fst kv <> id) /\
      (forall e, In e (Legacy.expenses (Legacy.st w')) -> Legacy.id e <> id) /\
      (forall k, k <> id ->
                 IDB.get (Legacy.db_expenses w') k = IDB.get (Legacy.db_expenses w) k) /\
      (forall kv, fst kv <> id ->
                  (In kv (IDB.records (Legacy.db_expenses w'))
                   <-> In kv (IDB.records (Legacy.db_expenses w)))) /\
      (forall e, Legacy.id e <> id ->
                 (In e (Legacy.expenses (Legacy.st w'))
                  <-> In e (Legacy.expenses (Legacy.st w)))) /\
      (forall e, In e (IDB.getAll (Legacy.db_expenses w')) ->
                 In e (IDB.getAll (Legacy.db_expenses w))) /\
      Legacy.db_attachments w' = Legacy.db_attachments w /\
      (forall ref, Legacy.openAttachment ref w' = Legacy.openAttachment ref w) /\
      (forall e ref a,
          IDB.get (Legacy.db_expenses w) id = Some e ->
          In ref (Legacy.attachments e) ->
          Legacy.openAttachment ref w = Some a ->
          Legacy.openAttachment ref w' = Some a)) /\
  (let w' := Legacy.deleteExpense 0 sampleNow 1 twoExpenses in
   map Legacy.id (IDB.getAll (Legacy.db_expenses twoExpenses)) = [1; 2] /\
   map (fun e => map storeId (Legacy.attachments e)) (IDB.getAll (Legacy.db_expenses twoExpenses))
   = [[1; 2]; []] /\
   map Legacy.id (IDB.getAll (Legacy.db_expenses w')) = [2] /\
   map Legacy.id (Legacy.expenses (Legacy.st w')) = [2] /\
   IDB.get (Legacy.db_expenses w') 2 = IDB.get (Legacy.db_expenses twoExpenses) 2 /\
   IDB.get (Legacy.db_attachments w') 1 = Some (attachmentOf sampleNow receipt) /\
   IDB.get (Legacy.db_attachments w') 2 = Some (attachmentOf sampleNow invoice)).
Proof.
  split.
  - intros tza now id w.
    cbn [Legacy.deleteExpense Legacy.render Legacy.db_expenses Legacy.db_attachments Legacy.st
           Legacy.computeAndRender fst Legacy.expenses].
    split; [apply get_delete|].
    split; [intros kv Hin; apply records_delete in Hin; tauto|].
    split.
    { intros e Hin. apply filter_In in Hin. destruct Hin as [_ Hin].
      apply negb_true_iff, Z.eqb_neq in Hin. exact Hin. }
    split; [intros k Hk; now apply get_delete_other|].
    split; [intros kv Hkv; rewrite records_delete; tauto|].
    split.
    { intros e He. rewrite filter_In, negb_true_iff, Z.eqb_neq. tauto. }
    split; [intros e; apply getAll_delete|].
    split; [reflexivity|]. split; [reflexivity|].
    intros e ref a _ _ Hopen. exact Hopen.
  - vm_compute. repeat split.
Qed.

(** ** C5: opening the unified database *)

Lemma dbp_open_version o db : Unified.dbp_open o = Some db -> Unified.version db = 1.
Proof.
  unfold Unified.dbp_open.
  destruct (Unified.version _ <? 1) eqn:H1; [intros [= <-]; reflexivity|].
  destruct (Unified.version _ =? 1) eqn:H2; [|discriminate].
  intros [= <-]. now apply Z.eqb_eq.
Qed.

(** The upgrade as the specification states it fails: the legacy database
    holds an expense, and after the unified application has opened its
    database the listing of transactions is empty. *)
Lemma C5_upgrade_carries_nothing :
  exists o', open_unified legacyOrigin = Some o' /\
             legacy_expenses legacyOrigin <> [] /\
             unified_listAll o' = [] /\
             ~ upgrade_preserves legacyOrigin o'.
Proof.
  eexists. split; [reflexivity|]. split; [vm_compute; discriminate|].
  split; [reflexivity|].
  intros [Hexp _].
  destruct (legacy_expenses legacyOrigin) as [|e l] eqn:He; [vm_compute in He; discriminate|].
  destruct (Hexp e (or_introl eq_refl)) as [t [Hin _]]. exact Hin.
Qed.

(** [C5] (amended) Opening the unified database creates the separate
    database [gastosDB_v2] when it does not exist yet: the open succeeds
    and leaves [gastosDB_v2] at version 1 with an empty [transactions]
    store (indexes [by_date], [by_name], [by_type]) and an empty
    [attachments] store, so nothing of the legacy content is listed by the
    unified application.  Every successful open leaves [gastosDB_v2] at
    version 1 with both stores, keeps the stores that it already had, and
    touches nothing else: the legacy database [gastosDB], with every
    expense record, every attachment and the income scalar, stays as it
    was; opening again changes nothing.  The open fails only on a stored
    version above 1. *)
Theorem C5_open_unified_separate_database (o : indexedDB) :
  (gastosDB_v2 o = None ->
   open_unified o
   = Some {| gastosDB := gastosDB o;
             gastosDB_v2 :=
               Some {| Unified.version := 1;
                       Unified.transactionsStore :=
                         Some (IDB.createObjectStore ["by_date"; "by_name"; "by_type"]%string);
                       Unified.attachmentsStore := Some (IDB.createObjectStore []) |} |}) /\
  (forall o', open_unified o = Some o' ->
     gastosDB o' = gastosDB o /\
     legacy_expenses o' = legacy_expenses o /\
     legacy_attachments o' = legacy_attachments o /\
     (exists db,
         gastosDB_v2 o' = Some db /\ Unified.version db = 1 /\
         (forall db0, gastosDB_v2 o = Some db0 ->
            (forall s, Unified.transactionsStore db0 = Some s ->
                       Unified.transactionsStore db = Some s) /\
            (forall s, Unified.attachmentsStore db0 = Some s ->
                       Unified.attachmentsStore db = Some s) /\
            (Unified.version db0 < 1 ->
             Unified.transactionsStore db <> None /\ Unified.attachmentsStore db <> None) /\
            (Unified.version db0 = 1 -> db = db0))) /\
     (gastosDB_v2 o = None -> unified_listAll o' = [] /\ unified_attachments o' = []) /\
     open_unified o' = Some o') /\
  (open_unified o = None <-> exists db, gastosDB_v2 o = Some db /\ 1 < Unified.version db).
Proof.
  split; [intros Hnone; unfold open_unified; rewrite Hnone; reflexivity|]. split.
  - intros o'. unfold open_unified.
    destruct (Unified.dbp_open (gastosDB_v2 o)) as [db|] eqn:Hopen; [|discriminate].
    intros [= <-]. cbn [gastosDB gastosDB_v2].
    split; [reflexivity|]. split; [reflexivity|]. split; [reflexivity|].
    pose proof (dbp_open_version _ _ Hopen) as Hv.
    split; [|split].
    + exists db. split; [reflexivity|]. split; [exact Hv|].
      intros db0 H0. rewrite H0 in Hopen. unfold Unified.dbp_open in Hopen.
      destruct (Z.ltb_spec (Unified.version db0) 1) as [Hlt|Hge].
      * injection Hopen as <-. cbn [Unified.onupgradeneeded Unified.transactionsStore
                                      Unified.attachmentsStore].
        split; [intros s ->; reflexivity|]. split; [intros s ->; reflexivity|].
        split; [|lia]. intros _.
        destruct (Unified.transactionsStore db0); destruct (Unified.attachmentsStore db0);
          split; discriminate.
      * destruct (Z.eqb_spec (Unified.version db0) 1) as [Heq|Hne]; [|discriminate].
        injection Hopen as <-.
        split; [tauto|]. split; [tauto|]. split; [lia|reflexivity].
    + intros Hnone. rewrite Hnone in Hopen. vm_compute in Hopen. injection Hopen as <-.
      split; reflexivity.
    + unfold Unified.dbp_open. rewrite Hv. reflexivity.
  - unfold open_unified, Unified.dbp_open.
    destruct (gastosDB_v2 o) as [db0|].
    + destruct (Z.ltb_spec (Unified.version db0) 1) as [Hlt|Hge].
      * split; [discriminate|]. intros [db [[= <-] H]]. lia.
      * destruct (Z.eqb_spec (Unified.version db0) 1) as [Heq|Hne].
        -- split; [discriminate|]. intros [db [[= <-] H]]. lia.
        -- split; [|reflexivity]. intros _. exists db0. split; [reflexivity|lia].
    + split; [discriminate|]. intros [db [H _]]. discriminate.
Qed.

(** On an origin that holds only the legacy database, the open creates
    [gastosDB_v2] with empty stores and lists no transaction. *)
Lemma C5_witness :
  gastosDB_v2 legacyOrigin = None /\
  exists o', open_unified legacyOrigin = Some o' /\
             gastosDB o' = gastosDB legacyOrigin /\
             gastosDB_v2 o' = Some (Unified.onupgradeneeded Unified.noDatabase) /\
             unified_listAll o' = [].
Proof.
  assert (Hnone : gastosDB_v2 legacyOrigin = None) by reflexivity.
  split; [exact Hnone|].
  pose proof (proj1 (C5_open_unified_separate_database legacyOrigin) Hnone) as H.
  eexists. split; [exact H|]. repeat split.
Defined.

(** ** Strings *)

Lemma ascii_compare_refl c : Ascii.compare c c = Eq.
Proof. unfold Ascii.compare. apply N.compare_refl. Qed.

Lemma compare_refl s : String.compare s s = Eq.
Proof. induction s as [|c s IH]; simpl; [reflexivity|]. now rewrite ascii_compare_refl. Qed.

Lemma compare_eq s1 s2 : String.compare s1 s2 = Eq <-> s1 = s2.
Proof. split; [apply String.compare_eq_iff|intros ->; apply compare_refl]. Qed.

Lemma compare_gt_lt s1 s2 : String.compare s1 s2 = Gt <-> String.compare s2 s1 = Lt.
Proof.
  rewrite (String.compare_antisym s1 s2).
  destruct (String.compare s2 s1); simpl; split; congruence.
Qed.

Lemma compare_lt_trans s1 : forall s2 s3,
  String.compare s1 s2 = Lt -> String.compare s2 s3 = Lt -> String.compare s1 s3 = Lt.
Proof.
  induction s1 as [|c1 s1 IH]; intros [|c2 s2] [|c3 s3]; simpl; try congruence.
  unfold Ascii.compare.
  destruct (N.compare_spec (N_of_ascii c1) (N_of_ascii c2)) as [E12|L12|G12];
    destruct (N.compare_spec (N_of_ascii c2) (N_of_ascii c3)) as [E23|L23|G23];
    try congruence; intros H12 H23.
  - rewrite E12, E23, N.compare_refl. eauto.
  - rewrite E12. now apply N.compare_lt_iff in L23 as ->.
  - rewrite <- E23. now apply N.compare_lt_iff in L12 as ->.
  - assert (L13 : (N_of_ascii c1 < N_of_ascii c3)%N) by lia.
    now apply N.compare_lt_iff in L13 as ->.
Qed.

Lemma localeCompare_sign a b :
  (JSString.localeCompare a b = 0 <-> a = b) /\
  (JSString.localeCompare a b = -1 <-> String.compare a b = Lt) /\
  (JSString.localeCompare a b = 1 <-> String.compare a b = Gt).
Proof.
  unfold JSString.localeCompare. rewrite <- compare_eq.
  destruct (String.compare a b); repeat split; intros; congruence || lia.
Qed.

(** ** Sorting *)

Section SortFacts.
Context {A : Type}.
Variable compareFn : A -> A -> Z.
Hypothesis compareFn_total : forall a b, 0 < compareFn a b -> compareFn b a <= 0.

Lemma insert_perm x l : Permutation (x :: l) (JSArray.insert compareFn x l).
Proof.
  induction l as [|y l IH]; simpl; [reflexivity|].
  destruct (compareFn x y <=? 0); [reflexivity|].
  rewrite perm_swap. now constructor.
Qed.

Lemma sort_perm l : Permutation l (JSArray.sort compareFn l).
Proof.
  induction l as [|x l IH]; simpl; [constructor|].
  rewrite <- insert_perm. now constructor.
Qed.

Lemma insert_sorted x l :
  Sorted (precedes compareFn) l -> Sorted (precedes compareFn) (JSArray.insert compareFn x l).
Proof.
  unfold precedes.
  induction 1 as [|y l Hs IH Hhd]; simpl; [repeat constructor|].
  destruct (Z.leb_spec (compareFn x y) 0) as [Hle|Hgt].
  - constructor; [now constructor|]. now constructor.
  - constructor; [exact IH|].
    destruct l as [|z l]; simpl.
    + constructor. now apply compareFn_total.
    + inversion Hhd; subst.
      destruct (compareFn x z <=? 0); constructor; [now apply compareFn_total|assumption].
Qed.

Lemma sort_sorted l : Sorted (precedes compareFn) (JSArray.sort compareFn l).
Proof. induction l as [|x l IH]; simpl; [constructor|now apply insert_sorted]. Qed.

End SortFacts.

Section ByDateDesc.
Context {A : Type}.
Variables (date : A -> string) (id : A -> Z).

Lemma byDateDesc_descending a b :
  byDateDesc date id a b <= 0 <-> descending date id a b.
Proof.
  unfold byDateDesc, descending.
  destruct (localeCompare_sign (date b) (date a)) as [H0 [Hlt Hgt]].
  rewrite compare_gt_lt.
  unfold JSString.localeCompare in *.
  destruct (String.compare (date b) (date a)) eqn:Hc; simpl.
  - assert (date b = date a) by (now apply H0).
    split; [intros; right; split; [congruence|lia]|].
    intros [?|[_ ?]]; [discriminate|lia].
  - split; [now left|lia].
  - split; [lia|]. intros [?|[Heq _]]; [discriminate|].
    rewrite Heq, compare_refl in Hc. discriminate.
Qed.

Lemma byDateDesc_total a b : 0 < byDateDesc date id a b -> byDateDesc date id b a <= 0.
Proof.
  unfold byDateDesc, JSString.localeCompare.
  rewrite (String.compare_antisym (date a) (date b)).
  destruct (String.compare (date b) (date a)); simpl; lia.
Qed.

Lemma descending_trans a b c :
  descending date id a b -> descending date id b c -> descending date id a c.
Proof.
  unfold descending. rewrite !compare_gt_lt.
  intros [H1|[E1 I1]] [H2|[E2 I2]].
  - left. eapply compare_lt_trans; eassumption.
  - left. now rewrite <- E2.
  - left. now rewrite E1.
  - right. split; [congruence|lia].
Qed.

Lemma sort_descending l : Sorted (descending date id) (JSArray.sort (byDateDesc date id) l).
Proof.
  pose proof (sort_sorted (byDateDesc date id) byDateDesc_total l) as H.
  induction H as [|x l' Hs IH Hhd]; constructor; [exact IH|].
  destruct Hhd; constructor. now apply byDateDesc_descending.
Qed.

Lemma filter_descending (p : A -> bool) l :
  Sorted (descending date id) l -> Sorted (descending date id) (filter p l).
Proof.
  intros Hs. apply StronglySorted_Sorted.
  apply Sorted_StronglySorted in Hs; [|exact descending_trans].
  induction Hs as [|x l Hs IH Hall]; simpl; [constructor|].
  destruct (p x); [|exact IH].
  constructor; [exact IH|].
  rewrite Forall_forall in *. intros y Hy. apply filter_In in Hy. now apply Hall.
Qed.

End ByDateDesc.

(** ** C2: order of the mirror *)

(** A load leaves the mirror sorted, whatever the store returns. *)
Lemma loadAll_sorted w : mirrorSorted (Unified.txs (Unified.st (Unified.loadAll w))).
Proof. apply sort_descending. Qed.

Lemma legacy_loadAll_sorted LocalTZA now w :
  legacyMirrorSorted (Legacy.expenses (Legacy.st (Legacy.loadAll LocalTZA now w))).
Proof. apply sort_descending. Qed.

(** An update that runs to its end leaves the mirror sorted. *)
Lemma updateExpense_sorted LocalTZA now f w w' :
  legacyMirrorSorted (Legacy.expenses (Legacy.st w)) ->
  Legacy.updateExpense LocalTZA now f w = Done w' ->
  legacyMirrorSorted (Legacy.expenses (Legacy.st w')).
Proof.
  intros Hs. unfold Legacy.updateExpense.
  destruct (staged _); [|intros [= <-]; exact Hs].
  destruct (_ || _); [intros [= <-]; exact Hs|].
  destruct (IDB.get _ _); [|discriminate].
  intros [= <-]. apply sort_descending.
Qed.

(** A delete keeps a sorted mirror sorted. *)
Lemma deleteExpense_sorted LocalTZA now id w :
  legacyMirrorSorted (Legacy.expenses (Legacy.st w)) ->
  legacyMirrorSorted (Legacy.expenses (Legacy.st (Legacy.deleteExpense LocalTZA now id w))).
Proof. intros Hs. now apply filter_descending. Qed.

(** A list whose first element does not precede its second is not
    sorted. *)
Lemma unsorted_head {A : Type} (date : A -> string) (id : A -> Z) l a b rest :
  l = a :: b :: rest -> ~ descending date id a b -> ~ Sorted (descending date id) l.
Proof.
  intros -> Hab Hs. apply Hab.
  inversion Hs as [|? ? _ Hhd]; subst. now inversion Hhd.
Qed.

(** A create dated before the first record of the mirror leaves the mirror
    unsorted, whatever the rest of the form and of the world. *)
Lemma onAddTx_out_of_order now f w t rest :
  Unified.txs (Unified.st w) = t :: rest ->
  JSString.trim (Unified.f_name f) <> [] ->
  0 < parseAmount (Unified.f_amount f) ->
  Unified.f_date f <> EmptyString ->
  String.compare (Unified.f_date f) (Unified.date t) = Lt ->
  ~ mirrorSorted (Unified.txs (Unified.st (Unified.onAddTx now f w))).
Proof.
  intros Hw Hn Ha Hd Hlt. unfold Unified.onAddTx.
  destruct (JSString.empty (JSString.trim (Unified.f_name f))) eqn:Hf;
    [apply empty_nil in Hf; contradiction|].
  destruct (Z.leb_spec (parseAmount (Unified.f_amount f)) 0) as [|_]; [lia|].
  destruct (JSString.falsy (Unified.f_date f)) eqn:Hfd;
    [apply falsy_empty in Hfd; contradiction|].
  cbn [orb].
  destruct (addAttachment now "document" (Unified.f_document f)
              (addAttachment now "photo" (Unified.f_photo f) (Unified.db_attachments w, [])))
    as [atts refs].
  cbn [IDB.add Unified.st Unified.txs]. rewrite Hw.
  eapply unsorted_head; [reflexivity|].
  unfold descending. cbn [Unified.date]. intros [Hgt|[Heq _]].
  - rewrite Hgt in Hlt. discriminate.
  - rewrite Heq, compare_refl in Hlt. discriminate.
Qed.

(** [C2] The code at the failing input: the mirror is loaded (sorted) with
    one transaction dated 2024-03-10; a create dated 2024-03-01 puts the new
    record in front of it, and the mirror is no longer sorted by date
    descending.  The legacy [onAddExpense] does the same. *)
Theorem C2_create_breaks_order :
  mirrorSorted (Unified.txs (Unified.st loadedWorld)) /\
  map Unified.date
    (Unified.txs (Unified.st (Unified.onAddTx sampleNow (marchForm "2024-03-01") loadedWorld)))
  = ["2024-03-01"; "2024-03-10"]%string /\
  ~ mirrorSorted
      (Unified.txs (Unified.st (Unified.onAddTx sampleNow (marchForm "2024-03-01") loadedWorld))) /\
  legacyMirrorSorted (Legacy.expenses (Legacy.st lunchWorld)) /\
  ~ legacyMirrorSorted
      (Legacy.expenses (Legacy.st (Legacy.onAddExpense 0 sampleNow earlierLunchForm lunchWorld))).
Proof.
  split; [apply loadAll_sorted|].
  split; [reflexivity|].
  split; [|split].
  - eapply unsorted_head; [vm_compute; reflexivity|].
    intros [Hd|[Hd _]]; vm_compute in Hd; discriminate.
  - assert (E : Legacy.expenses (Legacy.st lunchWorld)
                = JSArray.sort Legacy.compareFn (Legacy.expenses (Legacy.st lunchWorld)))
      by reflexivity.
    unfold legacyMirrorSorted. rewrite E. apply sort_descending.
  - eapply unsorted_head; [vm_compute; reflexivity|].
    intros [Hd|[Hd _]]; vm_compute in Hd; discriminate.
Qed.

(** ** Maps *)

Lemma map_get_set_same m k v : JSMap.get (JSMap.set m k v) k = Some v.
Proof.
  induction m as [|[k' v'] m IH]; simpl.
  - now rewrite String.eqb_refl.
  - destruct (String.eqb_spec k k') as [->|Hne]; simpl.
    + now rewrite String.eqb_refl.
    + destruct (String.eqb_spec k k'); [contradiction|exact IH].
Qed.

Lemma map_get_set_other m k v k' : k <> k' -> JSMap.get (JSMap.set m k v) k' = JSMap.get m k'.
Proof.
  intros Hne. induction m as [|[k0 v0] m IH]; simpl.
  - destruct (String.eqb_spec k' k); [congruence|reflexivity].
  - destruct (String.eqb_spec k k0) as [->|Hne0]; simpl.
    + destruct (String.eqb_spec k' k0); [congruence|reflexivity].
    + now rewrite IH.
Qed.

Lemma map_set_keys m k v :
  NoDup (map fst m) ->
  NoDup (map fst (JSMap.set m k v)) /\
  (forall k', In k' (map fst (JSMap.set m k v)) <-> k' = k \/ In k' (map fst m)).
Proof.
  induction m as [|[k0 v0] m IH]; simpl; intros Hnd.
  - split; [repeat constructor; simpl; tauto|]. intros k'. intuition congruence.
  - inversion Hnd as [|? ? Hnotin Hnd']; subst.
    destruct (String.eqb_spec k k0) as [->|Hne]; simpl.
    + split; [exact Hnd|]. intros k'. intuition congruence.
    + destruct (IH Hnd') as [IH1 IH2]. split.
      * constructor; [|exact IH1]. rewrite IH2. intros [H|H]; congruence.
      * intros k'. rewrite IH2. intuition congruence.
Qed.

Lemma map_in_get m k v : NoDup (map fst m) -> (In (k, v) m <-> JSMap.get m k = Some v).
Proof.
  induction m as [|[k0 v0] m IH]; simpl; intros Hnd; [split; [tauto|discriminate]|].
  inversion Hnd as [|? ? Hnotin Hnd']; subst.
  destruct (String.eqb_spec k k0) as [->|Hne].
  - split.
    + intros [H|H]; [congruence|]. exfalso. apply Hnotin.
      change k0 with (fst (k0, v)). now apply in_map.
    + intros [= ->]. now left.
  - rewrite <- (IH Hnd'). split; [|now right]. intros [H|H]; [congruence|exact H].
Qed.

(** ** Sums *)

Lemma fold_sum_shift {A : Type} (f : A -> Z) l a :
  fold_left (fun s t => s + f t) l a = a + fold_left (fun s t => s + f t) l 0.
Proof.
  revert a. induction l as [|x l IH]; intros a; simpl; [lia|].
  rewrite (IH (a + f x)), (IH (f x)). lia.
Qed.

Lemma fold_sum_cons {A : Type} (f : A -> Z) x l :
  fold_left (fun s t => s + f t) (x :: l) 0 = f x + fold_left (fun s t => s + f t) l 0.
Proof. simpl. now rewrite fold_sum_shift. Qed.

(** A sum of non-negative weights bounds the sum over any part of the
    list. *)
Lemma fold_sum_filter {A : Type} (f : A -> Z) (p : A -> bool) l :
  Forall (fun t => 0 <= f t) l ->
  0 <= fold_left (fun s t => s + f t) (filter p l) 0
  <= fold_left (fun s t => s + f t) l 0.
Proof.
  induction 1 as [|x l Hx Hl IH]; [simpl; lia|].
  rewrite fold_sum_cons. simpl. destruct (p x); rewrite ?fold_sum_cons; lia.
Qed.

Lemma sumOn_cons {A : Type} (date : A -> string) (weight : A -> Z) d t l :
  sumOn date weight d (t :: l)
  = (if String.eqb (date t) d then weight t else 0) + sumOn date weight d l.
Proof.
  unfold sumOn. simpl. destruct (String.eqb (date t) d); [now rewrite fold_sum_cons|lia].
Qed.

(** ** Grouping by date *)

Section GroupByDate.
Context {A : Type}.
Variables (date : A -> string) (weight : A -> Z).

Lemma group_fold_get d : forall l m,
  JSMap.get
    (fold_left (fun map t => JSMap.set map (date t) (JSMap.getOrZero map (date t) + weight t))
       l m) d =
  match JSMap.get m d with
  | Some v => Some (v + sumOn date weight d l)
  | None =>
      if existsb (fun t => String.eqb (date t) d) l
      then Some (sumOn date weight d l) else None
  end.
Proof.
  induction l as [|t l IH]; intros m; simpl.
  - destruct (JSMap.get m d); [f_equal; unfold sumOn; simpl; lia | reflexivity].
  - rewrite IH, sumOn_cons.
    destruct (String.eqb_spec (date t) d) as [->|Hne]; simpl.
    + rewrite map_get_set_same. unfold JSMap.getOrZero.
      destruct (JSMap.get m d); f_equal; lia.
    + rewrite (map_get_set_other _ _ _ _ Hne). reflexivity.
Qed.

Lemma group_fold_nodup : forall l m,
  NoDup (map fst m) ->
  NoDup (map fst
           (fold_left
              (fun map t => JSMap.set map (date t) (JSMap.getOrZero map (date t) + weight t))
              l m)).
Proof.
  induction l as [|t l IH]; intros m Hnd; simpl; [exact Hnd|].
  apply IH. now apply map_set_keys.
Qed.

Lemma groupByDateWith_nodup l : NoDup (map fst (groupByDateWith date weight l)).
Proof.
  eapply Permutation_NoDup; [apply Permutation_map, sort_perm|].
  apply group_fold_nodup. constructor.
Qed.

(** The points of the grouping: one for every date of the list, holding
    the sum of the weights of that date. *)
Lemma groupByDateWith_point l d v :
  In (d, v) (groupByDateWith date weight l) <->
  (exists t, In t l /\ date t = d) /\ v = sumOn date weight d l.
Proof.
  unfold groupByDateWith.
  rewrite <- (Permutation_in' (eq_refl (d, v)) (sort_perm byKeyAsc _)).
  rewrite map_in_get by (apply group_fold_nodup; constructor).
  rewrite group_fold_get. simpl.
  assert (Hex : existsb (fun t => String.eqb (date t) d) l = true
                <-> exists t, In t l /\ date t = d).
  { rewrite existsb_exists.
    split; intros [t [Hin H]]; exists t; split; trivial; now apply String.eqb_eq. }
  rewrite <- Hex.
  destruct (existsb (fun t => String.eqb (date t) d) l); split.
  - intros [= <-]. now split.
  - intros [_ ->]. reflexivity.
  - discriminate.
  - intros [H _]. discriminate.
Qed.

Lemma byKeyAsc_total a b : 0 < byKeyAsc a b -> byKeyAsc b a <= 0.
Proof.
  unfold byKeyAsc, JSString.localeCompare.
  rewrite (String.compare_antisym (fst a) (fst b)).
  destruct (String.compare (fst b) (fst a)); simpl; lia.
Qed.

Lemma groupByDateWith_ascending l : Sorted ascending (groupByDateWith date weight l).
Proof.
  pose proof (groupByDateWith_nodup l) as Hnd.
  pose proof (sort_sorted byKeyAsc byKeyAsc_total
                (fold_left
                   (fun map t => JSMap.set map (date t) (JSMap.getOrZero map (date t) + weight t))
                   l [])) as Hs.
  fold (groupByDateWith date weight l) in Hs.
  induction Hs as [|a l' Hs IH Hhd]; constructor.
  - apply IH. simpl in Hnd. now inversion Hnd.
  - destruct Hhd as [|b l'' Hab]; constructor.
    unfold ascending. unfold precedes, byKeyAsc, JSString.localeCompare in Hab.
    destruct (String.compare (fst a) (fst b)) eqn:Hc; [|reflexivity|lia].
    apply compare_eq in Hc. simpl in Hnd. inversion Hnd as [|? ? Hnotin _]; subst.
    exfalso. apply Hnotin. simpl. left. congruence.
Qed.

(** With non-negative weights every point lies between 0 and the sum of
    all the weights. *)
Lemma groupByDateWith_bounds l d v :
  Forall (fun t => 0 <= weight t) l ->
  In (d, v) (groupByDateWith date weight l) ->
  0 <= v <= fold_left (fun s t => s + weight t) l 0.
Proof.
  intros Hpos Hin. apply groupByDateWith_point in Hin. destruct Hin as [_ ->].
  unfold sumOn. now apply fold_sum_filter.
Qed.

End GroupByDate.

Lemma sliceLast_suffix {A : Type} n (l : list A) :
  (List.length (JSArray.sliceLast n l) <= n)%nat /\
  (exists older, l = older ++ JSArray.sliceLast n l) /\
  ((List.length l <= n)%nat -> JSArray.sliceLast n l = l).
Proof.
  unfold JSArray.sliceLast. split; [|split].
  - rewrite length_skipn. lia.
  - exists (firstn (List.length l - n) l). now rewrite firstn_skipn.
  - intros H. replace (List.length l - n)%nat with O by lia. reflexivity.
Qed.

(** ** The calendar *)

Lemma leapDay_range y : 0 <= JSDate.leapDay y <= 1.
Proof. unfold JSDate.leapDay. destruct (JSDate.InLeapYear y); lia. Qed.

Lemma DayFromYear_succ y :
  JSDate.DayFromYear (y + 1) = JSDate.DayFromYear y + 365 + JSDate.leapDay y.
Proof.
  unfold JSDate.DayFromYear, JSDate.leapDay, JSDate.InLeapYear.
  destruct (Z.eqb_spec (y mod 4) 0); destruct (Z.eqb_spec (y mod 100) 0);
    destruct (Z.eqb_spec (y mod 400) 0); cbn [andb orb negb]; divlia.
Qed.

Lemma YearFromDay_unique d y :
  JSDate.DayFromYear y <= d < JSDate.DayFromYear (y + 1) -> JSDate.YearFromDay d = y.
Proof.
  unfold JSDate.YearFromDay, JSDate.DayFromYear. intros H.
  repeat match goal with |- context [if ?b then _ else _] => destruct b eqn:? end; divlia.
Qed.

Lemma YearFromDay_bounds d :
  JSDate.DayFromYear (JSDate.YearFromDay d) <= d
  < JSDate.DayFromYear (JSDate.YearFromDay d + 1).
Proof.
  unfold JSDate.YearFromDay, JSDate.DayFromYear.
  repeat match goal with |- context [if ?b then _ else _] => destruct b eqn:? end; divlia.
Qed.

Lemma DaysInMonth_range y m : 0 <= m <= 11 -> 28 <= JSDate.DaysInMonth y m <= 31.
Proof.
  intros Hm. pose proof (leapDay_range y).
  month_split Hm; month_simpl; lia.
Qed.

Lemma MakeDay_in_year y m k :
  0 <= m <= 11 ->
  JSDate.MakeDay y m k = JSDate.DayFromYear y + JSDate.monthStart y m + k - 1.
Proof.
  intros Hm. unfold JSDate.MakeDay.
  replace (m / 12) with 0 by divlia. replace (m mod 12) with m by divlia.
  now rewrite Z.add_0_r.
Qed.

(** Day 0 of the next month is the last day of a month. *)
Lemma MakeDay_last y m :
  0 <= m <= 11 ->
  JSDate.MakeDay y (m + 1) 0 = JSDate.MakeDay y m (JSDate.DaysInMonth y m).
Proof.
  intros Hm. rewrite (MakeDay_in_year y m) by exact Hm.
  pose proof (leapDay_range y) as Hl.
  destruct (Z.eq_dec m 11) as [->|Hne].
  - unfold JSDate.MakeDay.
    change ((11 + 1) / 12) with 1. change ((11 + 1) mod 12) with 0.
    rewrite DayFromYear_succ. cbn [JSDate.monthStart JSDate.DaysInMonth]. lia.
  - rewrite MakeDay_in_year by lia.
    month_split Hm; try lia; month_simpl; lia.
Qed.

(** From fields to day number and back. *)
Lemma civil_of_MakeDay y m k :
  0 <= m <= 11 -> 1 <= k <= JSDate.DaysInMonth y m ->
  JSDate.YearFromDay (JSDate.MakeDay y m k) = y /\
  JSDate.MonthFromDay (JSDate.MakeDay y m k) = m /\
  JSDate.DateFromDay (JSDate.MakeDay y m k) = k.
Proof.
  intros Hm Hk. rewrite MakeDay_in_year by exact Hm.
  pose proof (leapDay_range y) as Hl.
  assert (Hy : JSDate.YearFromDay (JSDate.DayFromYear y + JSDate.monthStart y m + k - 1) = y).
  { apply YearFromDay_unique. rewrite DayFromYear_succ.
    month_split Hm; month_simpl; lia. }
  assert (Hmo : JSDate.MonthFromDay (JSDate.DayFromYear y + JSDate.monthStart y m + k - 1) = m).
  { unfold JSDate.MonthFromDay. rewrite Hy.
    month_split Hm; month_simpl; decide_ltb. }
  split; [exact Hy|]. split; [exact Hmo|].
  unfold JSDate.DateFromDay. rewrite Hy, Hmo. lia.
Qed.

(** From day number to fields and back. *)
Lemma MakeDay_of_civil d :
  0 <= JSDate.MonthFromDay d <= 11 /\
  1 <= JSDate.DateFromDay d <= JSDate.DaysInMonth (JSDate.YearFromDay d) (JSDate.MonthFromDay d) /\
  JSDate.MakeDay (JSDate.YearFromDay d) (JSDate.MonthFromDay d) (JSDate.DateFromDay d) = d.
Proof.
  pose proof (YearFromDay_bounds d) as Hb. rewrite DayFromYear_succ in Hb.
  pose proof (leapDay_range (JSDate.YearFromDay d)) as Hl.
  assert (Hm : 0 <= JSDate.MonthFromDay d <= 11).
  { unfold JSDate.MonthFromDay.
    repeat match goal with |- context [if ?b then _ else _] => destruct b end; lia. }
  split; [exact Hm|]. split.
  - unfold JSDate.DateFromDay, JSDate.MonthFromDay. month_simpl.
    decide_ltb; month_simpl; lia.
  - rewrite MakeDay_in_year by exact Hm. unfold JSDate.DateFromDay. lia.
Qed.

Lemma Day_MakeDate day time : 0 <= time < JSDate.msPerDay ->
  JSDate.Day (JSDate.MakeDate day time) = day /\
  JSDate.TimeWithinDay (JSDate.MakeDate day time) = time.
Proof.
  unfold JSDate.Day, JSDate.TimeWithinDay, JSDate.MakeDate, JSDate.msPerDay. intros H.
  split; divlia.
Qed.

(** ** Windows *)

Section Windows.
Variable LocalTZA : Z.

Lemma localDate_day t :
  localDate LocalTZA t =
  (JSDate.YearFromDay (JSDate.Day (t + LocalTZA)),
   JSDate.MonthFromDay (JSDate.Day (t + LocalTZA)),
   JSDate.DateFromDay (JSDate.Day (t + LocalTZA))).
Proof. reflexivity. Qed.

Lemma construct_plain y m k h mi s ms :
  ~ (0 <= y <= 99) ->
  JSDate.construct LocalTZA y m k h mi s ms
  = JSDate.MakeDate (JSDate.MakeDay y m k) (JSDate.MakeTime h mi s ms) - LocalTZA.
Proof.
  intros Hy. unfold JSDate.construct, JSDate.UTC.
  destruct (Z.leb_spec 0 y); destruct (Z.leb_spec y 99); cbn [andb]; try reflexivity. lia.
Qed.

(** The instant built from local fields of a year outside 0..99. *)
Lemma construct_fields y m k h mi s ms :
  ~ (0 <= y <= 99) -> 0 <= m <= 11 -> 1 <= k <= JSDate.DaysInMonth y m ->
  0 <= JSDate.MakeTime h mi s ms < JSDate.msPerDay ->
  JSDate.construct LocalTZA y m k h mi s ms
  = JSDate.MakeDay y m k * JSDate.msPerDay + JSDate.MakeTime h mi s ms - LocalTZA /\
  localDate LocalTZA (JSDate.construct LocalTZA y m k h mi s ms) = (y, m, k) /\
  localTimeOfDay LocalTZA (JSDate.construct LocalTZA y m k h mi s ms)
  = JSDate.MakeTime h mi s ms.
Proof.
  intros Hy Hm Hk Ht.
  pose proof (construct_plain y m k h mi s ms Hy) as Hc.
  destruct (Day_MakeDate (JSDate.MakeDay y m k) _ Ht) as [Hday Htime].
  destruct (civil_of_MakeDay y m k Hm Hk) as [H1 [H2 H3]].
  split; [rewrite Hc; reflexivity|].
  rewrite localDate_day. unfold localTimeOfDay, JSDate.LocalTime. rewrite Hc.
  replace (JSDate.MakeDate (JSDate.MakeDay y m k) (JSDate.MakeTime h mi s ms) - LocalTZA + LocalTZA)
    with (JSDate.MakeDate (JSDate.MakeDay y m k) (JSDate.MakeTime h mi s ms)) by lia.
  rewrite Hday, Htime, H1, H2, H3. split; reflexivity.
Qed.

(** The instants between local midnight of day [first] and the last
    millisecond of day [last] of a month are those whose local date is in
    that month with a day in [first..last]. *)
Lemma month_days_window y m first last t :
  0 <= m <= 11 -> 1 <= first -> last <= JSDate.DaysInMonth y m ->
  (JSDate.MakeDay y m first * JSDate.msPerDay - LocalTZA <= t
   <= JSDate.MakeDay y m last * JSDate.msPerDay + (JSDate.msPerDay - 1) - LocalTZA
   <-> JSDate.getFullYear LocalTZA t = y /\ JSDate.getMonth LocalTZA t = m /\
       first <= JSDate.getDate LocalTZA t <= last).
Proof.
  intros Hm Hf Hl.
  unfold JSDate.getFullYear, JSDate.getMonth, JSDate.getDate, JSDate.YearFromTime,
    JSDate.MonthFromTime, JSDate.DateFromTime, JSDate.LocalTime.
  set (D := JSDate.Day (t + LocalTZA)).
  assert (HD : JSDate.MakeDay y m first <= D <= JSDate.MakeDay y m last <->
               JSDate.MakeDay y m first * JSDate.msPerDay - LocalTZA <= t
               <= JSDate.MakeDay y m last * JSDate.msPerDay + (JSDate.msPerDay - 1) - LocalTZA).
  { subst D. unfold JSDate.Day, JSDate.msPerDay.
    generalize (JSDate.MakeDay y m first) (JSDate.MakeDay y m last). intros a b.
    split; intros H; divlia. }
  rewrite <- HD. rewrite !MakeDay_in_year by exact Hm.
  split.
  - intros H.
    destruct (civil_of_MakeDay y m (D - JSDate.DayFromYear y - JSDate.monthStart y m + 1) Hm)
      as [H1 [H2 H3]]; [lia|].
    rewrite MakeDay_in_year in H1, H2, H3 by exact Hm.
    replace (JSDate.DayFromYear y + JSDate.monthStart y m
             + (D - JSDate.DayFromYear y - JSDate.monthStart y m + 1) - 1) with D in * by lia.
    rewrite H1, H2, H3. lia.
  - intros [H1 [H2 H3]].
    destruct (MakeDay_of_civil D) as [_ [_ H4]].
    rewrite H1, H2 in H4. rewrite MakeDay_in_year in H4 by exact Hm. lia.
Qed.

End Windows.

(** ** C6: the fortnight window *)

(** The fortnight window of any clock reading outside the two-digit
    years. *)
Lemma fortnight_general LocalTZA now :
  ~ (0 <= JSDate.getFullYear LocalTZA now <= 99) ->
  let y := JSDate.getFullYear LocalTZA now in
  let m := JSDate.getMonth LocalTZA now in
  let d := JSDate.getDate LocalTZA now in
  let first := if d <=? 15 then 1 else 16 in
  let last := if d <=? 15 then 15 else JSDate.DaysInMonth y m in
  let w := Unified.fortnight (Unified.ranges LocalTZA now) in
  localDate LocalTZA (start w) = (y, m, first) /\
  localTimeOfDay LocalTZA (start w) = 0 /\
  localDate LocalTZA (end_ w) = (y, m, last) /\
  localTimeOfDay LocalTZA (end_ w) = JSDate.msPerDay - 1 /\
  (forall t, start w <= t <= end_ w <->
             JSDate.getFullYear LocalTZA t = y /\ JSDate.getMonth LocalTZA t = m /\
             first <= JSDate.getDate LocalTZA t <= last).
Proof.
  intros Hy y m d first last w.
  destruct (MakeDay_of_civil (JSDate.Day (JSDate.LocalTime LocalTZA now))) as [Hm [Hd _]].
  change (JSDate.MonthFromDay (JSDate.Day (JSDate.LocalTime LocalTZA now))) with m in Hm, Hd.
  change (JSDate.YearFromDay (JSDate.Day (JSDate.LocalTime LocalTZA now))) with y in Hd.
  change (JSDate.DateFromDay (JSDate.Day (JSDate.LocalTime LocalTZA now))) with d in Hd.
  assert (Hdim : 28 <= JSDate.DaysInMonth y m <= 31) by (apply DaysInMonth_range; exact Hm).
  assert (Hfirst : 1 <= first <= JSDate.DaysInMonth y m)
    by (subst first; destruct (d <=? 15); lia).
  assert (Hlast : first <= last <= JSDate.DaysInMonth y m)
    by (subst first last; destruct (d <=? 15); lia).
  assert (T0 : 0 <= JSDate.MakeTime 0 0 0 0 < JSDate.msPerDay)
    by (unfold JSDate.MakeTime, JSDate.msPerDay; lia).
  assert (T1 : 0 <= JSDate.MakeTime 23 59 59 999 < JSDate.msPerDay)
    by (unfold JSDate.MakeTime, JSDate.msPerDay; lia).
  assert (Hstart : start w = JSDate.construct LocalTZA y m first 0 0 0 0).
  { subst w first. unfold Unified.ranges, fortnightOf. cbn [Unified.fortnight].
    fold y m d. destruct (d <=? 15); reflexivity. }
  assert (Hend : end_ w = JSDate.construct LocalTZA y m last 23 59 59 999).
  { subst w last. unfold Unified.ranges, fortnightOf. cbn [Unified.fortnight].
    fold y m d. destruct (d <=? 15); cbn [end_]; [reflexivity|].
    rewrite !construct_plain by exact Hy. now rewrite MakeDay_last by exact Hm. }
  destruct (construct_fields LocalTZA y m first 0 0 0 0 Hy Hm Hfirst T0) as [S1 [S2 S3]].
  destruct (construct_fields LocalTZA y m last 23 59 59 999 Hy Hm ltac:(lia) T1)
    as [E1 [E2 E3]].
  rewrite Hstart. split; [exact S2|]. split; [exact S3|].
  rewrite Hend. split; [exact E2|]. split; [exact E3|].
  intros t. rewrite <- (month_days_window LocalTZA y m first last t Hm) by lia.
  rewrite S1, E1. change (JSDate.MakeTime 0 0 0 0) with 0.
  change (JSDate.MakeTime 23 59 59 999) with (JSDate.msPerDay - 1). lia.
Qed.

(** [C6] For every clock reading [now] whose local year is not one of the
    two-digit years 0..99 (which the [Date] constructor reads as 1900..1999),
    the fortnight window of [ranges] runs from local midnight of the 1st to
    the last millisecond of the 15th of the month of [now] when the local
    day of [now] is at most 15, and from local midnight of the 16th to the
    last millisecond of the last day of that month otherwise; both ends
    belong to the window, and the instants of the window are exactly those
    whose local date is one of these days.  On 2024-03-10 the window is
    2024-03-01 .. 2024-03-15, on 2024-03-20 it is 2024-03-16 .. 2024-03-31
    (months count from 0 in [localDate]). *)
Theorem C6_fortnight_window :
  (forall LocalTZA now,
      ~ (0 <= JSDate.getFullYear LocalTZA now <= 99) ->
      let y := JSDate.getFullYear LocalTZA now in
      let m := JSDate.getMonth LocalTZA now in
      let d := JSDate.getDate LocalTZA now in
      let first := if d <=? 15 then 1 else 16 in
      let last := if d <=? 15 then 15 else JSDate.DaysInMonth y m in
      let w := Unified.fortnight (Unified.ranges LocalTZA now) in
      localDate LocalTZA (start w) = (y, m, first) /\
      localTimeOfDay LocalTZA (start w) = 0 /\
      localDate LocalTZA (end_ w) = (y, m, last) /\
      localTimeOfDay LocalTZA (end_ w) = JSDate.msPerDay - 1 /\
      (forall t, start w <= t <= end_ w <->
                 JSDate.getFullYear LocalTZA t = y /\ JSDate.getMonth LocalTZA t = m /\
                 first <= JSDate.getDate LocalTZA t <= last)) /\
  (forall LocalTZA now,
      localDate LocalTZA now = (2024, 2, 10) ->
      let w := Unified.fortnight (Unified.ranges LocalTZA now) in
      localDate LocalTZA (start w) = (2024, 2, 1) /\
      localDate LocalTZA (end_ w) = (2024, 2, 15)) /\
  (forall LocalTZA now,
      localDate LocalTZA now = (2024, 2, 20) ->
      let w := Unified.fortnight (Unified.ranges LocalTZA now) in
      localDate LocalTZA (start w) = (2024, 2, 16) /\
      localDate LocalTZA (end_ w) = (2024, 2, 31)).
Proof.
  split; [exact fortnight_general|].
  split; intros tza now Hnow; unfold localDate in Hnow; injection Hnow as Hy Hm Hd;
    assert (H99 : ~ (0 <= JSDate.getFullYear tza now <= 99)) by (rewrite Hy; lia);
    destruct (fortnight_general tza now H99) as [S [_ [E _]]];
    rewrite Hy, Hm, Hd in S, E; split; [exact S|exact E|exact S|exact E].
Qed.

(** At noon of 2024-03-10 in Santiago the fortnight runs from the 1st to
    the 15th of March. *)
Lemma C6_witness :
  ~ (0 <= JSDate.getFullYear santiago sampleNow <= 99) /\
  localDate santiago sampleNow = (2024, 2, 10) /\
  localDate santiago (start (Unified.fortnight (Unified.ranges santiago sampleNow)))
  = (2024, 2, 1) /\
  localDate santiago (end_ (Unified.fortnight (Unified.ranges santiago sampleNow)))
  = (2024, 2, 15).
Proof.
  assert (H : ~ (0 <= JSDate.getFullYear santiago sampleNow <= 99))
    by (vm_compute; intros [_ H]; now apply H).
  split; [exact H|]. split; [reflexivity|].
  destruct (proj1 C6_fortnight_window santiago sampleNow H) as [S [_ [E _]]].
  split; [exact S|exact E].
Defined.

(** ** C3: period sums *)

(** A date-only string denotes midnight UTC, the today window is a local
    day: the window holds the date that is [ceil(-LocalTZA / msPerDay)] days
    after the local date of the clock reading. *)
Lemma within_today LocalTZA now s y m d :
  JSDate.parseFields s = Some (y, m, d) ->
  (within s (startOfDay LocalTZA now) (endOfDay LocalTZA now) = true <->
   JSDate.MakeDay y (m - 1) d
   = JSDate.Day (JSDate.LocalTime LocalTZA now)
     + (- LocalTZA + (JSDate.msPerDay - 1)) / JSDate.msPerDay).
Proof.
  intros Hp. unfold within, JSDate.parse. rewrite Hp.
  unfold startOfDay, endOfDay, JSDate.setHours, JSDate.UTC, JSDate.MakeDate, JSDate.MakeTime.
  generalize (JSDate.Day (JSDate.LocalTime LocalTZA now)) (JSDate.MakeDay y (m - 1) d).
  intros D P. unfold JSDate.msPerDay.
  rewrite andb_true_iff, !Z.leb_le. split; intros H; divlia.
Qed.

(** East of Greenwich (and at UTC) the today window holds the local date of
    the clock reading; west of Greenwich it holds the next day instead. *)
Lemma within_today_east LocalTZA now s y m d :
  0 <= LocalTZA < JSDate.msPerDay ->
  JSDate.parseFields s = Some (y, m, d) ->
  (within s (startOfDay LocalTZA now) (endOfDay LocalTZA now) = true <->
   JSDate.MakeDay y (m - 1) d = JSDate.Day (JSDate.LocalTime LocalTZA now)).
Proof.
  intros Htz Hp. rewrite (within_today _ _ _ _ _ _ Hp).
  replace ((- LocalTZA + (JSDate.msPerDay - 1)) / JSDate.msPerDay) with 0; [lia|].
  unfold JSDate.msPerDay in *. divlia.
Qed.

Lemma within_today_west LocalTZA now s y m d :
  - JSDate.msPerDay <= LocalTZA < 0 ->
  JSDate.parseFields s = Some (y, m, d) ->
  (within s (startOfDay LocalTZA now) (endOfDay LocalTZA now) = true <->
   JSDate.MakeDay y (m - 1) d = JSDate.Day (JSDate.LocalTime LocalTZA now) + 1).
Proof.
  intros Htz Hp. rewrite (within_today _ _ _ _ _ _ Hp).
  replace ((- LocalTZA + (JSDate.msPerDay - 1)) / JSDate.msPerDay) with 1; [lia|].
  unfold JSDate.msPerDay in *. divlia.
Qed.

(** [C3] The code at the failing input: the local time zone is UTC-3, the
    clock reads noon of 2024-03-10 local time.  An expense dated 2024-03-10
    is left out of the today sum, and one dated 2024-03-11 is counted in it;
    an expense dated 2024-03-04, the first of the 7 days that end today, is
    left out of the week sum.  At UTC the same inputs give the sums that the
    specification states. *)
Theorem C3_period_sums_west_of_utc :
  localDate santiago sampleNow = (2024, 2, 10) /\
  Unified.statToday
    (Unified.computeAndRender santiago sampleNow (stateOf [mkTx 1 "expense" 120000 "2024-03-10"]))
  = 0 /\
  Unified.statToday
    (Unified.computeAndRender santiago sampleNow (stateOf [mkTx 1 "expense" 120000 "2024-03-11"]))
  = 120000 /\
  Unified.statWeek
    (Unified.computeAndRender santiago sampleNow (stateOf [mkTx 1 "expense" 120000 "2024-03-04"]))
  = 0 /\
  Unified.statToday
    (Unified.computeAndRender 0 sampleNow (stateOf [mkTx 1 "expense" 120000 "2024-03-10"]))
  = 120000 /\
  Unified.statWeek
    (Unified.computeAndRender 0 sampleNow (stateOf [mkTx 1 "expense" 120000 "2024-03-04"]))
  = 120000.
Proof. vm_compute. repeat split. Qed.

(** ** binary64 arithmetic *)

Section Binary64.
Import JSNumber.

Lemma pow2_step e : e + 1 <= 0 -> 2 ^ (- e) = 2 * 2 ^ (- (e + 1)).
Proof.
  intros H. replace (- e) with (Z.succ (- (e + 1))) by lia.
  rewrite Z.pow_succ_r by lia. reflexivity.
Qed.

Lemma digits2_pos_bounds p :
  2 ^ (Z.pos (digits2_pos p) - 1) <= Z.pos p < 2 ^ (Z.pos (digits2_pos p)).
Proof.
  induction p as [p IH|p IH|]; cbn [digits2_pos].
  - rewrite Pos2Z.inj_succ. replace (Z.succ (Z.pos (digits2_pos p)) - 1)
      with (Z.succ (Z.pos (digits2_pos p) - 1)) by lia.
    rewrite !Z.pow_succ_r by lia. lia.
  - rewrite Pos2Z.inj_succ. replace (Z.succ (Z.pos (digits2_pos p)) - 1)
      with (Z.succ (Z.pos (digits2_pos p) - 1)) by lia.
    rewrite !Z.pow_succ_r by lia. lia.
  - simpl. lia.
Qed.

Lemma Zdigits2_le m k : 0 <= m < 2 ^ k -> 0 <= k -> Zdigits2 m <= k.
Proof.
  intros [H0 Hk] Hk0. destruct m as [|p|p]; simpl; [lia| |lia].
  destruct (digits2_pos_bounds p) as [Hlo _].
  destruct (Z_lt_le_dec k (Z.pos (digits2_pos p))) as [Hlt|]; [|lia].
  exfalso. assert (2 ^ k <= 2 ^ (Z.pos (digits2_pos p) - 1))
    by (apply Z.pow_le_mono_r; lia). lia.
Qed.

Lemma loc_of_record m l : loc_of_shr_record (shr_record_of_loc m l) = l.
Proof. destruct l as [|[]]; reflexivity. Qed.

Lemma shr_m_of_loc m l : shr_m (shr_record_of_loc m l) = m.
Proof. destruct l as [|[]]; reflexivity. Qed.

(** *** Shifting right keeps the mantissa non-negative *)

Lemma shr_1_nonneg mrs : 0 <= shr_m mrs -> 0 <= shr_m (shr_1 mrs).
Proof. destruct mrs as [[|[p|p|]|p] r s]; simpl; lia. Qed.

Lemma iter_shr_nonneg p : forall mrs, 0 <= shr_m mrs -> 0 <= shr_m (iter_pos shr_1 p mrs).
Proof.
  induction p as [p IH|p IH|]; intros mrs H; simpl.
  - apply IH, IH, shr_1_nonneg, H.
  - apply IH, IH, H.
  - apply shr_1_nonneg, H.
Qed.

Lemma shr_fexp_nonneg m e l : 0 <= m -> 0 <= shr_m (fst (shr_fexp prec emax m e l)).
Proof.
  intros H. unfold shr_fexp, shr.
  destruct (_ - e) as [|p|p]; simpl; rewrite ?shr_m_of_loc; try exact H.
  apply iter_shr_nonneg. now rewrite shr_m_of_loc.
Qed.

Lemma round_nearest_even_nonneg m l : 0 <= m -> 0 <= round_nearest_even m l.
Proof. intros H. destruct l as [|[]]; simpl; try lia. destruct (Z.even m); lia. Qed.

(** The rounding of a non-negative mantissa has the given sign and is not
    NaN. *)
Lemma binary_round_aux_signed s mx ex lx :
  0 <= mx -> signed s (binary_round_aux prec emax s mx ex lx).
Proof.
  intros Hm. unfold binary_round_aux.
  pose proof (shr_fexp_nonneg mx ex lx Hm) as H1.
  destruct (shr_fexp prec emax mx ex lx) as [mrs' e']. simpl in H1.
  pose proof (shr_fexp_nonneg _ e' loc_Exact
                (round_nearest_even_nonneg _ (loc_of_shr_record mrs') H1)) as H2.
  destruct (shr_fexp prec emax _ e' loc_Exact) as [mrs'' e'']. simpl in H2.
  destruct (shr_m mrs'') as [|m|m]; [constructor| |lia].
  destruct (e'' <=? emax - prec); constructor.
Qed.

(** *** Shifting right keeps a mantissa below an integer bound *)

Section Below.
Variable B : Z.
Hypothesis B_pos : 1 <= B.
Hypothesis B_small : B < 2 ^ 53.

Lemma shr_1_below mrs e :
  e + 1 <= 0 ->
  below B (shr_m mrs) (loc_of_shr_record mrs) e ->
  below B (shr_m (shr_1 mrs)) (loc_of_shr_record (shr_1 mrs)) (e + 1).
Proof.
  intros He [H0 [Hle Hlt]]. unfold below in *.
  rewrite (pow2_step e He) in Hle, Hlt.
  replace (B * (2 * 2 ^ (- (e + 1)))) with (2 * (B * 2 ^ (- (e + 1)))) in Hle, Hlt by ring.
  set (Y := B * 2 ^ (- (e + 1))) in *.
  destruct mrs as [m r s]. cbn [shr_m] in H0, Hle, Hlt.
  assert (Hin : r = true \/ s = true -> m < 2 * Y).
  { intros Hrs. apply Hlt. destruct r, s; cbn; try discriminate.
    destruct Hrs; discriminate. }
  clear Hlt.
  destruct m as [|[p|p|]|p]; try lia; destruct r, s;
    cbn [shr_1 shr_m loc_of_shr_record orb];
    try (specialize (Hin ltac:(tauto)));
    (split; [lia|split; [lia|intros Hne; try (exfalso; now apply Hne); lia]]).
Qed.

Lemma iter_shr_below p : forall mrs e,
  e + Z.pos p <= 0 ->
  below B (shr_m mrs) (loc_of_shr_record mrs) e ->
  below B (shr_m (iter_pos shr_1 p mrs)) (loc_of_shr_record (iter_pos shr_1 p mrs))
    (e + Z.pos p).
Proof.
  induction p as [p IH|p IH|]; intros mrs e He H; simpl.
  - replace (e + Z.pos p~1) with (e + 1 + Z.pos p + Z.pos p) by lia.
    apply IH; [lia|]. apply IH; [lia|]. apply shr_1_below; [lia|exact H].
  - replace (e + Z.pos p~0) with (e + Z.pos p + Z.pos p) by lia.
    apply IH; [lia|]. apply IH; [lia|exact H].
  - apply shr_1_below; [lia|exact H].
Qed.

Lemma below_digits m l e :
  e <= 0 -> below B m l e -> SpecFloat.fexp prec emax (Zdigits2 m + e) <= 0.
Proof.
  intros He [H0 [Hle _]].
  assert (Hd : Zdigits2 m <= 53 - e).
  { apply Zdigits2_le; [|lia]. split; [exact H0|].
    replace (53 - e) with (53 + - e) by lia. rewrite Z.pow_add_r by lia.
    assert (0 < 2 ^ (- e)) by (apply Z.pow_pos_nonneg; lia). nia. }
  unfold SpecFloat.fexp, emin, prec, emax. lia.
Qed.

Lemma shr_fexp_below m l e :
  e <= 0 -> below B m l e ->
  let '(mrs, e') := shr_fexp prec emax m e l in
  e' <= 0 /\ below B (shr_m mrs) (loc_of_shr_record mrs) e'.
Proof.
  intros He Hb. pose proof (below_digits m l e He Hb) as Hf.
  unfold shr_fexp, shr.
  destruct (SpecFloat.fexp prec emax (Zdigits2 m + e) - e) as [|p|p] eqn:Hn;
    rewrite ?loc_of_record, ?shr_m_of_loc; try (split; assumption).
  split; [lia|].
  apply iter_shr_below; [lia|]. now rewrite loc_of_record, shr_m_of_loc.
Qed.

Lemma round_nearest_even_below m l e :
  e <= 0 -> below B m l e -> below B (round_nearest_even m l) loc_Exact e.
Proof.
  intros He [H0 [Hle Hlt]]. unfold below.
  assert (Hup : l <> loc_Exact -> 0 <= m + 1 <= B * 2 ^ (- e)).
  { intros Hl. specialize (Hlt Hl). lia. }
  destruct l as [|[]]; simpl.
  - split; [lia|]. split; [lia|]. intros H; now contradiction H.
  - destruct (Z.even m).
    + split; [lia|]. split; [lia|]. intros H; now contradiction H.
    + split; [lia|]. split; [apply Hup; discriminate|]. intros H; now contradiction H.
  - split; [lia|]. split; [lia|]. intros H; now contradiction H.
  - split; [lia|]. split; [apply Hup; discriminate|]. intros H; now contradiction H.
Qed.

(** The rounding of a mantissa below [B] is a zero or a finite Number of
    magnitude at most [B]. *)
Lemma binary_round_aux_below s mx ex lx :
  ex <= 0 -> below B mx lx ex -> at_most B s (binary_round_aux prec emax s mx ex lx).
Proof.
  intros He Hb. unfold binary_round_aux.
  pose proof (shr_fexp_below mx lx ex He Hb) as H1.
  destruct (shr_fexp prec emax mx ex lx) as [mrs' e']. destruct H1 as [He' Hb'].
  pose proof (shr_fexp_below _ loc_Exact e' He'
                (round_nearest_even_below _ _ _ He' Hb')) as H2.
  destruct (shr_fexp prec emax _ e' loc_Exact) as [mrs'' e'']. destruct H2 as [He'' Hb''].
  destruct Hb'' as [H0 [Hle _]].
  destruct (shr_m mrs'') as [|m|m]; [constructor| |lia].
  replace (e'' <=? emax - prec) with true
    by (symmetry; apply Z.leb_le; unfold emax, prec; lia).
  now constructor.
Qed.

End Below.

(** *** Integers below 2^53 are exact *)

Lemma iter_xO_value p k : Z.pos (Pos.iter xO p k) = Z.pos p * 2 ^ Z.pos k.
Proof.
  induction k as [|k IH] using Pos.peano_ind.
  - simpl. lia.
  - rewrite Pos.iter_succ, Pos2Z.inj_succ, Z.pow_succ_r by lia.
    rewrite Pos2Z.inj_xO, IH. ring.
Qed.

Lemma iter_xO_digits p k :
  Z.pos (digits2_pos (Pos.iter xO p k)) = Z.pos (digits2_pos p) + Z.pos k.
Proof.
  induction k as [|k IH] using Pos.peano_ind.
  - simpl. lia.
  - rewrite Pos.iter_succ. cbn [digits2_pos]. rewrite !Pos2Z.inj_succ, IH. lia.
Qed.

(** A mantissa of 53 digits is its own rounding. *)
Lemma binary_round_aux_canonical s m e :
  Z.pos (digits2_pos m) = 53 -> -1074 <= e <= 971 ->
  binary_round_aux prec emax s (Z.pos m) e loc_Exact = S754_finite s m e.
Proof.
  intros Hd He.
  assert (Hs : shr_fexp prec emax (Z.pos m) e loc_Exact
               = ({| shr_m := Z.pos m; shr_r := false; shr_s := false |}, e)).
  { unfold shr_fexp. cbn [Zdigits2]. rewrite Hd.
    replace (SpecFloat.fexp prec emax (53 + e) - e) with 0
      by (unfold SpecFloat.fexp, emin, prec, emax; lia).
    reflexivity. }
  unfold binary_round_aux. rewrite Hs. cbn [shr_m loc_of_shr_record round_nearest_even].
  rewrite Hs. cbn [shr_m].
  replace (e <=? emax - prec) with true
    by (symmetry; apply Z.leb_le; unfold emax, prec; lia).
  reflexivity.
Qed.

Lemma of_Z_exact z :
  0 < z < 2 ^ 53 ->
  exists m e, of_Z z = S754_finite false m e /\ e <= 0 /\ Z.pos m = z * 2 ^ (- e).
Proof.
  intros [H0 H53]. destruct z as [|p|p]; try lia.
  unfold of_Z, binary_normalize, binary_round.
  destruct (digits2_pos_bounds p) as [Hlo Hhi].
  assert (Hd : 1 <= Z.pos (digits2_pos p) <= 53).
  { split; [lia|]. change (Z.pos (digits2_pos p)) with (Zdigits2 (Z.pos p)).
    apply Zdigits2_le; lia. }
  replace (SpecFloat.fexp prec emax (Z.pos (digits2_pos p) + 0))
    with (Z.pos (digits2_pos p) - 53)
    by (unfold SpecFloat.fexp, emin, prec, emax; lia).
  unfold shl_align.
  destruct (Z.pos (digits2_pos p) - 53 - 0) as [|k|k] eqn:Hk; try lia.
  - exists p, 0. split; [|split; [lia|simpl; lia]].
    apply binary_round_aux_canonical; lia.
  - exists (Pos.iter xO p k), (Z.pos (digits2_pos p) - 53).
    split; [|split; [lia|]].
    + apply binary_round_aux_canonical; [rewrite iter_xO_digits|]; lia.
    + rewrite iter_xO_value. f_equal. f_equal. lia.
Qed.

(** *** Sums and differences of safe integers *)

Lemma shiftp_value p n : 0 <= n -> Z.pos (shiftp p n) = Z.pos p * 2 ^ n.
Proof.
  intros Hn. destruct n as [|k|k]; cbn [shiftp]; [simpl; lia|apply iter_xO_value|lia].
Qed.

Lemma shiftp_digits p n :
  0 <= n -> Z.pos (digits2_pos (shiftp p n)) = Z.pos (digits2_pos p) + n.
Proof.
  intros Hn. destruct n as [|k|k]; cbn [shiftp]; [lia|apply iter_xO_digits|lia].
Qed.

(** Shifting out zeros loses nothing. *)
Lemma iter_shr_exact k : forall m,
  iter_pos shr_1 k {| shr_m := Z.pos (Pos.iter xO m k); shr_r := false; shr_s := false |}
  = {| shr_m := Z.pos m; shr_r := false; shr_s := false |}.
Proof.
  induction k as [k IH|k IH|]; intros m; cbn [iter_pos Pos.iter].
  - cbn [shr_1 orb]. rewrite IH, IH. reflexivity.
  - rewrite IH, IH. reflexivity.
  - reflexivity.
Qed.

Lemma digits_le_53 p : Z.pos p < 2 ^ 53 -> 1 <= Z.pos (digits2_pos p) <= 53.
Proof.
  intros H. split; [lia|].
  change (Z.pos (digits2_pos p)) with (Zdigits2 (Z.pos p)). apply Zdigits2_le; lia.
Qed.

(** Rounding a mantissa that stands for an integer below 2^53 gives the
    canonical form of that integer, whatever the exponent it is written
    with. *)
Lemma binary_round_exact s M e p :
  Z.pos p < 2 ^ 53 -> -1074 <= e <= 0 -> Z.pos M = Z.pos p * 2 ^ (- e) ->
  binary_round prec emax s M e = canonical s p.
Proof.
  intros Hp He HM.
  pose proof (digits_le_53 p Hp) as Hd.
  set (d := Z.pos (digits2_pos p)) in *.
  assert (HdM : Z.pos (digits2_pos M) = d - e).
  { assert (E : M = shiftp p (- e)).
    { apply Pos2Z.inj. rewrite HM, shiftp_value by lia. reflexivity. }
    rewrite E, shiftp_digits by lia. subst d. lia. }
  unfold binary_round, canonical. fold d. rewrite HdM.
  replace (SpecFloat.fexp prec emax (d - e + e)) with (d - 53)
    by (unfold SpecFloat.fexp, emin, prec, emax; lia).
  assert (Hc : Z.pos (digits2_pos (shiftp p (53 - d))) = 53)
    by (rewrite shiftp_digits by lia; subst d; lia).
  unfold shl_align.
  destruct (d - 53 - e) as [|k|k] eqn:Hk.
  - (* the mantissa has 53 digits already *)
    assert (E : M = shiftp p (53 - d)).
    { apply Pos2Z.inj. rewrite HM, shiftp_value by lia. f_equal. f_equal. lia. }
    rewrite E. replace e with (d - 53) by lia.
    apply binary_round_aux_canonical; [exact Hc|lia].
  - (* zeros are shifted out *)
    assert (E : M = Pos.iter xO (shiftp p (53 - d)) k).
    { apply Pos2Z.inj. rewrite HM, iter_xO_value, shiftp_value by lia.
      rewrite <- Z.mul_assoc, <- Z.pow_add_r by lia. f_equal. f_equal. lia. }
    unfold binary_round_aux.
    assert (S1 : shr_fexp prec emax (Z.pos M) e loc_Exact
                 = ({| shr_m := Z.pos (shiftp p (53 - d)); shr_r := false; shr_s := false |},
                    d - 53)).
    { unfold shr_fexp. cbn [Zdigits2]. rewrite HdM.
      replace (SpecFloat.fexp prec emax (d - e + e) - e) with (Z.pos k)
        by (unfold SpecFloat.fexp, emin, prec, emax; lia).
      cbn [shr shr_record_of_loc]. rewrite E, iter_shr_exact. f_equal. lia. }
    rewrite S1. cbn [shr_m loc_of_shr_record round_nearest_even].
    assert (S2 : shr_fexp prec emax (Z.pos (shiftp p (53 - d))) (d - 53) loc_Exact
                 = ({| shr_m := Z.pos (shiftp p (53 - d)); shr_r := false; shr_s := false |},
                    d - 53)).
    { unfold shr_fexp. cbn [Zdigits2]. rewrite Hc.
      replace (SpecFloat.fexp prec emax (53 + (d - 53)) - (d - 53)) with 0
        by (unfold SpecFloat.fexp, emin, prec, emax; lia).
      reflexivity. }
    rewrite S2. cbn [shr_m].
    replace (d - 53 <=? emax - prec) with true
      by (symmetry; apply Z.leb_le; unfold emax, prec; lia).
    reflexivity.
  - (* the mantissa is shifted left to 53 digits *)
    assert (E : Pos.iter xO M k = shiftp p (53 - d)).
    { apply Pos2Z.inj. rewrite iter_xO_value, HM, shiftp_value by lia.
      rewrite <- Z.mul_assoc, <- Z.pow_add_r by lia. f_equal. f_equal. lia. }
    rewrite E. apply binary_round_aux_canonical; [exact Hc|lia].
Qed.

Lemma of_Z_canonical p : Z.pos p < 2 ^ 53 -> of_Z (Z.pos p) = canonical false p.
Proof.
  intros Hp. unfold of_Z, binary_normalize.
  apply binary_round_exact; [exact Hp|lia|simpl; lia].
Qed.

Lemma of_Z_canonical_neg p : Z.pos p < 2 ^ 53 -> of_Z (Z.neg p) = canonical true p.
Proof.
  intros Hp. unfold of_Z, binary_normalize.
  apply binary_round_exact; [exact Hp|lia|simpl; lia].
Qed.

(** An integer of magnitude below 2^53, written with a mantissa and an
    exponent, is normalized to the Number of that integer. *)
Lemma binary_normalize_exact m e z :
  - 2 ^ 53 < z < 2 ^ 53 -> -1074 <= e <= 0 -> m = z * 2 ^ (- e) ->
  binary_normalize prec emax m e false = of_Z z.
Proof.
  intros Hz He Hm.
  assert (P : 0 < 2 ^ (- e)) by (apply Z.pow_pos_nonneg; lia).
  destruct z as [|p|p].
  - subst m. reflexivity.
  - rewrite of_Z_canonical by lia.
    destruct m as [|M|M]; try (exfalso; nia).
    apply binary_round_exact; [lia|exact He|exact Hm].
  - rewrite of_Z_canonical_neg by lia.
    destruct m as [|M|M]; try (exfalso; nia).
    apply binary_round_exact; [lia|exact He|].
    assert (H : Z.neg M = - Z.pos M) by reflexivity.
    assert (H' : Z.neg p = - Z.pos p) by reflexivity. nia.
Qed.

Lemma shl_align_value mx ex ez :
  ez <= ex -> Z.pos (fst (shl_align mx ex ez)) = Z.pos mx * 2 ^ (ex - ez).
Proof.
  intros H. unfold shl_align. destruct (ez - ex) as [|d|d] eqn:Hd; cbn [fst]; try lia.
  - replace (ex - ez) with 0 by lia. simpl. lia.
  - rewrite iter_xO_value. f_equal. f_equal. lia.
Qed.

Lemma canonical_value s p :
  Z.pos p < 2 ^ 53 ->
  exists m e, canonical s p = S754_finite s m e /\ -52 <= e <= 0 /\
              Z.pos m = Z.pos p * 2 ^ (- e).
Proof.
  intros Hp. pose proof (digits_le_53 p Hp) as Hd.
  eexists. eexists. split; [reflexivity|]. split; [lia|].
  rewrite shiftp_value by lia. f_equal. f_equal. lia.
Qed.

Lemma aligned a e ez :
  ez <= e -> e <= 0 -> a * 2 ^ (- e) * 2 ^ (e - ez) = a * 2 ^ (- ez).
Proof.
  intros H1 H2. rewrite <- Z.mul_assoc, <- Z.pow_add_r by lia. f_equal. f_equal. lia.
Qed.

(** The sum of two non-negative integers is exact when it is below 2^53. *)
Lemma add_exact a b :
  0 <= a -> 0 <= b -> a + b < 2 ^ 53 -> add (of_Z a) (of_Z b) = of_Z (a + b).
Proof.
  intros Ha Hb Hab.
  destruct a as [|p|p]; [|destruct b as [|q|q]|]; try lia.
  - destruct b as [|q|q]; try lia; [reflexivity|].
    simpl Z.add. rewrite of_Z_canonical by lia. reflexivity.
  - rewrite Z.add_0_r, of_Z_canonical by lia. reflexivity.
  - rewrite (of_Z_canonical p), (of_Z_canonical q) by lia.
    destruct (canonical_value false p ltac:(lia)) as [m1 [e1 [-> [He1 Hm1]]]].
    destruct (canonical_value false q ltac:(lia)) as [m2 [e2 [-> [He2 Hm2]]]].
    unfold add, SFadd. cbn [cond_Zopp].
    apply binary_normalize_exact; [lia|lia|].
    rewrite !shl_align_value by lia. rewrite Hm1, Hm2.
    rewrite !aligned by lia. ring.
Qed.

(** The difference of two non-negative integers below 2^53 is exact. *)
Lemma sub_exact a b :
  0 <= a < 2 ^ 53 -> 0 <= b < 2 ^ 53 -> sub (of_Z a) (of_Z b) = of_Z (a - b).
Proof.
  intros Ha Hb.
  destruct a as [|p|p]; [|destruct b as [|q|q]|]; try lia.
  - destruct b as [|q|q]; try lia; [reflexivity|].
    simpl Z.sub. rewrite of_Z_canonical, of_Z_canonical_neg by lia. reflexivity.
  - rewrite Z.sub_0_r, of_Z_canonical by lia. reflexivity.
  - rewrite (of_Z_canonical p), (of_Z_canonical q) by lia.
    destruct (canonical_value false p ltac:(lia)) as [m1 [e1 [-> [He1 Hm1]]]].
    destruct (canonical_value false q ltac:(lia)) as [m2 [e2 [-> [He2 Hm2]]]].
    unfold sub, SFsub. cbn [cond_Zopp].
    apply binary_normalize_exact; [lia|lia|].
    rewrite !shl_align_value by lia. rewrite Hm1, Hm2.
    rewrite !aligned by lia. ring.
Qed.

Lemma reduce_exact {A : Type} (amount : A -> Z) (arr : list A) : forall acc,
  0 <= acc ->
  Forall (fun t => 0 <= amount t) arr ->
  acc + fold_left (fun s t => s + amount t) arr 0 < 2 ^ 53 ->
  fold_left (fun s t => add s (of_Z (amount t))) arr (of_Z acc)
  = of_Z (acc + fold_left (fun s t => s + amount t) arr 0).
Proof.
  induction arr as [|t l IH]; intros acc Hacc Hpos Hsum.
  - simpl. now rewrite Z.add_0_r.
  - inversion Hpos as [|? ? Ht Hl]; subst.
    rewrite fold_sum_cons in Hsum |- *. cbn [fold_left].
    pose proof (fold_sum_filter amount (fun _ => true) l Hl) as H.
    replace (filter (fun _ => true) l) with l in H
      by (clear; induction l as [|x l IH]; [reflexivity|]; cbn [filter]; now f_equal).
    rewrite add_exact by lia.
    rewrite IH by (try assumption; lia). f_equal. lia.
Qed.

(** *** Quotient and product *)

Lemma new_location_exact nb k : new_location nb k <> loc_Exact -> k <> 0.
Proof.
  unfold new_location, new_location_even, new_location_odd.
  intros H ->. destruct (Z.even nb); simpl in H; now apply H.
Qed.

Lemma div_eucl_pos a b :
  0 <= a -> 0 < b ->
  let '(q, r) := Z.div_eucl a b in a = b * q + r /\ 0 <= r < b /\ 0 <= q.
Proof.
  intros Ha Hb. pose proof (Z_div_mod a b ltac:(lia)) as H.
  destruct (Z.div_eucl a b) as [q r]. destruct H as [H1 H2].
  repeat split; try tauto. nia.
Qed.

Lemma shifted_mantissa m s :
  0 <= s ->
  match s with
  | Z.pos _ => Z.shiftl (Z.pos m) s
  | 0 => Z.pos m
  | Z.neg _ => 0
  end = Z.pos m * 2 ^ s.
Proof.
  intros Hs. destruct s as [|p|p]; [simpl; lia| |lia].
  now rewrite Z.shiftl_mul_pow2 by lia.
Qed.

(** The quotient of two positive finite Numbers is not NaN and not
    negative. *)
Lemma div_signed m1 e1 m2 e2 :
  signed false (div (S754_finite false m1 e1) (S754_finite false m2 e2)).
Proof.
  unfold div, SFdiv, SFdiv_core_binary.
  set (e' := Z.min _ _). set (m' := match e1 - e2 - e' with 0 => _ | _ => _ end).
  assert (Hm' : 0 <= m').
  { subst m'. destruct (e1 - e2 - e'); try lia.
    rewrite Z.shiftl_mul_pow2 by lia. apply Z.mul_nonneg_nonneg; [lia|].
    apply Z.pow_nonneg. lia. }
  pose proof (div_eucl_pos m' (Z.pos m2) Hm' ltac:(lia)) as H.
  destruct (Z.div_eucl m' (Z.pos m2)) as [q r]. destruct H as [_ [_ Hq]].
  apply binary_round_aux_signed. exact Hq.
Qed.

(** The quotient of a positive finite Number by one that is not smaller is
    at most 1. *)
Lemma div_at_most_one m1 e1 m2 e2 :
  e1 <= 0 -> e2 <= 0 ->
  Z.pos m1 * 2 ^ (- e2) <= Z.pos m2 * 2 ^ (- e1) ->
  at_most 1 false (div (S754_finite false m1 e1) (S754_finite false m2 e2)).
Proof.
  intros He1 He2 Hle.
  unfold div, SFdiv, SFdiv_core_binary. cbn [Zdigits2 xorb].
  destruct (digits2_pos_bounds m1) as [Hlo1 _].
  destruct (digits2_pos_bounds m2) as [_ Hhi2].
  set (d1 := Z.pos (digits2_pos m1)) in *. set (d2 := Z.pos (digits2_pos m2)) in *.
  assert (P1 : 0 < 2 ^ (- e1)) by (apply Z.pow_pos_nonneg; lia).
  assert (P2 : 0 < 2 ^ (- e2)) by (apply Z.pow_pos_nonneg; lia).
  assert (Hd : d1 + e1 - (d2 + e2) <= 0).
  { assert (H : 2 ^ (d1 - 1 - e2) < 2 ^ (d2 - e1)).
    { replace (d1 - 1 - e2) with ((d1 - 1) + - e2) by lia.
      replace (d2 - e1) with (d2 + - e1) by lia.
      rewrite !Z.pow_add_r by (subst d1 d2; lia). nia. }
    apply Z.pow_lt_mono_r_iff in H; subst d1 d2; lia. }
  set (e' := Z.min (SpecFloat.fexp prec emax (d1 + e1 - (d2 + e2))) (e1 - e2)).
  assert (He' : e' <= 0 /\ e' <= e1 - e2).
  { subst e'. unfold SpecFloat.fexp, emin, prec, emax. lia. }
  destruct He' as [He' Hs].
  rewrite (shifted_mantissa m1 (e1 - e2 - e')) by lia.
  assert (Pe : 0 < 2 ^ (- e')) by (apply Z.pow_pos_nonneg; lia).
  assert (Hbound : Z.pos m1 * 2 ^ (e1 - e2 - e') <= Z.pos m2 * 2 ^ (- e')).
  { assert (H : Z.pos m1 * 2 ^ (e1 - e2 - e') * 2 ^ (- e1)
                <= Z.pos m2 * 2 ^ (- e') * 2 ^ (- e1)).
    { replace (Z.pos m1 * 2 ^ (e1 - e2 - e') * 2 ^ (- e1))
        with (Z.pos m1 * 2 ^ (- e2) * 2 ^ (- e')).
      - nia.
      - rewrite <- !Z.mul_assoc. f_equal. rewrite <- !Z.pow_add_r by lia. f_equal. lia. }
    nia. }
  pose proof (div_eucl_pos (Z.pos m1 * 2 ^ (e1 - e2 - e')) (Z.pos m2)
                ltac:(apply Z.mul_nonneg_nonneg; [lia|apply Z.pow_nonneg; lia]) ltac:(lia)) as H.
  destruct (Z.div_eucl _ (Z.pos m2)) as [q r]. destruct H as [Hqr [Hr Hq]].
  apply binary_round_aux_below; try lia.
  unfold below. rewrite Z.mul_1_l. split; [exact Hq|]. split; [nia|].
  intros Hloc. apply new_location_exact in Hloc. nia.
Qed.

Lemma of_Z_100 : of_Z 100 = S754_finite false 7036874417766400 (-46).
Proof. reflexivity. Qed.

Lemma mul_100_signed x : signed false x -> signed false (mul x (of_Z 100)).
Proof.
  rewrite of_Z_100. intros [|m e|]; unfold mul, SFmul; cbn [xorb]; try constructor.
  apply binary_round_aux_signed. lia.
Qed.

Lemma mul_100_at_most x : at_most 1 false x -> at_most 100 false (mul x (of_Z 100)).
Proof.
  rewrite of_Z_100. intros [|m e He Hm]; unfold mul, SFmul; cbn [xorb]; [constructor|].
  apply binary_round_aux_below; try lia.
  unfold below. rewrite Pos2Z.inj_mul.
  replace (- (e + -46)) with (- e + 46) by lia. rewrite Z.pow_add_r by lia.
  change (2 ^ 46) with 70368744177664. change (Z.pos 7036874417766400) with 7036874417766400.
  split; [lia|]. split; [nia|]. intros H; now contradiction H.
Qed.

(** *** Rounding to an integer *)

Lemma Math_round_signed x :
  signed false x ->
  (exists z, Math_round x = RInt z /\ 0 <= z) \/ Math_round x = RInf false.
Proof.
  intros [|m e|]; simpl.
  - left. exists 0. split; [reflexivity|lia].
  - left. eexists. split; [reflexivity|]. apply round_half_up_nonneg. lia.
  - now right.
Qed.

Lemma Math_round_at_most x :
  at_most 100 false x -> exists z, Math_round x = RInt z /\ 0 <= z <= 100.
Proof.
  intros [|m e He Hm]; simpl.
  - exists 0. split; [reflexivity|lia].
  - eexists. split; [reflexivity|]. split; [apply round_half_up_nonneg; lia|].
    unfold round_half_up. destruct (Z.leb_spec 0 e) as [H0|H0].
    + replace e with 0 in * by lia. simpl in Hm. lia.
    + assert (P : 0 < 2 ^ (- e)) by (apply Z.pow_pos_nonneg; lia).
      replace (- e + 1) with (Z.succ (- e)) by lia. rewrite Z.pow_succ_r by lia.
      apply Z.lt_succ_r. apply Z.div_lt_upper_bound; lia.
Qed.

End Binary64.

(** ** The sums of the code and the sums of the model *)

(** In the safe range the reduce of the code yields the Number of the
    integer sum. *)
Lemma reduceAmounts_exact {A : Type} (amount : A -> Z) arr :
  safeAmounts amount arr ->
  reduceAmounts amount arr = JSNumber.of_Z (fold_left (fun s t => s + amount t) arr 0).
Proof.
  intros [Hpos Hsum]. unfold reduceAmounts.
  rewrite (reduce_exact amount arr 0) by (try assumption; lia). reflexivity.
Qed.

(** A part of a list of safe amounts has safe amounts. *)
Lemma safeAmounts_filter {A : Type} (amount : A -> Z) (p : A -> bool) l :
  safeAmounts amount l -> safeAmounts amount (filter p l).
Proof.
  intros [Hpos Hsum]. split.
  - rewrite Forall_forall in *. intros t Ht. apply filter_In in Ht. now apply Hpos.
  - pose proof (fold_sum_filter amount p l Hpos). lia.
Qed.

Lemma filter_and {A : Type} (p q : A -> bool) l :
  filter (fun t => p t && q t) l = filter q (filter p l).
Proof.
  induction l as [|t l IH]; [reflexivity|]. cbn [filter].
  destruct (p t); cbn [andb filter]; [destruct (q t); now rewrite IH|exact IH].
Qed.

Lemma safeAmounts_range {A : Type} (amount : A -> Z) l :
  safeAmounts amount l -> 0 <= fold_left (fun s t => s + amount t) l 0 < 2 ^ 53.
Proof.
  intros [Hpos Hsum]. pose proof (fold_sum_filter amount (fun _ => true) l Hpos) as H.
  rewrite filter_true in H. lia.
Qed.

(** [Math.max(0, x)] of the Number of a safe integer. *)
Lemma Math_max2_zero z :
  - 2 ^ 53 < z < 2 ^ 53 ->
  JSNumber.Math_max2 (JSNumber.of_Z 0) (JSNumber.of_Z z) = JSNumber.of_Z (Z.max 0 z).
Proof.
  intros Hz. destruct z as [|p|p].
  - reflexivity.
  - rewrite Z.max_r by lia. rewrite of_Z_canonical by lia. reflexivity.
  - rewrite Z.max_l by lia. rewrite of_Z_canonical_neg by lia. reflexivity.
Qed.

(** ** Bars and ratio *)

(** The height of a bar is an integer between 4 and 100. *)
Lemma barHeight_range v max :
  0 <= v <= max -> 1 <= max < 2 ^ 53 -> integerIn 4 100 (barHeight v max).
Proof.
  intros Hv Hmax. unfold barHeight, integerIn.
  assert (Hq : at_most 1 false (JSNumber.div (JSNumber.of_Z v) (JSNumber.of_Z max))).
  { destruct (of_Z_exact max ltac:(lia)) as [m2 [e2 [E2 [He2 Hm2]]]]. rewrite E2.
    destruct (Z.eq_dec v 0) as [->|Hne].
    - cbn. constructor.
    - destruct (of_Z_exact v ltac:(lia)) as [m1 [e1 [E1 [He1 Hm1]]]]. rewrite E1.
      apply div_at_most_one; try assumption. rewrite Hm1, Hm2.
      assert (0 < 2 ^ (- e1)) by (apply Z.pow_pos_nonneg; lia).
      assert (0 < 2 ^ (- e2)) by (apply Z.pow_pos_nonneg; lia).
      nia. }
  destruct (Math_round_at_most _ (mul_100_at_most _ Hq)) as [z [-> Hz]].
  simpl. eexists. split; [reflexivity|]. lia.
Qed.

(** The ratio is an integer between 0 and 100. *)
Lemma spentRatio_range spent total :
  0 <= spent < 2 ^ 53 -> total < 2 ^ 53 -> integerIn 0 100 (spentRatio spent total).
Proof.
  intros Hs Ht. unfold spentRatio, integerIn.
  destruct (Z.gtb_spec total 0) as [Hpos|Hle]; [|exists 0; split; [reflexivity|lia]].
  assert (Hq : signed false (JSNumber.div (JSNumber.of_Z spent) (JSNumber.of_Z total))).
  { destruct (of_Z_exact total ltac:(lia)) as [m2 [e2 [E2 _]]]. rewrite E2.
    destruct (Z.eq_dec spent 0) as [->|Hne].
    - cbn. constructor.
    - destruct (of_Z_exact spent ltac:(lia)) as [m1 [e1 [E1 _]]]. rewrite E1.
      apply div_signed. }
  destruct (Math_round_signed _ (mul_100_signed _ Hq)) as [[z [-> Hz]]| ->]; simpl.
  - eexists. split; [reflexivity|]. lia.
  - exists 100. split; [reflexivity|lia].
Qed.

(** The quotient is a binary64 quotient: 29 of 200 is 14.5 in exact
    arithmetic and 14.499999999999998 in binary64, which rounds to 14. *)
Example spentRatio_binary64 : spentRatio 29 200 = JSNumber.RInt 14.
Proof. reflexivity. Qed.

(** The safe range matters: two amounts of 10^308 on one day add up to a
    sum that binary64 holds as +Infinity, and the quotient of two infinities
    is NaN. *)
Example barHeight_overflow : barHeight (2 * 10 ^ 308) (2 * 10 ^ 308) = JSNumber.RNaN.
Proof. vm_compute. reflexivity. Qed.

Lemma Math_max_spread_bounds values : forall a,
  a <= JSNumber.Math_max_spread a values /\
  (forall v, In v values -> v <= JSNumber.Math_max_spread a values) /\
  (forall b, a <= b -> (forall v, In v values -> v <= b) ->
             JSNumber.Math_max_spread a values <= b).
Proof.
  unfold JSNumber.Math_max_spread.
  induction values as [|x l IH]; intros a; simpl.
  - split; [lia|]. split; [intros v []|]. intros b Hb _. exact Hb.
  - destruct (IH (Z.max a x)) as [H1 [H2 H3]]. split; [lia|]. split.
    + intros v [<-|Hin]; [lia|now apply H2].
    + intros b Hb Hall. apply H3; [|intros v Hv; apply Hall; now right].
      specialize (Hall x (or_introl eq_refl)). lia.
Qed.

(** The bars drawn for a grouping of non-negative weights whose sum is a
    safe integer. *)
Lemma chart_bars_range {A : Type} (date : A -> string) (weight : A -> Z) n l :
  Forall (fun t => 0 <= weight t) l ->
  fold_left (fun s t => s + weight t) l 0 < 2 ^ 53 ->
  let byDate := groupByDateWith date weight l in
  let max := JSNumber.Math_max_spread 1 (map snd byDate) in
  1 <= max < 2 ^ 53 /\
  (exists m e, JSNumber.of_Z max = S754_finite false m e) /\
  Forall (integerIn 4 100) (map (fun p => barHeight (snd p) max) (JSArray.sliceLast n byDate)).
Proof.
  intros Hpos Hsum byDate max.
  destruct (Math_max_spread_bounds (map snd byDate) 1) as [H1 [H2 H3]]. fold max in H1, H2, H3.
  assert (Hval : forall p, In p byDate -> 0 <= snd p <= fold_left (fun s t => s + weight t) l 0).
  { intros [d v] Hin. apply (groupByDateWith_bounds date weight l d v Hpos Hin). }
  assert (Hmax : 1 <= max < 2 ^ 53).
  { split; [exact H1|]. apply Z.le_lt_trans with (Z.max 1 (fold_left (fun s t => s + weight t) l 0));
      [|lia].
    apply H3; [lia|]. intros v Hv. apply in_map_iff in Hv. destruct Hv as [p [<- Hp]].
    specialize (Hval p Hp). lia. }
  split; [exact Hmax|]. split.
  - destruct (of_Z_exact max ltac:(lia)) as [m [e [E _]]]. now exists m, e.
  - apply Forall_forall. intros h Hh. apply in_map_iff in Hh. destruct Hh as [p [<- Hp]].
    destruct (sliceLast_suffix n byDate) as [_ [[older Hold] _]].
    assert (Hin : In p byDate) by (rewrite Hold; apply in_or_app; now right).
    apply barHeight_range; [|exact Hmax]. split; [apply (Hval p Hin)|].
    apply H2. now apply in_map.
Qed.

Lemma sliceLast_all {A : Type} (l : list A) : JSArray.sliceLast (List.length l) l = l.
Proof. unfold JSArray.sliceLast. now rewrite Nat.sub_diag. Qed.

Lemma expense_weights txs :
  Forall (fun t => 0 <= Unified.amount t) (filter Unified.isExpense txs) ->
  Forall (fun t => 0 <= (if Unified.isExpense t then Unified.amount t else 0)) txs /\
  fold_left (fun s t => s + (if Unified.isExpense t then Unified.amount t else 0)) txs 0
  = fold_left (fun s t => s + Unified.amount t) (filter Unified.isExpense txs) 0.
Proof.
  induction txs as [|t l IH]; [split; [constructor|reflexivity]|].
  cbn [filter]. rewrite fold_sum_cons.
  destruct (Unified.isExpense t) eqn:Ht; intros H.
  - inversion H as [|? ? Ht0 Hl]; subst. destruct (IH Hl) as [IH1 IH2].
    split; [constructor; [now rewrite Ht|exact IH1]|].
    rewrite fold_sum_cons, IH2. reflexivity.
  - destruct (IH H) as [IH1 IH2].
    split; [constructor; [rewrite Ht; lia|exact IH1]|].
    rewrite IH2. lia.
Qed.

(** ** C4: the daily histogram *)

Lemma expenseOn_sumOn d txs :
  sumOn Unified.date (fun t => if Unified.isExpense t then Unified.amount t else 0) d txs
  = expenseOn d txs.
Proof.
  unfold expenseOn, Unified.sumAmounts.
  induction txs as [|t l IH]; [reflexivity|].
  rewrite sumOn_cons, IH. cbn [filter].
  destruct (Unified.isExpense t); destruct (String.eqb (Unified.date t) d); cbn [andb];
    rewrite ?fold_sum_cons; lia.
Qed.

(** [arr.slice(-n)] is the list without its first [length - n] elements:
    the last [n] elements, or all of them when there are no more than [n]. *)
Lemma sliceLast_length {A : Type} n (l : list A) :
  List.length (JSArray.sliceLast n l) = Nat.min n (List.length l).
Proof. unfold JSArray.sliceLast. rewrite length_skipn. lia. Qed.

(** The maximum over all the values is the maximum over the values shown
    when none of the others is larger. *)
Lemma max_spread_visible (all shown : list Z) :
  (forall v, In v shown -> In v all) ->
  (forall v, In v all -> v <= JSNumber.Math_max_spread 1 shown) ->
  JSNumber.Math_max_spread 1 all = JSNumber.Math_max_spread 1 shown.
Proof.
  intros Hsub Hle.
  destruct (Math_max_spread_bounds all 1) as [A1 [A2 A3]].
  destruct (Math_max_spread_bounds shown 1) as [S1 [S2 S3]].
  apply Z.le_antisymm.
  - apply A3; [exact S1|exact Hle].
  - apply S3; [exact A1|]. intros v Hv. apply A2. now apply Hsub.
Qed.

(** The histogram as the specification states it fails: the only
    transaction dated 2024-01-03 is an income, and the histogram has a point
    (of value 0, drawn with the minimum height) for that date. *)
Lemma C4_income_only_date_has_point :
  (forall t, In t salaryOnly -> Unified.isExpense t = false) /\
  Unified.groupByDate salaryOnly = [("2024-01-03"%string, 0)] /\
  Unified.renderMiniChart salaryOnly = [JSNumber.RInt 4] /\
  ~ groups_expenses_only salaryOnly (Unified.groupByDate salaryOnly).
Proof.
  split; [intros t [<-|[]]; reflexivity|].
  split; [reflexivity|]. split; [reflexivity|].
  intros H. destruct (proj1 (H "2024-01-03"%string)) as [t [Hin [He _]]].
  - left. reflexivity.
  - destruct Hin as [<-|[]]. discriminate.
Qed.

(** [C4] (amended) For every transaction list whose expense amounts are
    non-negative integers with a sum below 2^53, [groupByDate] has exactly
    one point for every date on which any transaction falls, incomes
    included; the value of the point is the sum of the amounts of the
    expense-typed transactions of that date (0 for a date with incomes
    only), an integer below 2^53 that the binary64 sum of those amounts
    yields; the points are sorted by date, strictly ascending; the chart
    shows the last 14 of them, in their order, and all of them when there
    are no more than 14; and when no point is larger than every point shown
    (so whenever there are no more than 14 points) the height of a bar is
    [max(4, round(v / max * 100))] where [max] is the maximum of 1 and the
    values of the points shown.  Expenses dated 2024-01-01, 2024-01-01,
    2024-01-02 of amounts 1000, 2000, 3000 yield the points
    [("2024-01-01",3000); ("2024-01-02",3000)], with two bars of height
    100. *)
Theorem C4_histogram :
  (forall txs,
      safeAmounts Unified.amount (filter Unified.isExpense txs) ->
      let points := Unified.groupByDate txs in
      let shown := Unified.last14 txs in
      let max := JSNumber.Math_max_spread 1 (map snd shown) in
      (forall d v, In (d, v) points <->
                   (exists t, In t txs /\ Unified.date t = d) /\ v = expenseOn d txs) /\
      (forall d v, In (d, v) points ->
                   0 <= v < 2 ^ 53 /\
                   reduceAmounts Unified.amount
                     (filter (fun t => Unified.isExpense t && String.eqb (Unified.date t) d) txs)
                   = JSNumber.of_Z v) /\
      (forall d, (forall t, In t txs -> Unified.date t = d -> Unified.isExpense t = false) ->
                 (exists t, In t txs /\ Unified.date t = d) -> In (d, 0) points) /\
      NoDup (map fst points) /\
      Sorted ascending points /\
      (exists older, points = older ++ shown) /\
      List.length shown = Nat.min 14 (List.length points) /\
      ((List.length points <= 14)%nat -> shown = points) /\
      ((forall p, In p points -> snd p <= max) ->
       Unified.renderMiniChart txs = map (fun p => barHeight (snd p) max) shown) /\
      ((List.length points <= 14)%nat ->
       Unified.renderMiniChart txs = map (fun p => barHeight (snd p) max) points) /\
      Forall (integerIn 4 100) (Unified.renderMiniChart txs)) /\
  Unified.groupByDate scenarioB = [("2024-01-01"%string, 3000); ("2024-01-02"%string, 3000)] /\
  Unified.renderMiniChart scenarioB = [JSNumber.RInt 100; JSNumber.RInt 100].
Proof.
  split; [|split; reflexivity].
  intros txs Hsafe points shown max. pose proof Hsafe as [Hpos Hsum].
  assert (Hsuf : exists older, points = older ++ shown)
    by exact (proj1 (proj2 (sliceLast_suffix 14 points))).
  assert (Hall : (List.length points <= 14)%nat -> shown = points)
    by exact (proj2 (proj2 (sliceLast_suffix 14 points))).
  assert (Hpoint : forall d v, In (d, v) points <->
                     (exists t, In t txs /\ Unified.date t = d) /\ v = expenseOn d txs).
  { intros d v. subst points. unfold Unified.groupByDate. rewrite groupByDateWith_point.
    now rewrite expenseOn_sumOn. }
  assert (Hvis : (forall p, In p points -> snd p <= max) ->
                 Unified.renderMiniChart txs = map (fun p => barHeight (snd p) max) shown).
  { intros Hle.
    change (Unified.renderMiniChart txs)
      with (map (fun p => barHeight (snd p) (JSNumber.Math_max_spread 1 (map snd points)))
              shown).
    rewrite (max_spread_visible (map snd points) (map snd shown)); [reflexivity| |].
    - destruct Hsuf as [older E]. intros v Hv. rewrite E, map_app. apply in_or_app. now right.
    - intros v Hv. apply in_map_iff in Hv. destruct Hv as [p [<- Hp]]. now apply Hle. }
  split; [exact Hpoint|].
  split.
  { intros d v Hin. apply Hpoint in Hin. destruct Hin as [_ ->].
    assert (Hd : safeAmounts Unified.amount
                   (filter (fun t => Unified.isExpense t && String.eqb (Unified.date t) d) txs)).
    { rewrite filter_and. now apply safeAmounts_filter. }
    split; [exact (safeAmounts_range _ _ Hd)|exact (reduceAmounts_exact _ _ Hd)]. }
  split.
  { intros d Hinc Hex. apply Hpoint. split; [exact Hex|].
    unfold expenseOn, Unified.sumAmounts.
    replace (filter (fun t => Unified.isExpense t && String.eqb (Unified.date t) d) txs)
      with (@nil Unified.tx); [reflexivity|].
    symmetry. clear - Hinc. induction txs as [|t l IH]; [reflexivity|]. cbn [filter].
    destruct (String.eqb_spec (Unified.date t) d) as [E|_].
    - rewrite (Hinc t (or_introl eq_refl) E). cbn [andb]. apply IH.
      intros t' Ht'. apply Hinc. now right.
    - rewrite andb_false_r. apply IH. intros t' Ht'. apply Hinc. now right. }
  split; [apply groupByDateWith_nodup|].
  split; [apply groupByDateWith_ascending|].
  split; [exact Hsuf|]. split; [apply sliceLast_length|]. split; [exact Hall|].
  split; [exact Hvis|].
  split.
  { intros Hlen. pose proof (Hall Hlen) as E. rewrite <- E. apply Hvis.
    intros p Hp. subst max. rewrite E.
    apply (proj1 (proj2 (Math_max_spread_bounds (map snd points) 1))). now apply in_map. }
  destruct (expense_weights txs Hpos) as [Hw Hs].
  assert (Hsum' : fold_left
                    (fun s t => s + (if Unified.isExpense t then Unified.amount t else 0))
                    txs 0 < 2 ^ 53) by (rewrite Hs; exact Hsum).
  exact (proj2 (proj2 (chart_bars_range Unified.date
                         (fun t => if Unified.isExpense t then Unified.amount t else 0)
                         14 txs Hw Hsum'))).
Qed.

(** In scenario B both points are shown, and the bars are normalized to
    the larger of them. *)
Lemma C4_witness :
  safeAmounts Unified.amount (filter Unified.isExpense scenarioB) /\
  Unified.last14 scenarioB = Unified.groupByDate scenarioB /\
  Unified.renderMiniChart scenarioB
  = map (fun p => barHeight (snd p) 3000) (Unified.groupByDate scenarioB).
Proof.
  assert (H : safeAmounts Unified.amount (filter Unified.isExpense scenarioB)).
  { split; [repeat constructor; simpl; lia|reflexivity]. }
  assert (Hlen : (List.length (Unified.groupByDate scenarioB) <= 14)%nat)
    by (vm_compute; repeat constructor).
  split; [exact H|].
  destruct (proj1 C4_histogram scenarioB H) as [_ [_ [_ [_ [_ [_ [_ [H1 [_ [H2 _]]]]]]]]]].
  split; [exact (H1 Hlen)|exact (H2 Hlen)].
Defined.

(** ** C10: the heights of the bars *)

(** The heights as the specification states them fail: two expenses of
    1e308 on one date pass the validation of a create; their sum is beyond
    the largest Number, the quotient [v / max] is NaN, and the height of
    the bar is NaN, not an integer between 4 and 100. *)
Lemma C10_overflow_bar_is_NaN :
  map Unified.date (filter Unified.isExpense (Unified.txs (Unified.st overflowWorld)))
  = ["2024-03-10"; "2024-03-10"]%string /\
  Forall (fun t => 0 < Unified.amount t) (Unified.txs (Unified.st overflowWorld)) /\
  reduceAmounts Unified.amount (filter Unified.isExpense (Unified.txs (Unified.st overflowWorld)))
  = S754_infinity false /\
  Unified.renderMiniChart (Unified.txs (Unified.st overflowWorld)) = [JSNumber.RNaN] /\
  ~ Forall (integerIn 4 100) (Unified.renderMiniChart (Unified.txs (Unified.st overflowWorld))).
Proof.
  assert (E : Unified.renderMiniChart (Unified.txs (Unified.st overflowWorld)) = [JSNumber.RNaN])
    by (vm_compute; reflexivity).
  split; [vm_compute; reflexivity|].
  split; [vm_compute; repeat constructor|].
  split; [vm_compute; reflexivity|].
  split; [exact E|]. rewrite E. intros H.
  inversion H as [|? ? [n [Hn _]] _]. discriminate.
Qed.

(** [C10] (amended) For every transaction list the denominator of the bar
    heights, the maximum of 1 and the grouped values, is at least 1, so the
    quotient never has a zero divisor.  For every transaction list whose
    expense amounts are non-negative integers with a sum below 2^53 -- the
    empty list and lists whose daily sums are all zero included -- the
    denominator is a finite Number and every bar height is an integer
    between 4 and 100.  The same holds for the chart of the legacy
    variant. *)
Theorem C10_bar_heights :
  (forall txs, 1 <= JSNumber.Math_max_spread 1 (map snd (Unified.groupByDate txs))) /\
  (forall expenses, 1 <= JSNumber.Math_max_spread 1 (map snd (Legacy.groupByDate expenses))) /\
  (forall txs,
      safeAmounts Unified.amount (filter Unified.isExpense txs) ->
      let max := JSNumber.Math_max_spread 1 (map snd (Unified.groupByDate txs)) in
      1 <= max /\
      (exists m e, JSNumber.of_Z max = S754_finite false m e) /\
      Forall (integerIn 4 100) (Unified.renderMiniChart txs)) /\
  (forall expenses,
      safeAmounts Legacy.amount expenses ->
      let max := JSNumber.Math_max_spread 1 (map snd (Legacy.groupByDate expenses)) in
      1 <= max /\
      (exists m e, JSNumber.of_Z max = S754_finite false m e) /\
      Forall (integerIn 4 100) (Legacy.renderMiniChart expenses)) /\
  Unified.renderMiniChart [] = [] /\
  Legacy.renderMiniChart [] = [] /\
  Unified.renderMiniChart salaryOnly = [JSNumber.RInt 4].
Proof.
  split; [intros txs; exact (proj1 (Math_max_spread_bounds _ 1))|].
  split; [intros expenses; exact (proj1 (Math_max_spread_bounds _ 1))|].
  split; [|split; [|repeat split]].
  - intros txs [Hpos Hsum] max.
    destruct (expense_weights txs Hpos) as [Hw Hs].
    assert (Hsum' : fold_left
                      (fun s t => s + (if Unified.isExpense t then Unified.amount t else 0))
                      txs 0 < 2 ^ 53) by (rewrite Hs; exact Hsum).
    destruct (chart_bars_range Unified.date
                (fun t => if Unified.isExpense t then Unified.amount t else 0) 14 txs Hw Hsum')
      as [[H1 _] [H2 H3]].
    split; [exact H1|]. split; [exact H2|exact H3].
  - intros expenses [Hpos Hsum] max.
    destruct (chart_bars_range Legacy.date Legacy.amount
                (List.length (Legacy.groupByDate expenses)) expenses Hpos Hsum)
      as [[H1 _] [H2 H3]].
    split; [exact H1|]. split; [exact H2|].
    unfold Legacy.groupByDate in H3. rewrite sliceLast_all in H3. exact H3.
Qed.

(** The chart of scenario B: two bars of full height. *)
Lemma C10_witness :
  safeAmounts Unified.amount (filter Unified.isExpense scenarioB) /\
  Forall (integerIn 4 100) (Unified.renderMiniChart scenarioB) /\
  Unified.renderMiniChart scenarioB = [JSNumber.RInt 100; JSNumber.RInt 100].
Proof.
  assert (H : safeAmounts Unified.amount (filter Unified.isExpense scenarioB)).
  { split; [repeat constructor; simpl; lia|reflexivity]. }
  split; [exact H|]. split; [|reflexivity].
  exact (proj2 (proj2 (proj1 (proj2 (proj2 C10_bar_heights)) scenarioB H))).
Defined.

(** ** C1: the balance *)

Lemma sumAmounts_totalOf type txs :
  Unified.sumAmounts (filter (fun t => String.eqb (Unified.type t) type) txs)
  = totalOf type txs.
Proof.
  unfold Unified.sumAmounts.
  induction txs as [|t l IH]; [reflexivity|].
  cbn [filter totalOf]. destruct (String.eqb (Unified.type t) type).
  - now rewrite fold_sum_cons, IH.
  - rewrite IH. lia.
Qed.

(** The balance as the specification states it fails: two incomes and two
    expenses of 1e308 pass the validation of a create; each of the two sums
    is beyond the largest Number, the quotient of the two is NaN, and the
    ratio shown is NaN, not an integer between 0 and 100. *)
Lemma C1_overflow_ratio_is_NaN :
  map Unified.type (Unified.txs (Unified.st overflowWorld))
  = ["expense"; "expense"; "income"; "income"]%string /\
  Forall (fun t => 0 < Unified.amount t) (Unified.txs (Unified.st overflowWorld)) /\
  reduceAmounts Unified.amount (filter Unified.isIncome (Unified.txs (Unified.st overflowWorld)))
  = S754_infinity false /\
  reduceAmounts Unified.amount (filter Unified.isExpense (Unified.txs (Unified.st overflowWorld)))
  = S754_infinity false /\
  JSNumber.div (S754_infinity false) (S754_infinity false) = S754_nan /\
  Unified.progressBar (Unified.computeAndRender 0 sampleNow (Unified.st overflowWorld))
  = JSNumber.RNaN /\
  ~ integerIn 0 100
      (Unified.progressBar (Unified.computeAndRender 0 sampleNow (Unified.st overflowWorld))).
Proof.
  assert (E : Unified.progressBar (Unified.computeAndRender 0 sampleNow (Unified.st overflowWorld))
              = JSNumber.RNaN) by (vm_compute; reflexivity).
  split; [vm_compute; reflexivity|].
  split; [vm_compute; repeat constructor|].
  split; [vm_compute; reflexivity|]. split; [vm_compute; reflexivity|].
  split; [reflexivity|].
  split; [exact E|]. rewrite E. intros [n [H _]]. discriminate.
Qed.

(** [C1] (amended) For every transaction list whose income amounts and
    whose expense amounts are non-negative integers with sums below 2^53
    (the range in which the sums of Numbers are exact), the balance shown by
    [computeAndRender] is: income = the sum of the amounts of the
    income-typed transactions, spent = the sum of the amounts of the
    expense-typed transactions, available = income - spent, shown as it is
    and negative when spent exceeds income -- the binary64 sums and the
    binary64 difference of the code are these integers; the ratio is an
    integer between 0 and 100, it is 0 when the income is 0 and when nothing
    was spent, and otherwise it is [Math.round(spent / income * 100)],
    computed in binary64, capped at 100.  One income of 500000 and one
    expense of 120000 give available = 380000 and ratio = 24; an expense of
    120000 alone gives available = -120000. *)
Theorem C1_balance :
  (forall LocalTZA now s,
      safeAmounts Unified.amount (filter Unified.isIncome (Unified.txs s)) ->
      safeAmounts Unified.amount (filter Unified.isExpense (Unified.txs s)) ->
      let v := Unified.computeAndRender LocalTZA now s in
      let income := totalOf "income" (Unified.txs s) in
      let spent := totalOf "expense" (Unified.txs s) in
      Unified.incomeDisplay v = income /\
      Unified.spentDisplay v = spent /\
      Unified.availableDisplay v = income - spent /\
      reduceAmounts Unified.amount (filter Unified.isIncome (Unified.txs s))
      = JSNumber.of_Z income /\
      reduceAmounts Unified.amount (filter Unified.isExpense (Unified.txs s))
      = JSNumber.of_Z spent /\
      JSNumber.sub (JSNumber.of_Z income) (JSNumber.of_Z spent) = JSNumber.of_Z (income - spent) /\
      (income < spent -> Unified.availableDisplay v < 0) /\
      integerIn 0 100 (Unified.progressBar v) /\
      (income = 0 -> Unified.progressBar v = JSNumber.RInt 0) /\
      (spent = 0 -> Unified.progressBar v = JSNumber.RInt 0) /\
      (0 < income ->
       Unified.progressBar v
       = JSNumber.Math_min 100
           (JSNumber.Math_round
              (JSNumber.mul (JSNumber.div (JSNumber.of_Z spent) (JSNumber.of_Z income))
                 (JSNumber.of_Z 100))))) /\
  (let v := Unified.computeAndRender 0 sampleNow (stateOf scenarioA) in
   Unified.availableDisplay v = 380000 /\ Unified.progressBar v = JSNumber.RInt 24) /\
  Unified.availableDisplay
    (Unified.computeAndRender 0 sampleNow (stateOf [mkTx 1 "expense" 120000 "2024-03-10"]))
  = -120000.
Proof.
  split; [|split; [split|]; reflexivity].
  intros tza now s Hsi Hse v income spent.
  pose proof Hsi as [Hipos Hisum]. pose proof Hse as [Hepos Hesum].
  assert (Hi : Unified.incomeDisplay v = income) by apply sumAmounts_totalOf.
  assert (He : Unified.spentDisplay v = spent) by apply sumAmounts_totalOf.
  assert (Hr : Unified.progressBar v = spentRatio spent income).
  { subst v. cbn [Unified.computeAndRender Unified.progressBar].
    unfold Unified.isIncome, Unified.isExpense. now rewrite !sumAmounts_totalOf. }
  assert (Ha : Unified.availableDisplay v = income - spent).
  { subst v. cbn [Unified.computeAndRender Unified.availableDisplay].
    unfold Unified.isIncome, Unified.isExpense. now rewrite !sumAmounts_totalOf. }
  assert (Hirange : 0 <= income < 2 ^ 53).
  { rewrite <- Hi. subst v. cbn [Unified.computeAndRender Unified.incomeDisplay].
    pose proof (fold_sum_filter Unified.amount (fun _ => true) _ Hipos) as H.
    unfold Unified.sumAmounts. lia. }
  assert (Herange : 0 <= spent < 2 ^ 53).
  { rewrite <- He. subst v. cbn [Unified.computeAndRender Unified.spentDisplay].
    pose proof (fold_sum_filter Unified.amount (fun _ => true) _ Hepos) as H.
    unfold Unified.sumAmounts. lia. }
  split; [exact Hi|]. split; [exact He|]. split; [exact Ha|].
  split; [rewrite (reduceAmounts_exact _ _ Hsi); f_equal; exact Hi|].
  split; [rewrite (reduceAmounts_exact _ _ Hse); f_equal; exact He|].
  split; [apply sub_exact; lia|].
  split; [lia|].
  split; [rewrite Hr; apply spentRatio_range; lia|].
  split; [intros H0; rewrite Hr, H0; reflexivity|].
  split.
  - intros H0. rewrite Hr, H0. unfold spentRatio.
    destruct (Z.gtb_spec income 0) as [Hpos|_]; [|reflexivity].
    destruct (of_Z_exact income ltac:(lia)) as [m [e [E _]]]. rewrite E. reflexivity.
  - intros Hpos. rewrite Hr. unfold spentRatio.
    destruct (Z.gtb_spec income 0) as [_|Hle]; [reflexivity|lia].
Qed.

(** The balance of scenario A. *)
Lemma C1_witness :
  safeAmounts Unified.amount (filter Unified.isIncome (Unified.txs (stateOf scenarioA))) /\
  safeAmounts Unified.amount (filter Unified.isExpense (Unified.txs (stateOf scenarioA))) /\
  Unified.incomeDisplay (Unified.computeAndRender 0 sampleNow (stateOf scenarioA)) = 500000 /\
  Unified.spentDisplay (Unified.computeAndRender 0 sampleNow (stateOf scenarioA)) = 120000 /\
  integerIn 0 100 (Unified.progressBar (Unified.computeAndRender 0 sampleNow (stateOf scenarioA))).
Proof.
  assert (Hi : safeAmounts Unified.amount
                 (filter Unified.isIncome (Unified.txs (stateOf scenarioA)))).
  { split; [repeat constructor; simpl; lia|reflexivity]. }
  assert (He : safeAmounts Unified.amount
                 (filter Unified.isExpense (Unified.txs (stateOf scenarioA)))).
  { split; [repeat constructor; simpl; lia|reflexivity]. }
  split; [exact Hi|]. split; [exact He|].
  destruct (proj1 C1_balance 0 sampleNow (stateOf scenarioA) Hi He)
    as [H1 [H2 [_ [_ [_ [_ [_ [H3 _]]]]]]]].
  split; [exact H1|]. split; [exact H2|exact H3].
Defined.

(* ===================================================================== *)
(** * Further properties of the code *)
(* ===================================================================== *)

(** ** Keys of an object store *)

Section StoreKeys.
Context {A : Type}.
Implicit Types (s : IDB.objectStore A) (l : list (Z * A)).

Lemma lookup_In k v l : IDB.lookup k l = Some v -> In (k, v) l.
Proof.
  induction l as [|[k' v'] l IH]; simpl; [discriminate|].
  destruct (Z.eqb_spec k k') as [->|Hne]; [intros [= ->]; now left|].
  intros H. right. now apply IH.
Qed.

Lemma lookup_app_keep k v l more :
  IDB.lookup k l = Some v -> IDB.lookup k (l ++ more) = Some v.
Proof.
  induction l as [|[k' v'] l IH]; simpl; [discriminate|].
  destruct (k =? k'); [trivial|exact IH].
Qed.

Lemma lookup_app_fresh k v l :
  (forall kv, In kv l -> fst kv <> k) -> IDB.lookup k (l ++ [(k, v)]) = Some v.
Proof.
  induction l as [|[k' v'] l IH]; simpl; intros H.
  - now rewrite Z.eqb_refl.
  - destruct (Z.eqb_spec k k') as [->|Hne].
    + exfalso. now apply (H (k', v')); [left|].
    + apply IH. intros kv Hin. apply H. now right.
Qed.

Lemma lookup_app_other k k' v l :
  k' <> k -> IDB.lookup k' (l ++ [(k, v)]) = IDB.lookup k' l.
Proof.
  intros Hne. induction l as [|[k0 v0] l IH]; simpl.
  - destruct (Z.eqb_spec k' k); [contradiction|reflexivity].
  - destruct (k' =? k0); [reflexivity|exact IH].
Qed.

Lemma lookup_upsert_same k v l : IDB.lookup k (IDB.upsert k v l) = Some v.
Proof.
  induction l as [|[k' v'] l IH]; simpl.
  - now rewrite Z.eqb_refl.
  - destruct (Z.eqb_spec k k') as [->|Hne]; simpl.
    + now rewrite Z.eqb_refl.
    + destruct (k <? k'); simpl.
      * now rewrite Z.eqb_refl.
      * destruct (Z.eqb_spec k k'); [contradiction|exact IH].
Qed.

Lemma lookup_upsert_other k k' v l :
  k' <> k -> IDB.lookup k' (IDB.upsert k v l) = IDB.lookup k' l.
Proof.
  intros Hne. induction l as [|[k0 v0] l IH]; simpl.
  - destruct (Z.eqb_spec k' k); [contradiction|reflexivity].
  - destruct (Z.eqb_spec k k0) as [->|Hne0]; simpl.
    + destruct (Z.eqb_spec k' k0); [contradiction|reflexivity].
    + destruct (k <? k0); simpl.
      * destruct (Z.eqb_spec k' k); [contradiction|reflexivity].
      * destruct (k' =? k0); [reflexivity|exact IH].
Qed.

(** With strictly ascending keys, replacing the value of a key that the
    store holds leaves the keys as they are. *)
Lemma upsert_keys k v l :
  Sorted Z.lt (map fst l) -> In k (map fst l) ->
  map fst (IDB.upsert k v l) = map fst l.
Proof.
  intros Hs. apply Sorted_StronglySorted in Hs; [|exact Z.lt_trans].
  induction l as [|[k' v'] l IH]; simpl; intros Hin; [contradiction|].
  inversion Hs as [|? ? Hs' Hall]; subst.
  destruct (Z.eqb_spec k k') as [->|Hne]; [reflexivity|].
  destruct Hin as [Heq|Hin]; [congruence|].
  rewrite Forall_forall in Hall. specialize (Hall k Hin).
  destruct (Z.ltb_spec k k'); [lia|]. simpl. f_equal. now apply IH.
Qed.

Lemma upsert_same_value k v l :
  Sorted Z.lt (map fst l) -> IDB.lookup k l = Some v -> IDB.upsert k v l = l.
Proof.
  intros Hs. apply Sorted_StronglySorted in Hs; [|exact Z.lt_trans].
  induction l as [|[k' v'] l IH]; simpl; [discriminate|].
  inversion Hs as [|? ? Hs' Hall]; subst.
  destruct (Z.eqb_spec k k') as [->|Hne]; [now intros [= ->]|].
  intros Hl. pose proof (lookup_In _ _ _ Hl) as Hin.
  rewrite Forall_forall in Hall. specialize (Hall k (in_map fst _ _ Hin)). simpl in Hall.
  destruct (Z.ltb_spec k k'); [lia|]. f_equal. now apply IH.
Qed.

Lemma wellKeyed_create (indexes : list string) :
  wellKeyed (IDB.createObjectStore (A := A) indexes).
Proof. split; [constructor|]. split; [reflexivity|constructor]. Qed.

Lemma wellKeyed_fresh s : wellKeyed s -> IDB.get s (IDB.keyGenerator s) = None.
Proof.
  intros [_ [_ Hk]]. unfold IDB.get. rewrite Forall_forall in Hk.
  destruct (IDB.lookup _ _) as [v|] eqn:Hl; [|reflexivity].
  apply lookup_In in Hl. specialize (Hk _ Hl). simpl in Hk. lia.
Qed.

Lemma wellKeyed_positive s k v :
  wellKeyed s -> IDB.get s k = Some v -> 0 < k < IDB.keyGenerator s.
Proof.
  intros [_ [_ Hk]] Hg. rewrite Forall_forall in Hk. apply (Hk _ (lookup_In _ _ _ Hg)).
Qed.

Lemma sorted_app_last (l : list Z) k :
  Sorted Z.lt l -> Forall (fun x => x < k) l -> Sorted Z.lt (l ++ [k]).
Proof.
  induction 1 as [|x l Hs IH Hhd]; intros Hall; simpl; [repeat constructor|].
  inversion Hall as [|? ? Hx Hl]; subst.
  constructor; [now apply IH|].
  destruct Hhd; simpl; constructor; assumption.
Qed.

Lemma add_wellKeyed s value : wellKeyed s -> wellKeyed (fst (IDB.add s value)).
Proof.
  intros [Hs [Hg Hk]]. unfold IDB.add, wellKeyed; simpl. split; [|split; [lia|]].
  - rewrite map_app. simpl. apply sorted_app_last; [exact Hs|].
    rewrite Forall_map. eapply Forall_impl; [|exact Hk]. simpl. intros; lia.
  - apply Forall_app. split.
    + eapply Forall_impl; [|exact Hk]. simpl. intros; lia.
    + repeat constructor; simpl; lia.
Qed.

Lemma get_add_same s value :
  wellKeyed s ->
  IDB.get (fst (IDB.add s value)) (snd (IDB.add s value)) = Some (value (IDB.keyGenerator s)).
Proof.
  intros [_ [_ Hk]]. unfold IDB.get, IDB.add; simpl. apply lookup_app_fresh.
  rewrite Forall_forall in Hk. intros kv Hin. specialize (Hk kv Hin). lia.
Qed.

Lemma get_add_other s value k :
  k <> IDB.keyGenerator s -> IDB.get (fst (IDB.add s value)) k = IDB.get s k.
Proof. intros Hne. unfold IDB.get, IDB.add; simpl. now apply lookup_app_other. Qed.

Lemma get_add_keep s value k v :
  IDB.get s k = Some v -> IDB.get (fst (IDB.add s value)) k = Some v.
Proof. unfold IDB.get, IDB.add; simpl. apply lookup_app_keep. Qed.

Lemma getAll_add s value :
  IDB.getAll (fst (IDB.add s value)) = IDB.getAll s ++ [value (IDB.keyGenerator s)].
Proof. unfold IDB.getAll, IDB.add; simpl. now rewrite map_app. Qed.

Lemma get_put_same s k v : IDB.get (IDB.put s k v) k = Some v.
Proof. apply lookup_upsert_same. Qed.

Lemma get_put_other s k k' v : k' <> k -> IDB.get (IDB.put s k v) k' = IDB.get s k'.
Proof. apply lookup_upsert_other. Qed.

Lemma put_wellKeyed s k v v0 :
  wellKeyed s -> IDB.get s k = Some v0 -> wellKeyed (IDB.put s k v).
Proof.
  intros Hw Hg. pose proof (wellKeyed_positive _ _ _ Hw Hg) as Hk.
  destruct Hw as [Hs [Hgen Hall]].
  assert (Hin : In k (map fst (IDB.records s))).
  { change k with (fst (k, v0)). apply in_map. now apply lookup_In. }
  unfold wellKeyed, IDB.put; simpl.
  rewrite (upsert_keys _ _ _ Hs Hin).
  replace (Z.max (IDB.keyGenerator s) (k + 1)) with (IDB.keyGenerator s) by lia.
  split; [exact Hs|]. split; [exact Hgen|].
  rewrite Forall_forall in *. intros kv Hkv.
  assert (Hfst : In (fst kv) (map fst (IDB.records s))).
  { rewrite <- (upsert_keys k v _ Hs Hin). now apply in_map. }
  apply in_map_iff in Hfst. destruct Hfst as [kv' [Heq Hkv']].
  rewrite <- Heq. now apply Hall.
Qed.

Lemma put_same_value s k v : wellKeyed s -> IDB.get s k = Some v -> IDB.put s k v = s.
Proof.
  intros Hw Hg. pose proof (wellKeyed_positive _ _ _ Hw Hg) as Hk.
  destruct Hw as [Hs _]. unfold IDB.put. destruct s as [recs gen idx]; simpl in *.
  rewrite (upsert_same_value _ _ _ Hs Hg). f_equal. lia.
Qed.

Lemma filter_sorted (p : Z * A -> bool) l :
  Sorted Z.lt (map fst l) -> Sorted Z.lt (map fst (filter p l)).
Proof.
  intros Hs. apply Sorted_StronglySorted in Hs; [|exact Z.lt_trans].
  apply StronglySorted_Sorted.
  induction l as [|kv l IH]; simpl; [constructor|].
  inversion Hs as [|? ? Hs' Hall]; subst.
  destruct (p kv); simpl; [|now apply IH].
  constructor; [now apply IH|].
  rewrite Forall_forall in *. intros x Hx. apply Hall.
  apply in_map_iff in Hx. destruct Hx as [kv' [<- Hin]].
  apply filter_In in Hin. apply in_map. tauto.
Qed.

Lemma delete_wellKeyed s k : wellKeyed s -> wellKeyed (IDB.delete s k).
Proof.
  intros [Hs [Hg Hall]]. unfold wellKeyed, IDB.delete; simpl.
  split; [now apply filter_sorted|]. split; [exact Hg|].
  rewrite Forall_forall in *. intros kv Hin. apply filter_In in Hin. now apply Hall.
Qed.

End StoreKeys.

(** ** Amounts *)

Lemma parseAmount_finite m e :
  parseAmount (S754_finite false m e) = JSNumber.round_half_up (Z.pos m) e.
Proof. reflexivity. Qed.

Lemma parseAmount_of_Z z : 0 <= z < 2 ^ 53 -> parseAmount (JSNumber.of_Z z) = z.
Proof.
  intros [H0 H]. destruct (Z.eq_dec z 0) as [->|Hne]; [reflexivity|].
  destruct (of_Z_exact z ltac:(lia)) as [m [e [E [He Hm]]]].
  rewrite E, parseAmount_finite. unfold JSNumber.round_half_up.
  destruct (Z.leb_spec 0 e) as [Hle|Hlt].
  - replace e with 0 in * by lia. simpl in Hm. lia.
  - rewrite Hm. replace (- e + 1) with (Z.succ (- e)) by lia.
    rewrite Z.pow_succ_r by lia.
    assert (P : 0 < 2 ^ (- e)) by (apply Z.pow_pos_nonneg; lia).
    symmetry. apply Z.div_unique with (r := 2 ^ (- e)); lia.
Qed.

Lemma parseAmount_nearest m e :
  e < 0 ->
  (2 * parseAmount (S754_finite false m e) - 1) * 2 ^ (- e) <= 2 * Z.pos m
  < (2 * parseAmount (S754_finite false m e) + 1) * 2 ^ (- e).
Proof.
  intros He. rewrite parseAmount_finite. unfold JSNumber.round_half_up.
  destruct (Z.leb_spec 0 e) as [Hle|_]; [lia|].
  replace (- e + 1) with (Z.succ (- e)) by lia. rewrite Z.pow_succ_r by lia.
  assert (P : 0 < 2 ^ (- e)) by (apply Z.pow_pos_nonneg; lia).
  set (p := 2 ^ (- e)) in *.
  pose proof (Z.div_mod (2 * Z.pos m + p) (2 * p) ltac:(lia)) as Hd.
  pose proof (Z.mod_pos_bound (2 * Z.pos m + p) (2 * p) ltac:(lia)) as Hr.
  set (q := (2 * Z.pos m + p) / (2 * p)) in *. nia.
Qed.

(** [X2] [parseAmount] keeps an integer amount as it is, for every integer
    from 0 up to 2^53, and rounds a positive Number to the nearest integer,
    a half going up: a Number [m * 2^e] with [e >= 0] is an integer and is
    kept, and for [e < 0] the result [n] satisfies
    [n - 1/2 <= m * 2^e < n + 1/2].  So 2.5 gives 3, 0.5 gives 1 and 0.375
    gives 0. *)
Theorem parseAmount_rounds_half_up :
  (forall z, 0 <= z < 2 ^ 53 -> parseAmount (JSNumber.of_Z z) = z) /\
  (forall m e, 0 <= e -> parseAmount (S754_finite false m e) = Z.pos m * 2 ^ e) /\
  (forall m e, e < 0 ->
     (2 * parseAmount (S754_finite false m e) - 1) * 2 ^ (- e) <= 2 * Z.pos m
     < (2 * parseAmount (S754_finite false m e) + 1) * 2 ^ (- e)) /\
  parseAmount (S754_finite false 5629499534213120 (-51)) = 3 /\
  parseAmount (S754_finite false 4503599627370496 (-53)) = 1 /\
  parseAmount (S754_finite false 6755399441055744 (-54)) = 0.
Proof.
  split; [exact parseAmount_of_Z|]. split; [|split; [exact parseAmount_nearest|]].
  - intros m e He. rewrite parseAmount_finite. unfold JSNumber.round_half_up.
    destruct (Z.leb_spec 0 e); [reflexivity|lia].
  - repeat split.
Qed.

Lemma parseAmount_rounds_half_up_witness :
  0 <= 120000 < 2 ^ 53 /\ parseAmount (JSNumber.of_Z 120000) = 120000.
Proof.
  assert (H : 0 <= 120000 < 2 ^ 53) by (split; [discriminate|reflexivity]).
  split; [exact H|]. exact (proj1 parseAmount_rounds_half_up 120000 H).
Defined.

(** ** Sums in binary64 *)

(** [X29] The sum that the reduce of [computeAndRender] computes in
    binary64 is the integer sum of the amounts as long as the amounts are
    non-negative integers with a sum below 2^53, in both variants, and so
    is the difference of two integers from 0 up to 2^53.  Beyond that range
    the Numbers round: 2^53 + 1 + 1 yields 2^53, 2^60 - 1 yields 2^60, and
    1e308 + 1e308 yields +Infinity. *)
Theorem safe_sums_are_exact :
  (forall txs,
      safeAmounts Unified.amount txs ->
      reduceAmounts Unified.amount txs = JSNumber.of_Z (Unified.sumAmounts txs)) /\
  (forall expenses,
      safeAmounts Legacy.amount expenses ->
      reduceAmounts Legacy.amount expenses = JSNumber.of_Z (Legacy.sumAmounts expenses)) /\
  (forall a b,
      0 <= a < 2 ^ 53 -> 0 <= b < 2 ^ 53 ->
      JSNumber.sub (JSNumber.of_Z a) (JSNumber.of_Z b) = JSNumber.of_Z (a - b)) /\
  reduceAmounts (fun z : Z => z) [2 ^ 53; 1; 1] = JSNumber.of_Z (2 ^ 53) /\
  JSNumber.sub (JSNumber.of_Z (2 ^ 60)) (JSNumber.of_Z 1) = JSNumber.of_Z (2 ^ 60) /\
  reduceAmounts (fun z : Z => z) [10 ^ 308; 10 ^ 308] = S754_infinity false.
Proof.
  split; [intros txs H; exact (reduceAmounts_exact _ _ H)|].
  split; [intros expenses H; exact (reduceAmounts_exact _ _ H)|].
  split; [exact sub_exact|].
  split; [vm_compute; reflexivity|]. split; vm_compute; reflexivity.
Qed.

Lemma safe_sums_are_exact_witness :
  safeAmounts Unified.amount scenarioA /\
  reduceAmounts Unified.amount scenarioA = JSNumber.of_Z 620000 /\
  JSNumber.sub (JSNumber.of_Z 120000) (JSNumber.of_Z 500000) = JSNumber.of_Z (-380000).
Proof.
  assert (H : safeAmounts Unified.amount scenarioA).
  { split; [repeat constructor; simpl; lia|reflexivity]. }
  split; [exact H|]. split.
  - rewrite (proj1 safe_sums_are_exact scenarioA H). reflexivity.
  - rewrite (proj1 (proj2 (proj2 safe_sums_are_exact)) 120000 500000) by lia. reflexivity.
Defined.

(** ** Date strings *)

Lemma digit_digitChar n : JSDate.digit (JSDate.digitChar n) = Some (n mod 10).
Proof.
  unfold JSDate.digitChar.
  pose proof (Z.mod_pos_bound n 10 ltac:(lia)) as Hr.
  assert (C : n mod 10 = 0 \/ n mod 10 = 1 \/ n mod 10 = 2 \/ n mod 10 = 3 \/ n mod 10 = 4
              \/ n mod 10 = 5 \/ n mod 10 = 6 \/ n mod 10 = 7 \/ n mod 10 = 8 \/ n mod 10 = 9)
    by lia.
  repeat (destruct C as [C|C]; [rewrite C; reflexivity|]). rewrite C. reflexivity.
Qed.

Lemma digits_pad4 n :
  0 <= n <= 9999 ->
  JSDate.digits [JSDate.digitChar (n / 1000); JSDate.digitChar (n / 100);
                 JSDate.digitChar (n / 10); JSDate.digitChar n] 0 = Some n.
Proof.
  intros Hn. cbn [JSDate.digits]. rewrite !digit_digitChar. f_equal. divlia.
Qed.

Lemma digits_pad2 n :
  0 <= n <= 99 ->
  JSDate.digits [JSDate.digitChar (n / 10); JSDate.digitChar n] 0 = Some n.
Proof.
  intros Hn. cbn [JSDate.digits]. rewrite !digit_digitChar. f_equal. divlia.
Qed.

Lemma parseFields_chars y1 y2 y3 y4 m1 m2 d1 d2 :
  JSDate.parseFields
    (String y1 (String y2 (String y3 (String y4 (String "-"
       (String m1 (String m2 (String "-" (String d1 (String d2 EmptyString))))))))))
  = match JSDate.digits [y1; y2; y3; y4] 0, JSDate.digits [m1; m2] 0,
          JSDate.digits [d1; d2] 0 with
    | Some y, Some m, Some d =>
        if (1 <=? m) && (m <=? 12) && (1 <=? d) && (d <=? JSDate.DaysInMonth y (m - 1))
        then Some (y, m, d) else None
    | _, _, _ => None
    end.
Proof. reflexivity. Qed.

Lemma toISODate_chars t :
  JSDate.toISODate t =
  String (JSDate.digitChar (JSDate.YearFromTime t / 1000))
    (String (JSDate.digitChar (JSDate.YearFromTime t / 100))
       (String (JSDate.digitChar (JSDate.YearFromTime t / 10))
          (String (JSDate.digitChar (JSDate.YearFromTime t))
             (String "-"
                (String (JSDate.digitChar ((JSDate.MonthFromTime t + 1) / 10))
                   (String (JSDate.digitChar (JSDate.MonthFromTime t + 1))
                      (String "-"
                         (String (JSDate.digitChar (JSDate.DateFromTime t / 10))
                            (String (JSDate.digitChar (JSDate.DateFromTime t))
                               EmptyString))))))))).
Proof. reflexivity. Qed.

(** The date that [todayStr] prints reads back as the UTC fields of the
    clock reading. *)
Lemma parseFields_todayStr now :
  0 <= JSDate.YearFromTime now <= 9999 ->
  JSDate.parseFields (todayStr now)
  = Some (JSDate.YearFromTime now, JSDate.MonthFromTime now + 1, JSDate.DateFromTime now).
Proof.
  intros Hy. unfold todayStr. rewrite toISODate_chars, parseFields_chars.
  destruct (MakeDay_of_civil (JSDate.Day now)) as [Hm [Hd _]].
  fold (JSDate.MonthFromTime now) in Hm, Hd. fold (JSDate.YearFromTime now) in Hd.
  fold (JSDate.DateFromTime now) in Hd.
  pose proof (DaysInMonth_range (JSDate.YearFromTime now) (JSDate.MonthFromTime now) Hm) as Hdim.
  rewrite digits_pad4 by exact Hy. rewrite !digits_pad2 by lia.
  replace (JSDate.MonthFromTime now + 1 - 1) with (JSDate.MonthFromTime now) by lia.
  replace ((1 <=? JSDate.MonthFromTime now + 1) && (JSDate.MonthFromTime now + 1 <=? 12)
           && (1 <=? JSDate.DateFromTime now)
           && (JSDate.DateFromTime now
               <=? JSDate.DaysInMonth (JSDate.YearFromTime now) (JSDate.MonthFromTime now)))
    with true; [reflexivity|].
  symmetry. rewrite !andb_true_iff, !Z.leb_le. lia.
Qed.

Lemma dayNumber_todayStr now :
  0 <= JSDate.YearFromTime now <= 9999 -> dayNumber (todayStr now) = Some (JSDate.Day now).
Proof.
  intros Hy. unfold dayNumber. rewrite (parseFields_todayStr now Hy).
  replace (JSDate.MonthFromTime now + 1 - 1) with (JSDate.MonthFromTime now) by lia.
  f_equal. apply MakeDay_of_civil.
Qed.

Lemma parse_dayNumber s :
  JSDate.parse s = option_map (fun n => n * JSDate.msPerDay) (dayNumber s).
Proof.
  unfold JSDate.parse, dayNumber. destruct (JSDate.parseFields s) as [[[y m] d]|]; simpl;
    [|reflexivity].
  unfold JSDate.MakeDate. f_equal. lia.
Qed.

(** A date-only string that parses holds a month and a day of the
    calendar. *)
Lemma parseFields_valid s y m d :
  JSDate.parseFields s = Some (y, m, d) ->
  1 <= m <= 12 /\ 1 <= d <= JSDate.DaysInMonth y (m - 1).
Proof.
  unfold JSDate.parseFields.
  destruct (list_ascii_of_string s) as [|c l]; [discriminate|].
  repeat match goal with
         | |- context [match ?x with _ => _ end] => is_var x; destruct x; try discriminate
         end.
  repeat match goal with
         | |- context [JSDate.digits ?cs 0] => destruct (JSDate.digits cs 0); try discriminate
         end.
  match goal with
  | |- (if ?c then _ else _) = _ -> _ => destruct c eqn:Hc; [|discriminate]
  end.
  intros [= <- <- <-]. rewrite !andb_true_iff, !Z.leb_le in Hc. lia.
Qed.

Lemma dayNumber_fields s n :
  dayNumber s = Some n ->
  exists y m d, JSDate.parseFields s = Some (y, m + 1, d) /\ 0 <= m <= 11 /\
                1 <= d <= JSDate.DaysInMonth y m /\ n = JSDate.MakeDay y m d.
Proof.
  unfold dayNumber. destruct (JSDate.parseFields s) as [[[y m] d]|] eqn:Hp; [|discriminate].
  intros [= <-]. destruct (parseFields_valid _ _ _ _ Hp) as [Hm Hd].
  exists y, (m - 1), d. replace (m - 1 + 1) with m by lia.
  split; [reflexivity|]. split; [lia|]. split; [exact Hd|reflexivity].
Qed.

(** ** Windows of local days *)

Section LocalDays.
Variable LocalTZA : Z.

Lemma setHours_value x h mi s ms :
  JSDate.setHours LocalTZA x h mi s ms
  = localDay LocalTZA x * JSDate.msPerDay + JSDate.MakeTime h mi s ms - LocalTZA.
Proof. reflexivity. Qed.

Lemma localDay_of a time :
  0 <= time < JSDate.msPerDay ->
  localDay LocalTZA (a * JSDate.msPerDay + time - LocalTZA) = a.
Proof.
  intros Ht. unfold localDay, JSDate.LocalTime, JSDate.Day, JSDate.msPerDay in *. divlia.
Qed.

(** Instants between local midnight of day [a] and the last millisecond
    of day [b]. *)
Lemma local_days_window a b t :
  a * JSDate.msPerDay - LocalTZA <= t <= b * JSDate.msPerDay + (JSDate.msPerDay - 1) - LocalTZA
  <-> a <= localDay LocalTZA t <= b.
Proof.
  unfold localDay, JSDate.LocalTime, JSDate.Day, JSDate.msPerDay. split; intros H; divlia.
Qed.

Lemma startOfDay_value now :
  startOfDay LocalTZA now = localDay LocalTZA now * JSDate.msPerDay - LocalTZA.
Proof. unfold startOfDay. rewrite setHours_value. unfold JSDate.MakeTime. lia. Qed.

Lemma endOfDay_value now :
  endOfDay LocalTZA now
  = localDay LocalTZA now * JSDate.msPerDay + (JSDate.msPerDay - 1) - LocalTZA.
Proof. unfold endOfDay. rewrite setHours_value. reflexivity. Qed.

(** The week window: from local midnight six days before the local day of
    the clock reading to the last millisecond of that day. *)
Lemma weekOf_value now :
  start (weekOf LocalTZA now) = (localDay LocalTZA now - 6) * JSDate.msPerDay - LocalTZA /\
  end_ (weekOf LocalTZA now)
  = localDay LocalTZA now * JSDate.msPerDay + (JSDate.msPerDay - 1) - LocalTZA.
Proof.
  unfold weekOf. cbn [start end_]. rewrite endOfDay_value.
  set (D := localDay LocalTZA now).
  assert (T : 0 <= JSDate.msPerDay - 1 < JSDate.msPerDay) by (unfold JSDate.msPerDay; lia).
  split; [|reflexivity].
  rewrite setHours_value.
  assert (Hday : localDay LocalTZA
                   (JSDate.setDate LocalTZA (D * JSDate.msPerDay + (JSDate.msPerDay - 1) - LocalTZA)
                      (JSDate.getDate LocalTZA
                         (D * JSDate.msPerDay + (JSDate.msPerDay - 1) - LocalTZA) - 6))
                 = D - 6).
  { unfold JSDate.setDate, JSDate.getDate, JSDate.UTC, JSDate.YearFromTime, JSDate.MonthFromTime,
      JSDate.DateFromTime.
    fold (localDay LocalTZA (D * JSDate.msPerDay + (JSDate.msPerDay - 1) - LocalTZA)).
    rewrite (localDay_of D _ T).
    destruct (MakeDay_of_civil D) as [Hm [_ Hmk]].
    rewrite MakeDay_in_year in * by exact Hm.
    unfold JSDate.MakeDate.
    replace (JSDate.LocalTime LocalTZA (D * JSDate.msPerDay + (JSDate.msPerDay - 1) - LocalTZA))
      with (D * JSDate.msPerDay + (JSDate.msPerDay - 1)) by (unfold JSDate.LocalTime; lia).
    replace (JSDate.TimeWithinDay (D * JSDate.msPerDay + (JSDate.msPerDay - 1)))
      with (JSDate.msPerDay - 1)
      by (unfold JSDate.TimeWithinDay, JSDate.msPerDay; divlia).
    rewrite localDay_of by exact T. lia. }
  rewrite Hday. unfold JSDate.MakeTime. lia.
Qed.

End LocalDays.

Section DatedWindows.
Variable LocalTZA : Z.

Lemma localDay_east n :
  0 <= LocalTZA < JSDate.msPerDay -> localDay LocalTZA (n * JSDate.msPerDay) = n.
Proof.
  intros H. unfold localDay, JSDate.LocalTime, JSDate.Day, JSDate.msPerDay in *. divlia.
Qed.

Lemma localDay_west n :
  - JSDate.msPerDay <= LocalTZA < 0 -> localDay LocalTZA (n * JSDate.msPerDay) = n - 1.
Proof.
  intros H. unfold localDay, JSDate.LocalTime, JSDate.Day, JSDate.msPerDay in *. divlia.
Qed.

(** A date-only string is within a window of local days when the local
    day of its instant, midnight UTC, is one of them. *)
Lemma within_local_days a b s :
  within s (a * JSDate.msPerDay - LocalTZA)
    (b * JSDate.msPerDay + (JSDate.msPerDay - 1) - LocalTZA)
  = match dayNumber s with
    | Some n => (a <=? localDay LocalTZA (n * JSDate.msPerDay))
                && (localDay LocalTZA (n * JSDate.msPerDay) <=? b)
    | None => false
    end.
Proof.
  unfold within. rewrite parse_dayNumber. destruct (dayNumber s) as [n|]; [|reflexivity].
  cbn [option_map]. apply eq_true_iff_eq.
  rewrite !andb_true_iff, !Z.leb_le. apply local_days_window.
Qed.

Lemma within_days_east a b s :
  0 <= LocalTZA < JSDate.msPerDay ->
  within s (a * JSDate.msPerDay - LocalTZA)
    (b * JSDate.msPerDay + (JSDate.msPerDay - 1) - LocalTZA)
  = datedIn a b s.
Proof.
  intros H. rewrite within_local_days. unfold datedIn.
  destruct (dayNumber s) as [n|]; [|reflexivity]. now rewrite localDay_east.
Qed.

Lemma within_days_west a b s :
  - JSDate.msPerDay <= LocalTZA < 0 ->
  within s (a * JSDate.msPerDay - LocalTZA)
    (b * JSDate.msPerDay + (JSDate.msPerDay - 1) - LocalTZA)
  = datedIn (a + 1) (b + 1) s.
Proof.
  intros H. rewrite within_local_days. unfold datedIn.
  destruct (dayNumber s) as [n|]; [|reflexivity]. rewrite localDay_west by exact H.
  apply eq_true_iff_eq. rewrite !andb_true_iff, !Z.leb_le. lia.
Qed.

Lemma within_mono s a b a' b' :
  a' <= a -> b <= b' -> within s a b = true -> within s a' b' = true.
Proof.
  unfold within. destruct (JSDate.parse s) as [t|]; [|discriminate].
  rewrite !andb_true_iff, !Z.leb_le. lia.
Qed.

Lemma getMonth_range t : 0 <= JSDate.getMonth LocalTZA t <= 11.
Proof. apply MakeDay_of_civil. Qed.

Lemma getDate_range t :
  1 <= JSDate.getDate LocalTZA t
  <= JSDate.DaysInMonth (JSDate.getFullYear LocalTZA t) (JSDate.getMonth LocalTZA t).
Proof. apply MakeDay_of_civil. Qed.

(** The month window of a clock reading outside the two-digit years. *)
Lemma month_general now :
  ~ (0 <= JSDate.getFullYear LocalTZA now <= 99) ->
  let y := JSDate.getFullYear LocalTZA now in
  let m := JSDate.getMonth LocalTZA now in
  let w := monthOf LocalTZA y m in
  localDate LocalTZA (start w) = (y, m, 1) /\
  localTimeOfDay LocalTZA (start w) = 0 /\
  localDate LocalTZA (end_ w) = (y, m, JSDate.DaysInMonth y m) /\
  localTimeOfDay LocalTZA (end_ w) = JSDate.msPerDay - 1 /\
  end_ w - start w = JSDate.DaysInMonth y m * JSDate.msPerDay - 1 /\
  (forall t, start w <= t <= end_ w <->
             JSDate.getFullYear LocalTZA t = y /\ JSDate.getMonth LocalTZA t = m).
Proof.
  intros Hy y m w.
  pose proof (getMonth_range now) as Hm. fold m in Hm.
  assert (Hdim : 28 <= JSDate.DaysInMonth y m <= 31) by (apply DaysInMonth_range; exact Hm).
  assert (T0 : 0 <= JSDate.MakeTime 0 0 0 0 < JSDate.msPerDay)
    by (unfold JSDate.MakeTime, JSDate.msPerDay; lia).
  assert (T1 : 0 <= JSDate.MakeTime 23 59 59 999 < JSDate.msPerDay)
    by (unfold JSDate.MakeTime, JSDate.msPerDay; lia).
  assert (Hend : end_ w = JSDate.construct LocalTZA y m (JSDate.DaysInMonth y m) 23 59 59 999).
  { subst w. unfold monthOf. cbn [end_].
    rewrite !construct_plain by exact Hy. now rewrite MakeDay_last by exact Hm. }
  assert (Hstart : start w = JSDate.construct LocalTZA y m 1 0 0 0 0) by reflexivity.
  destruct (construct_fields LocalTZA y m 1 0 0 0 0 Hy Hm ltac:(lia) T0) as [S1 [S2 S3]].
  destruct (construct_fields LocalTZA y m (JSDate.DaysInMonth y m) 23 59 59 999 Hy Hm
              ltac:(lia) T1) as [E1 [E2 E3]].
  rewrite Hstart, Hend.
  split; [exact S2|]. split; [exact S3|]. split; [exact E2|]. split; [exact E3|].
  assert (Hmk : JSDate.MakeDay y m (JSDate.DaysInMonth y m)
                = JSDate.MakeDay y m 1 + JSDate.DaysInMonth y m - 1)
    by (rewrite !MakeDay_in_year by exact Hm; lia).
  split.
  - rewrite S1, E1, Hmk. change (JSDate.MakeTime 0 0 0 0) with 0.
    change (JSDate.MakeTime 23 59 59 999) with (JSDate.msPerDay - 1). lia.
  - intros t.
    pose proof (month_days_window LocalTZA y m 1 (JSDate.DaysInMonth y m) t Hm
                  ltac:(lia) ltac:(lia)) as Hw.
    rewrite S1, E1. change (JSDate.MakeTime 0 0 0 0) with 0.
    change (JSDate.MakeTime 23 59 59 999) with (JSDate.msPerDay - 1).
    rewrite Z.add_0_r. rewrite Hw. split; [tauto|].
    intros [H1 H2]. split; [exact H1|]. split; [exact H2|].
    pose proof (getDate_range t) as Hd. rewrite H1, H2 in Hd. exact Hd.
Qed.

End DatedWindows.

(** [X4] The week window, the same in [getPeriodRange('week')] and in
    [ranges().week], for every clock reading and every offset: it starts at
    local midnight six days before the local day of the clock reading and
    ends with the last millisecond of that day, it spans seven days less one
    millisecond, and the instants in it are the instants of these seven
    local days. *)
Theorem week_window_seven_days LocalTZA now :
  let w := Unified.week (Unified.ranges LocalTZA now) in
  Legacy.getPeriodRange LocalTZA now "week" = w /\
  localDay LocalTZA (start w) = localDay LocalTZA now - 6 /\
  localTimeOfDay LocalTZA (start w) = 0 /\
  localDay LocalTZA (end_ w) = localDay LocalTZA now /\
  localTimeOfDay LocalTZA (end_ w) = JSDate.msPerDay - 1 /\
  end_ w - start w = 7 * JSDate.msPerDay - 1 /\
  (forall t, start w <= t <= end_ w <->
             localDay LocalTZA now - 6 <= localDay LocalTZA t <= localDay LocalTZA now).
Proof.
  intros w. split; [reflexivity|].
  destruct (weekOf_value LocalTZA now) as [Hs He].
  change (start w) with (start (weekOf LocalTZA now)).
  change (end_ w) with (end_ (weekOf LocalTZA now)).
  rewrite Hs, He. set (D := localDay LocalTZA now).
  assert (T1 : 0 <= JSDate.msPerDay - 1 < JSDate.msPerDay) by (unfold JSDate.msPerDay; lia).
  assert (T0 : 0 <= 0 < JSDate.msPerDay) by (unfold JSDate.msPerDay; lia).
  split; [|split; [|split; [|split; [|split]]]].
  - replace ((D - 6) * JSDate.msPerDay - LocalTZA)
      with ((D - 6) * JSDate.msPerDay + 0 - LocalTZA) by lia.
    now apply localDay_of.
  - unfold localTimeOfDay, JSDate.LocalTime, JSDate.TimeWithinDay, JSDate.msPerDay. divlia.
  - now apply localDay_of.
  - unfold localTimeOfDay, JSDate.LocalTime, JSDate.TimeWithinDay, JSDate.msPerDay. divlia.
  - unfold JSDate.msPerDay. lia.
  - intros t. apply local_days_window.
Qed.

(** [X5] The month window, the same in [getPeriodRange('month')] and in
    [ranges().month], of a clock reading whose local year is not one of the
    two-digit years 0..99: it starts at local midnight of the 1st and ends
    with the last millisecond of the last day of the local month of the
    clock reading, and the instants in it are those of that local month. *)
Theorem month_window_calendar_month LocalTZA now :
  ~ (0 <= JSDate.getFullYear LocalTZA now <= 99) ->
  let y := JSDate.getFullYear LocalTZA now in
  let m := JSDate.getMonth LocalTZA now in
  let w := Unified.month (Unified.ranges LocalTZA now) in
  Legacy.getPeriodRange LocalTZA now "month" = w /\
  localDate LocalTZA (start w) = (y, m, 1) /\
  localTimeOfDay LocalTZA (start w) = 0 /\
  localDate LocalTZA (end_ w) = (y, m, JSDate.DaysInMonth y m) /\
  localTimeOfDay LocalTZA (end_ w) = JSDate.msPerDay - 1 /\
  (forall t, start w <= t <= end_ w <->
             JSDate.getFullYear LocalTZA t = y /\ JSDate.getMonth LocalTZA t = m).
Proof.
  intros Hy y m w. split; [reflexivity|].
  destruct (month_general LocalTZA now Hy) as [H1 [H2 [H3 [H4 [_ H5]]]]].
  split; [exact H1|]. split; [exact H2|]. split; [exact H3|]. split; [exact H4|exact H5].
Qed.

Lemma month_window_calendar_month_witness :
  ~ (0 <= JSDate.getFullYear santiago sampleNow <= 99) /\
  localDate santiago (start (Unified.month (Unified.ranges santiago sampleNow))) = (2024, 2, 1) /\
  localDate santiago (end_ (Unified.month (Unified.ranges santiago sampleNow))) = (2024, 2, 31).
Proof.
  assert (H : ~ (0 <= JSDate.getFullYear santiago sampleNow <= 99))
    by (vm_compute; intros [_ H]; now apply H).
  split; [exact H|].
  destruct (month_window_calendar_month santiago sampleNow H) as [_ [S [_ [E _]]]].
  split; [exact S|exact E].
Defined.

(** ** Period sums *)

Lemma sumRange_ext txs rg (p : string -> bool) :
  (forall s, within s (start rg) (end_ rg) = p s) ->
  Unified.sumRange txs rg
  = Unified.sumAmounts (filter (fun t => Unified.isExpense t && p (Unified.date t)) txs).
Proof.
  intros H. unfold Unified.sumRange. f_equal. apply filter_ext. intros t. now rewrite H.
Qed.

Lemma today_value LocalTZA now :
  start (Unified.today (Unified.ranges LocalTZA now))
  = localDay LocalTZA now * JSDate.msPerDay - LocalTZA /\
  end_ (Unified.today (Unified.ranges LocalTZA now))
  = localDay LocalTZA now * JSDate.msPerDay + (JSDate.msPerDay - 1) - LocalTZA.
Proof.
  cbn [Unified.ranges Unified.today start end_].
  now rewrite startOfDay_value, endOfDay_value.
Qed.

(** [X23] The today and week sums of [computeAndRender] by calendar day,
    for expense amounts that are non-negative integers with a sum below
    2^53, [D] being the local day of the clock reading: for an offset from
    0 up to 24 hours east the today sum is the sum of the expenses dated
    [D] and the week sum that of the expenses dated [D - 6 .. D]; for an
    offset up to 24 hours west they are the sums of the expenses dated
    [D + 1] and [D - 5 .. D + 1].  The sum of a window is the integer that
    the binary64 sum of the amounts of its expenses yields. *)
Theorem period_sums_by_day LocalTZA now s :
  safeAmounts Unified.amount (filter Unified.isExpense (Unified.txs s)) ->
  let D := localDay LocalTZA now in
  let v := Unified.computeAndRender LocalTZA now s in
  let spentOn lo hi :=
    Unified.sumAmounts
      (filter (fun t => Unified.isExpense t && datedIn lo hi (Unified.date t)) (Unified.txs s)) in
  (forall rg,
      reduceAmounts Unified.amount
        (filter (fun t => Unified.isExpense t && within (Unified.date t) (start rg) (end_ rg))
           (Unified.txs s))
      = JSNumber.of_Z (Unified.sumRange (Unified.txs s) rg)) /\
  (0 <= LocalTZA < JSDate.msPerDay ->
   Unified.statToday v = spentOn D D /\ Unified.statWeek v = spentOn (D - 6) D) /\
  (- JSDate.msPerDay <= LocalTZA < 0 ->
   Unified.statToday v = spentOn (D + 1) (D + 1) /\
   Unified.statWeek v = spentOn (D - 5) (D + 1)).
Proof.
  intros Hsafe D v spentOn.
  destruct (today_value LocalTZA now) as [Ts Te].
  destruct (weekOf_value LocalTZA now) as [Ws We].
  split.
  { intros rg. apply reduceAmounts_exact. rewrite filter_and. now apply safeAmounts_filter. }
  split; intros Htz; split.
  - apply sumRange_ext. intros d. rewrite Ts, Te. now apply within_days_east.
  - apply sumRange_ext. intros d. cbn [Unified.ranges Unified.week]. rewrite Ws, We.
    now apply within_days_east.
  - apply sumRange_ext. intros d. rewrite Ts, Te. now apply within_days_west.
  - apply sumRange_ext. intros d. cbn [Unified.ranges Unified.week]. rewrite Ws, We.
    rewrite within_days_west by exact Htz. fold D. now replace (D - 6 + 1) with (D - 5) by lia.
Qed.

Lemma period_sums_by_day_witness :
  safeAmounts Unified.amount
    (filter Unified.isExpense (Unified.txs (stateOf [mkTx 1 "expense" 120000 "2024-03-11"]))) /\
  (0 <= 0 < JSDate.msPerDay) /\
  (- JSDate.msPerDay <= santiago < 0) /\
  Unified.statToday
    (Unified.computeAndRender santiago sampleNow (stateOf [mkTx 1 "expense" 120000 "2024-03-11"]))
  = 120000 /\
  Unified.statToday
    (Unified.computeAndRender 0 sampleNow (stateOf [mkTx 1 "expense" 120000 "2024-03-10"]))
  = 120000.
Proof.
  assert (Hs : forall d, safeAmounts Unified.amount
                 (filter Unified.isExpense (Unified.txs (stateOf [mkTx 1 "expense" 120000 d])))).
  { intros d. split; [repeat constructor; simpl; lia|reflexivity]. }
  assert (H0 : 0 <= 0 < JSDate.msPerDay) by (unfold JSDate.msPerDay; lia).
  assert (H1 : - JSDate.msPerDay <= santiago < 0) by (unfold JSDate.msPerDay, santiago; lia).
  split; [apply Hs|]. split; [exact H0|]. split; [exact H1|]. split.
  - rewrite (proj1 (proj2 (proj2 (period_sums_by_day santiago sampleNow
                                    (stateOf [mkTx 1 "expense" 120000 "2024-03-11"]) (Hs _)))
                      H1)).
    reflexivity.
  - rewrite (proj1 (proj1 (proj2 (period_sums_by_day 0 sampleNow
                                    (stateOf [mkTx 1 "expense" 120000 "2024-03-10"]) (Hs _)))
                      H0)).
    reflexivity.
Defined.

Lemma sum_filter_mono {A : Type} (f : A -> Z) (p q : A -> bool) l :
  Forall (fun t => 0 <= f t) l ->
  (forall t, p t = true -> q t = true) ->
  0 <= fold_left (fun s t => s + f t) (filter p l) 0
  <= fold_left (fun s t => s + f t) (filter q l) 0.
Proof.
  intros Hpos Hpq. induction Hpos as [|x l Hx Hl IH]; [simpl; lia|].
  simpl. specialize (Hpq x).
  destruct (p x); destruct (q x); rewrite ?fold_sum_cons;
    try lia; discriminate (Hpq eq_refl).
Qed.

Lemma construct_day_mono LocalTZA y m k k' h mi s ms :
  k <= k' ->
  JSDate.construct LocalTZA y m k h mi s ms <= JSDate.construct LocalTZA y m k' h mi s ms.
Proof.
  intros Hk. unfold JSDate.construct, JSDate.UTC, JSDate.MakeDate, JSDate.MakeDay, JSDate.msPerDay.
  lia.
Qed.

Lemma construct_last LocalTZA y m h mi s ms :
  0 <= m <= 11 ->
  JSDate.construct LocalTZA y (m + 1) 0 h mi s ms
  = JSDate.construct LocalTZA y m
      (JSDate.DaysInMonth (if (0 <=? y) && (y <=? 99) then 1900 + y else y) m) h mi s ms.
Proof.
  intros Hm. unfold JSDate.construct. now rewrite MakeDay_last by exact Hm.
Qed.

(** [X24] With non-negative amounts the period sums of [computeAndRender]
    are nested: the today sum is at most the week sum, the fortnight sum at
    most the month sum, and the week and month sums at most the total
    spent; none is negative. *)
Theorem period_sums_nested LocalTZA now s :
  Forall (fun t => 0 <= Unified.amount t) (Unified.txs s) ->
  let v := Unified.computeAndRender LocalTZA now s in
  0 <= Unified.statToday v <= Unified.statWeek v /\
  Unified.statWeek v <= Unified.statTotal v /\
  0 <= Unified.statFortnight v <= Unified.statMonth v /\
  Unified.statMonth v <= Unified.statTotal v.
Proof.
  intros Hpos v.
  destruct (today_value LocalTZA now) as [Ts Te].
  destruct (weekOf_value LocalTZA now) as [Ws We].
  assert (Hsub : forall rg,
             0 <= Unified.sumRange (Unified.txs s) rg <= Unified.statTotal v).
  { intros rg. apply sum_filter_mono; [exact Hpos|].
    intros t Ht. apply andb_true_iff in Ht. exact (proj1 Ht). }
  assert (Hincl : forall r1 r2,
             start r2 <= start r1 -> end_ r1 <= end_ r2 ->
             Unified.sumRange (Unified.txs s) r1 <= Unified.sumRange (Unified.txs s) r2).
  { intros r1 r2 H1 H2. apply sum_filter_mono; [exact Hpos|].
    intros t Ht. apply andb_true_iff in Ht. destruct Ht as [He Hw].
    rewrite He. cbn [andb]. exact (within_mono _ _ _ _ _ H1 H2 Hw). }
  split; [split; [apply Hsub|]|split; [apply Hsub|split; [split; [apply Hsub|]|apply Hsub]]].
  - apply Hincl.
    + rewrite Ts. cbn [Unified.ranges Unified.week]. rewrite Ws. unfold JSDate.msPerDay. lia.
    + rewrite Te. cbn [Unified.ranges Unified.week]. rewrite We. lia.
  - pose proof (getMonth_range LocalTZA now) as Hm.
    apply Hincl; cbn [Unified.ranges Unified.fortnight Unified.month]; unfold fortnightOf, monthOf;
      destruct (JSDate.getDate LocalTZA now <=? 15); cbn [start end_].
    + lia.
    + apply construct_day_mono. lia.
    + rewrite construct_last by exact Hm. apply construct_day_mono.
      pose proof (DaysInMonth_range
                    (if (0 <=? JSDate.getFullYear LocalTZA now)
                        && (JSDate.getFullYear LocalTZA now <=? 99)
                     then 1900 + JSDate.getFullYear LocalTZA now
                     else JSDate.getFullYear LocalTZA now)
                    (JSDate.getMonth LocalTZA now) Hm). lia.
    + lia.
Qed.

Lemma period_sums_nested_witness :
  Forall (fun t => 0 <= Unified.amount t) (Unified.txs (stateOf scenarioA)) /\
  Unified.statToday (Unified.computeAndRender 0 sampleNow (stateOf scenarioA))
  <= Unified.statWeek (Unified.computeAndRender 0 sampleNow (stateOf scenarioA)).
Proof.
  assert (H : Forall (fun t => 0 <= Unified.amount t) (Unified.txs (stateOf scenarioA)))
    by (repeat constructor; simpl; lia).
  split; [exact H|].
  exact (proj2 (proj1 (period_sums_nested 0 sampleNow (stateOf scenarioA) H))).
Defined.

(** [X6] Every period other than week, fortnight and month gets the window
    from local midnight of 1970-01-01 to the last millisecond of the local
    day of the clock reading.  For an offset from 0 up to 24 hours east the
    expenses in it are those dated from 1970-01-01 to the local day of the
    clock reading, so an expense dated after today is left out of 'Todo';
    for an offset up to 24 hours west the dates are one day later. *)
Theorem all_window_excludes_future LocalTZA now kind :
  kind <> "week"%string -> kind <> "fortnight"%string -> kind <> "month"%string ->
  let w := Legacy.getPeriodRange LocalTZA now kind in
  start w = - LocalTZA /\
  end_ w = localDay LocalTZA now * JSDate.msPerDay + (JSDate.msPerDay - 1) - LocalTZA /\
  (0 <= LocalTZA < JSDate.msPerDay ->
   forall s, within s (start w) (end_ w) = datedIn 0 (localDay LocalTZA now) s) /\
  (- JSDate.msPerDay <= LocalTZA < 0 ->
   forall s, within s (start w) (end_ w) = datedIn 1 (localDay LocalTZA now + 1) s).
Proof.
  intros Hw Hf Hm w.
  assert (E : w = {| start := JSDate.construct LocalTZA 1970 0 1 0 0 0 0;
                     end_ := endOfDay LocalTZA now |}).
  { subst w. unfold Legacy.getPeriodRange.
    destruct (String.eqb_spec kind "week"); [contradiction|].
    destruct (String.eqb_spec kind "fortnight"); [contradiction|].
    destruct (String.eqb_spec kind "month"); [contradiction|]. reflexivity. }
  rewrite E. cbn [start end_]. rewrite endOfDay_value.
  assert (S : JSDate.construct LocalTZA 1970 0 1 0 0 0 0 = 0 * JSDate.msPerDay - LocalTZA)
    by reflexivity.
  split; [rewrite S; lia|]. split; [reflexivity|].
  rewrite S. split; intros Htz s.
  - now apply within_days_east.
  - rewrite within_days_west by exact Htz. reflexivity.
Qed.

Lemma all_window_excludes_future_witness :
  start (Legacy.getPeriodRange 0 sampleNow "all") = 0 /\
  within "2024-03-11" (start (Legacy.getPeriodRange 0 sampleNow "all"))
    (end_ (Legacy.getPeriodRange 0 sampleNow "all")) = false.
Proof.
  assert (H1 : "all"%string <> "week"%string) by discriminate.
  assert (H2 : "all"%string <> "fortnight"%string) by discriminate.
  assert (H3 : "all"%string <> "month"%string) by discriminate.
  destruct (all_window_excludes_future 0 sampleNow "all" H1 H2 H3) as [S [_ [E _]]].
  split; [exact S|]. rewrite E by (unfold JSDate.msPerDay; lia). reflexivity.
Defined.

(** [X3] For a clock reading in the years 0..9999, the string of [todayStr]
    holds the UTC year, month and day of the clock reading; [new Date(...)]
    reads it back as midnight UTC of that day, and [todayStr] at that
    midnight is the same string. *)
Theorem todayStr_reads_back now :
  0 <= JSDate.YearFromTime now <= 9999 ->
  JSDate.parseFields (todayStr now)
  = Some (JSDate.YearFromTime now, JSDate.MonthFromTime now + 1, JSDate.DateFromTime now) /\
  JSDate.parse (todayStr now) = Some (JSDate.Day now * JSDate.msPerDay) /\
  JSDate.toISODate (JSDate.Day now * JSDate.msPerDay) = todayStr now.
Proof.
  intros Hy. split; [now apply parseFields_todayStr|]. split.
  - rewrite parse_dayNumber, dayNumber_todayStr by exact Hy. reflexivity.
  - unfold todayStr, JSDate.toISODate, JSDate.YearFromTime, JSDate.MonthFromTime,
      JSDate.DateFromTime.
    replace (JSDate.Day (JSDate.Day now * JSDate.msPerDay)) with (JSDate.Day now);
      [reflexivity|].
    unfold JSDate.Day, JSDate.msPerDay. divlia.
Qed.

Lemma todayStr_reads_back_witness :
  0 <= JSDate.YearFromTime sampleNow <= 9999 /\
  JSDate.parse (todayStr sampleNow) = Some 1710028800000.
Proof.
  assert (H : 0 <= JSDate.YearFromTime sampleNow <= 9999) by (vm_compute; split; discriminate).
  split; [exact H|].
  rewrite (proj1 (proj2 (todayStr_reads_back sampleNow H))). reflexivity.
Defined.

(** [X22] A transaction dated by [todayStr], the default of the date
    input, and the today window of [ranges] (clock readings in the years
    0..9999): at offset 0 it is always in the window; for an offset up to
    24 hours east it is in the window exactly when the local time of day is
    not before the offset; for an offset up to 24 hours west it is in the
    window exactly when no more of the local day is left than the offset
    (from 21:00 on at UTC-3). *)
Theorem default_date_in_today LocalTZA now :
  0 <= JSDate.YearFromTime now <= 9999 ->
  let today := Unified.today (Unified.ranges LocalTZA now) in
  (LocalTZA = 0 -> within (todayStr now) (start today) (end_ today) = true) /\
  (0 <= LocalTZA < JSDate.msPerDay ->
   (within (todayStr now) (start today) (end_ today) = true
    <-> LocalTZA <= localTimeOfDay LocalTZA now)) /\
  (- JSDate.msPerDay <= LocalTZA < 0 ->
   (within (todayStr now) (start today) (end_ today) = true
    <-> JSDate.msPerDay + LocalTZA <= localTimeOfDay LocalTZA now)).
Proof.
  intros Hy today. destruct (today_value LocalTZA now) as [Ts Te]. fold today in Ts, Te.
  rewrite Ts, Te.
  assert (Heast : 0 <= LocalTZA < JSDate.msPerDay ->
                  (within (todayStr now) (localDay LocalTZA now * JSDate.msPerDay - LocalTZA)
                     (localDay LocalTZA now * JSDate.msPerDay + (JSDate.msPerDay - 1) - LocalTZA)
                   = true <-> LocalTZA <= localTimeOfDay LocalTZA now)).
  { intros Htz. rewrite within_days_east by exact Htz. unfold datedIn.
    rewrite dayNumber_todayStr by exact Hy. rewrite andb_true_iff, !Z.leb_le.
    unfold localDay, localTimeOfDay, JSDate.LocalTime, JSDate.Day, JSDate.TimeWithinDay,
      JSDate.msPerDay in *.
    split; intros H; divlia. }
  split; [|split].
  - intros ->. apply Heast; [unfold JSDate.msPerDay; lia|].
    unfold localTimeOfDay, JSDate.LocalTime, JSDate.TimeWithinDay, JSDate.msPerDay. divlia.
  - exact Heast.
  - intros Htz. rewrite within_days_west by exact Htz. unfold datedIn.
    rewrite dayNumber_todayStr by exact Hy. rewrite andb_true_iff, !Z.leb_le.
    unfold localDay, localTimeOfDay, JSDate.LocalTime, JSDate.Day, JSDate.TimeWithinDay,
      JSDate.msPerDay in *.
    split; intros H; divlia.
Qed.

Lemma default_date_in_today_witness :
  0 <= JSDate.YearFromTime sampleNow <= 9999 /\
  within (todayStr sampleNow) (start (Unified.today (Unified.ranges 0 sampleNow)))
    (end_ (Unified.today (Unified.ranges 0 sampleNow))) = true /\
  within (todayStr sampleNow) (start (Unified.today (Unified.ranges santiago sampleNow)))
    (end_ (Unified.today (Unified.ranges santiago sampleNow))) = false.
Proof.
  assert (H : 0 <= JSDate.YearFromTime sampleNow <= 9999) by (vm_compute; split; discriminate).
  split; [exact H|]. split.
  - apply (proj1 (default_date_in_today 0 sampleNow H)). reflexivity.
  - reflexivity.
Defined.

(** ** The date of a list item *)

Lemma toLocaleDateString_day LocalTZA t :
  JSDate.toLocaleDateString LocalTZA t
  = (JSDate.YearFromDay (localDay LocalTZA t), JSDate.MonthFromDay (localDay LocalTZA t),
     JSDate.DateFromDay (localDay LocalTZA t)).
Proof. reflexivity. Qed.

(** [X13] The date that [renderList] prints for an expense whose date
    string parses as year [y], month [m], day [d]: for an offset from 0 up
    to 24 hours east it is that calendar date, and for an offset up to 24
    hours west it is the calendar date of the day before. *)
Theorem listed_date_shift LocalTZA expenses e y m d :
  In e expenses ->
  JSDate.parseFields (Legacy.date e) = Some (y, m, d) ->
  exists it,
    In it (Legacy.expenseItems (Legacy.renderList LocalTZA expenses)) /\
    Legacy.dataset_id it = Legacy.id e /\
    (0 <= LocalTZA < JSDate.msPerDay -> Legacy.meta it = Some (y, m - 1, d)) /\
    (- JSDate.msPerDay <= LocalTZA < 0 ->
     exists y' m' d',
       Legacy.meta it = Some (y', m', d') /\
       0 <= m' <= 11 /\ 1 <= d' <= JSDate.DaysInMonth y' m' /\
       JSDate.MakeDay y' m' d' = JSDate.MakeDay y (m - 1) d - 1).
Proof.
  intros Hin Hp.
  eexists. split; [cbn [Legacy.renderList Legacy.expenseItems]; apply in_map; exact Hin|].
  cbn [Legacy.dataset_id Legacy.meta]. split; [reflexivity|].
  destruct (parseFields_valid _ _ _ _ Hp) as [Hm Hd].
  assert (Hparse : JSDate.parse (Legacy.date e)
                   = Some (JSDate.MakeDay y (m - 1) d * JSDate.msPerDay)).
  { rewrite parse_dayNumber. unfold dayNumber. now rewrite Hp. }
  rewrite Hparse. cbn [option_map]. rewrite toLocaleDateString_day. split; intros Htz.
  - rewrite localDay_east by exact Htz.
    destruct (civil_of_MakeDay y (m - 1) d ltac:(lia) Hd) as [H1 [H2 H3]].
    now rewrite H1, H2, H3.
  - rewrite localDay_west by exact Htz.
    set (P := JSDate.MakeDay y (m - 1) d - 1).
    destruct (MakeDay_of_civil P) as [H1 [H2 H3]].
    exists (JSDate.YearFromDay P), (JSDate.MonthFromDay P), (JSDate.DateFromDay P).
    split; [reflexivity|]. split; [exact H1|]. split; [exact H2|exact H3].
Qed.


Lemma listed_date_shift_witness :
  In dinner [dinner] /\
  JSDate.parseFields (Legacy.date dinner) = Some (2024, 3, 1) /\
  map Legacy.meta (Legacy.expenseItems (Legacy.renderList 0 [dinner])) = [Some (2024, 2, 1)] /\
  map Legacy.meta (Legacy.expenseItems (Legacy.renderList santiago [dinner]))
  = [Some (2024, 1, 29)] /\
  exists it, In it (Legacy.expenseItems (Legacy.renderList santiago [dinner])) /\
             Legacy.dataset_id it = 1.
Proof.
  assert (Hin : In dinner [dinner]) by (left; reflexivity).
  assert (Hp : JSDate.parseFields (Legacy.date dinner) = Some (2024, 3, 1)) by reflexivity.
  split; [exact Hin|]. split; [exact Hp|]. split; [reflexivity|]. split; [reflexivity|].
  destruct (listed_date_shift santiago [dinner] dinner 2024 3 1 Hin Hp) as [it [H1 [H2 _]]].
  exists it. split; [exact H1|exact H2].
Defined.

(** ** The days of a period *)

Lemma days_of_length r n :
  end_ r - start r = n -> 
  Legacy.days r
  = JSNumber.Math_max2 (JSNumber.of_Z 1)
      (JSNumber.add
         (JSNumber.Math_ceil (JSNumber.div (JSNumber.of_Z n) (JSNumber.of_Z 86400000)))
         (JSNumber.of_Z 1)).
Proof. intros <-. reflexivity. Qed.

Lemma fortnight_length LocalTZA now :
  ~ (0 <= JSDate.getFullYear LocalTZA now <= 99) ->
  let y := JSDate.getFullYear LocalTZA now in
  let m := JSDate.getMonth LocalTZA now in
  let w := Legacy.getPeriodRange LocalTZA now "fortnight" in
  end_ w - start w
  = (if JSDate.getDate LocalTZA now <=? 15 then 15 else JSDate.DaysInMonth y m - 15)
    * JSDate.msPerDay - 1.
Proof.
  intros Hy y m w. pose proof (getMonth_range LocalTZA now) as Hm. fold m in Hm.
  subst w. change (Legacy.getPeriodRange LocalTZA now "fortnight")
    with (fortnightOf LocalTZA y m (JSDate.getDate LocalTZA now)).
  unfold fortnightOf. destruct (JSDate.getDate LocalTZA now <=? 15); cbn [start end_];
    rewrite !construct_plain by exact Hy; rewrite ?MakeDay_last by exact Hm;
    rewrite !MakeDay_in_year by exact Hm;
    unfold JSDate.MakeDate, JSDate.MakeTime, JSDate.msPerDay; lia.
Qed.

(** [X10] The number of days by which [computeAndRender] divides the period
    total, [Math.max(1, Math.ceil((end - start) / msPerDay) + 1)] in
    binary64, for every clock reading and offset: 8 for the week window of
    seven days (a period total of 70000 gives the average 8750); and, when
    the local year is not one of 0..99, one more than the number of days of
    the month for the month window, and 16 (first half) or the number of
    days of the month less 14 (second half) for the fortnight window. *)
Theorem average_counts_one_day_more LocalTZA now :
  let y := JSDate.getFullYear LocalTZA now in
  let m := JSDate.getMonth LocalTZA now in
  Legacy.days (Legacy.getPeriodRange LocalTZA now "week") = JSNumber.of_Z 8 /\
  (forall spentPeriod,
      Legacy.avg spentPeriod (Legacy.getPeriodRange LocalTZA now "week")
      = JSNumber.Math_round (JSNumber.div (JSNumber.of_Z spentPeriod) (JSNumber.of_Z 8))) /\
  Legacy.avg 70000 (Legacy.getPeriodRange LocalTZA now "week") = JSNumber.RInt 8750 /\
  (~ (0 <= y <= 99) ->
   Legacy.days (Legacy.getPeriodRange LocalTZA now "month")
   = JSNumber.of_Z (JSDate.DaysInMonth y m + 1) /\
   Legacy.days (Legacy.getPeriodRange LocalTZA now "fortnight")
   = JSNumber.of_Z (if JSDate.getDate LocalTZA now <=? 15 then 16
                    else JSDate.DaysInMonth y m - 14)).
Proof.
  intros y m.
  assert (Hweek : Legacy.days (Legacy.getPeriodRange LocalTZA now "week") = JSNumber.of_Z 8).
  { assert (Hlen : end_ (Legacy.getPeriodRange LocalTZA now "week")
                   - start (Legacy.getPeriodRange LocalTZA now "week") = 604799999).
    { destruct (weekOf_value LocalTZA now) as [Hs He].
      change (Legacy.getPeriodRange LocalTZA now "week") with (weekOf LocalTZA now).
      rewrite Hs, He. unfold JSDate.msPerDay. lia. }
    rewrite (days_of_length _ _ Hlen). vm_compute. reflexivity. }
  split; [exact Hweek|]. split; [|split].
  - intros spentPeriod. unfold Legacy.avg. now rewrite Hweek.
  - unfold Legacy.avg. rewrite Hweek. vm_compute. reflexivity.
  - intros Hy. pose proof (getMonth_range LocalTZA now) as Hm. fold m in Hm.
    pose proof (DaysInMonth_range y m Hm) as Hdim.
    assert (C : JSDate.DaysInMonth y m = 28 \/ JSDate.DaysInMonth y m = 29
                \/ JSDate.DaysInMonth y m = 30 \/ JSDate.DaysInMonth y m = 31) by lia.
    split.
    + destruct (month_general LocalTZA now Hy) as [_ [_ [_ [_ [Hlen _]]]]].
      change (monthOf LocalTZA (JSDate.getFullYear LocalTZA now) (JSDate.getMonth LocalTZA now))
        with (Legacy.getPeriodRange LocalTZA now "month") in Hlen.
      rewrite (days_of_length (Legacy.getPeriodRange LocalTZA now "month") _ Hlen). fold y m.
      destruct C as [C|[C|[C|C]]]; rewrite C; vm_compute; reflexivity.
    + rewrite (days_of_length _ _ (fortnight_length LocalTZA now Hy)). fold y m.
      destruct (JSDate.getDate LocalTZA now <=? 15); [vm_compute; reflexivity|].
      destruct C as [C|[C|[C|C]]]; rewrite C; vm_compute; reflexivity.
Qed.

Lemma average_counts_one_day_more_witness :
  ~ (0 <= JSDate.getFullYear santiago sampleNow <= 99) /\
  Legacy.days (Legacy.getPeriodRange santiago sampleNow "month") = JSNumber.of_Z 32 /\
  Legacy.days (Legacy.getPeriodRange santiago sampleNow "fortnight") = JSNumber.of_Z 16.
Proof.
  assert (H : ~ (0 <= JSDate.getFullYear santiago sampleNow <= 99))
    by (vm_compute; intros [_ H]; now apply H).
  split; [exact H|].
  destruct (proj2 (proj2 (proj2 (average_counts_one_day_more santiago sampleNow))) H)
    as [H1 H2].
  split; [exact H1|exact H2].
Defined.

(** ** Totals of a histogram *)

Lemma sumValues_cons p m : sumValues (p :: m) = snd p + sumValues m.
Proof. unfold sumValues. apply fold_sum_cons. Qed.

Lemma sumValues_set m k w :
  sumValues (JSMap.set m k (JSMap.getOrZero m k + w)) = sumValues m + w.
Proof.
  unfold JSMap.getOrZero.
  induction m as [|[k' v'] m IH]; cbn [JSMap.set JSMap.get].
  - rewrite sumValues_cons. unfold sumValues. simpl. lia.
  - destruct (String.eqb k k').
    + rewrite !sumValues_cons. simpl. lia.
    + rewrite !sumValues_cons, IH. simpl. lia.
Qed.

Lemma sumValues_perm m m' : Permutation m m' -> sumValues m = sumValues m'.
Proof.
  induction 1 as [|p m m' _ IH|p q m|m1 m2 m3 _ IH1 _ IH2].
  - reflexivity.
  - now rewrite !sumValues_cons, IH.
  - rewrite !sumValues_cons. lia.
  - now rewrite IH1.
Qed.

Lemma sumValues_groupByDateWith {A : Type} (date : A -> string) (weight : A -> Z) l :
  sumValues (groupByDateWith date weight l) = fold_left (fun s t => s + weight t) l 0.
Proof.
  unfold groupByDateWith.
  rewrite <- (sumValues_perm _ _ (sort_perm byKeyAsc _)).
  assert (H : forall m,
             sumValues
               (fold_left
                  (fun map t => JSMap.set map (date t) (JSMap.getOrZero map (date t) + weight t))
                  l m)
             = sumValues m + fold_left (fun s t => s + weight t) l 0).
  { induction l as [|t l IH]; intros m; [simpl; lia|].
    cbn [fold_left]. rewrite IH, sumValues_set, (fold_sum_shift weight l (0 + weight t)). lia. }
  rewrite H. reflexivity.
Qed.

Lemma map_set_length m k v : (List.length (JSMap.set m k v) <= S (List.length m))%nat.
Proof.
  induction m as [|[k' v'] m IH]; cbn [JSMap.set]; [simpl; lia|].
  destruct (String.eqb k k'); simpl in *; lia.
Qed.

(** A grouping has no more points than the list has entries. *)
Lemma groupByDateWith_length {A : Type} (date : A -> string) (weight : A -> Z) l :
  (List.length (groupByDateWith date weight l) <= List.length l)%nat.
Proof.
  unfold groupByDateWith.
  rewrite <- (Permutation_length (sort_perm byKeyAsc _)).
  assert (H : forall m,
             (List.length
                (fold_left
                   (fun map t => JSMap.set map (date t) (JSMap.getOrZero map (date t) + weight t))
                   l m)
              <= List.length m + List.length l)%nat).
  { induction l as [|t l IH]; intros m; [simpl; lia|].
    cbn [fold_left]. specialize (IH (JSMap.set m (date t) (JSMap.getOrZero m (date t) + weight t))).
    pose proof (map_set_length m (date t) (JSMap.getOrZero m (date t) + weight t)).
    simpl. lia. }
  apply (H []).
Qed.

Lemma sumOn_member {A : Type} (date : A -> string) (weight : A -> Z) l e :
  Forall (fun t => 0 <= weight t) l -> In e l -> weight e <= sumOn date weight (date e) l.
Proof.
  intros Hpos. induction Hpos as [|x l Hx Hl IH]; intros Hin; [contradiction|].
  rewrite sumOn_cons.
  assert (Hrest : 0 <= sumOn date weight (date e) l)
    by (unfold sumOn; apply fold_sum_filter; exact Hl).
  destruct Hin as [->|Hin].
  - rewrite String.eqb_refl. lia.
  - specialize (IH Hin). destruct (String.eqb (date x) (date e)); lia.
Qed.

(** ** Full and empty bars *)

Lemma max_spread_attained values : forall a,
  JSNumber.Math_max_spread a values = a \/ In (JSNumber.Math_max_spread a values) values.
Proof.
  unfold JSNumber.Math_max_spread.
  induction values as [|x l IH]; intros a; simpl; [now left|].
  destruct (IH (Z.max a x)) as [H|H]; [|right; now right].
  rewrite H. destruct (Z.max_spec a x) as [[_ ->]|[_ ->]]; [right; now left|now left].
Qed.

Lemma div_self m e :
  JSNumber.div (S754_finite false m e) (S754_finite false m e)
  = S754_finite false 4503599627370496 (-52).
Proof.
  unfold JSNumber.div, SFdiv, SFdiv_core_binary.
  rewrite !Z.sub_diag.
  change (Z.min (SpecFloat.fexp JSNumber.prec JSNumber.emax 0) 0) with (-53).
  change (0 - -53) with 53.
  rewrite Z.shiftl_mul_pow2 by lia.
  assert (E : Z.div_eucl (Z.pos m * 2 ^ 53) (Z.pos m) = (2 ^ 53, 0)).
  { rewrite (surjective_pairing (Z.div_eucl _ _)).
    change (fst (Z.div_eucl (Z.pos m * 2 ^ 53) (Z.pos m))) with (Z.pos m * 2 ^ 53 / Z.pos m).
    change (snd (Z.div_eucl (Z.pos m * 2 ^ 53) (Z.pos m))) with ((Z.pos m * 2 ^ 53) mod Z.pos m).
    rewrite (Z.mul_comm (Z.pos m)), Z.div_mul, Z.mod_mul by lia. reflexivity. }
  rewrite E.
  assert (L : new_location (Z.pos m) 0 = loc_Exact).
  { unfold new_location. destruct (Z.even (Z.pos m)); reflexivity. }
  rewrite L. vm_compute. reflexivity.
Qed.

(** The bar of the largest value has the full height. *)
Lemma barHeight_full v : 0 < v < 2 ^ 53 -> barHeight v v = JSNumber.RInt 100.
Proof.
  intros Hv. destruct (of_Z_exact v Hv) as [m [e [E _]]].
  unfold barHeight. rewrite E, div_self. vm_compute. reflexivity.
Qed.

(** The bar of a day without expenses has the least height. *)
Lemma barHeight_zero max : 0 < max < 2 ^ 53 -> barHeight 0 max = JSNumber.RInt 4.
Proof.
  intros Hv. destruct (of_Z_exact max Hv) as [m [e [E _]]].
  unfold barHeight. rewrite E. reflexivity.
Qed.

Lemma fold_sum_if {A : Type} (f : A -> Z) (p : A -> bool) l :
  fold_left (fun s t => s + (if p t then f t else 0)) l 0
  = fold_left (fun s t => s + f t) (filter p l) 0.
Proof.
  induction l as [|t l IH]; [reflexivity|].
  rewrite fold_sum_cons. cbn [filter]. destruct (p t); rewrite ?fold_sum_cons, IH; lia.
Qed.

(** [X7] For expenses whose amounts are non-negative integers with a sum
    below 2^53, [groupByDate] of the legacy application has one point for
    every date of the list, holding the sum of the amounts of that date,
    an integer below 2^53 that the binary64 sum of those amounts yields;
    the points are sorted by date, strictly ascending; there are no more
    points than expenses; their values add up to the sum of all the
    amounts, which the binary64 sum of the amounts yields; and
    [renderMiniChart] draws one bar for every point. *)
Theorem legacy_histogram expenses :
  safeAmounts Legacy.amount expenses ->
  (forall d v, In (d, v) (Legacy.groupByDate expenses) <->
               (exists e, In e expenses /\ Legacy.date e = d) /\
               v = sumOn Legacy.date Legacy.amount d expenses) /\
  (forall d v, In (d, v) (Legacy.groupByDate expenses) ->
               0 <= v < 2 ^ 53 /\
               reduceAmounts Legacy.amount
                 (filter (fun e => String.eqb (Legacy.date e) d) expenses)
               = JSNumber.of_Z v) /\
  NoDup (map fst (Legacy.groupByDate expenses)) /\
  Sorted ascending (Legacy.groupByDate expenses) /\
  (List.length (Legacy.groupByDate expenses) <= List.length expenses)%nat /\
  sumValues (Legacy.groupByDate expenses) = Legacy.sumAmounts expenses /\
  reduceAmounts Legacy.amount expenses = JSNumber.of_Z (Legacy.sumAmounts expenses) /\
  List.length (Legacy.renderMiniChart expenses) = List.length (Legacy.groupByDate expenses).
Proof.
  intros Hsafe.
  split; [intros d v; apply groupByDateWith_point|].
  split.
  { intros d v Hin. apply groupByDateWith_point in Hin. destruct Hin as [_ ->].
    pose proof (safeAmounts_filter Legacy.amount
                  (fun e => String.eqb (Legacy.date e) d) expenses Hsafe) as Hd.
    split; [exact (safeAmounts_range _ _ Hd)|exact (reduceAmounts_exact _ _ Hd)]. }
  split; [apply groupByDateWith_nodup|].
  split; [apply groupByDateWith_ascending|].
  split; [apply groupByDateWith_length|].
  split; [apply sumValues_groupByDateWith|].
  split; [exact (reduceAmounts_exact _ _ Hsafe)|].
  unfold Legacy.renderMiniChart. now rewrite length_map.
Qed.

Lemma legacy_histogram_witness :
  safeAmounts Legacy.amount (Legacy.expenses (Legacy.st twoExpenses)) /\
  Legacy.groupByDate (Legacy.expenses (Legacy.st twoExpenses))
  = [("2024-03-01"%string, 120000); ("2024-03-10"%string, 120000)] /\
  sumValues (Legacy.groupByDate (Legacy.expenses (Legacy.st twoExpenses))) = 240000.
Proof.
  assert (H : safeAmounts Legacy.amount (Legacy.expenses (Legacy.st twoExpenses))).
  { split; [repeat constructor; vm_compute; discriminate|reflexivity]. }
  split; [exact H|]. split; [reflexivity|].
  rewrite (proj1 (proj2 (proj2 (proj2 (proj2 (proj2 (legacy_histogram _ H))))))). reflexivity.
Defined.

(** [X25] When the expense amounts are non-negative integers with a sum
    below 2^53, the amount spent that [computeAndRender] shows is the
    integer that the binary64 sum of the expense amounts yields, and the
    values of the points of [groupByDate] add up to it; with at most 14
    points the points that the chart shows add up to the total of the
    statistics. *)
Theorem histogram_total_is_spent LocalTZA now s :
  safeAmounts Unified.amount (filter Unified.isExpense (Unified.txs s)) ->
  reduceAmounts Unified.amount (filter Unified.isExpense (Unified.txs s))
  = JSNumber.of_Z (Unified.spentDisplay (Unified.computeAndRender LocalTZA now s)) /\
  sumValues (Unified.groupByDate (Unified.txs s))
  = Unified.spentDisplay (Unified.computeAndRender LocalTZA now s) /\
  ((List.length (Unified.groupByDate (Unified.txs s)) <= 14)%nat ->
   sumValues (Unified.last14 (Unified.txs s))
   = Unified.statTotal (Unified.computeAndRender LocalTZA now s)).
Proof.
  intros Hsafe.
  assert (H : sumValues (Unified.groupByDate (Unified.txs s))
              = Unified.spentDisplay (Unified.computeAndRender LocalTZA now s)).
  { unfold Unified.groupByDate. rewrite sumValues_groupByDateWith. apply fold_sum_if. }
  split; [exact (reduceAmounts_exact _ _ Hsafe)|].
  split; [exact H|]. intros Hlen. unfold Unified.last14.
  rewrite (proj2 (proj2 (sliceLast_suffix 14 _)) Hlen). exact H.
Qed.

Lemma histogram_total_is_spent_witness :
  safeAmounts Unified.amount (filter Unified.isExpense (Unified.txs (stateOf scenarioB))) /\
  (List.length (Unified.groupByDate (Unified.txs (stateOf scenarioB))) <= 14)%nat /\
  sumValues (Unified.last14 (Unified.txs (stateOf scenarioB))) = 6000.
Proof.
  assert (Hs : safeAmounts Unified.amount
                 (filter Unified.isExpense (Unified.txs (stateOf scenarioB)))).
  { split; [repeat constructor; simpl; lia|reflexivity]. }
  assert (H : (List.length (Unified.groupByDate (Unified.txs (stateOf scenarioB))) <= 14)%nat)
    by (vm_compute; repeat constructor).
  split; [exact Hs|]. split; [exact H|].
  rewrite (proj2 (proj2 (histogram_total_is_spent 0 sampleNow (stateOf scenarioB) Hs)) H).
  reflexivity.
Defined.

Lemma full_bar {A : Type} (date : A -> string) (weight : A -> Z) l :
  Forall (fun t => 0 <= weight t) l ->
  fold_left (fun s t => s + weight t) l 0 < 2 ^ 53 ->
  (exists e, In e l /\ 0 < weight e) ->
  let byDate := groupByDateWith date weight l in
  let max := JSNumber.Math_max_spread 1 (map snd byDate) in
  exists p, In p byDate /\ barHeight (snd p) max = JSNumber.RInt 100.
Proof.
  intros Hpos Hsum [e [Hin He]] byDate max.
  destruct (chart_bars_range date weight 0 l Hpos Hsum) as [Hmax _]. fold byDate max in Hmax.
  destruct (Math_max_spread_bounds (map snd byDate) 1) as [_ [Hub _]]. fold max in Hub.
  assert (Hp : In (date e, sumOn date weight (date e) l) byDate).
  { apply groupByDateWith_point. split; [now exists e|reflexivity]. }
  pose proof (sumOn_member date weight l e Hpos Hin) as Hge.
  assert (Hattained : In max (map snd byDate)).
  { destruct (max_spread_attained (map snd byDate) 1) as [H1|H]; [|exact H].
    fold max in H1. rewrite H1.
    replace 1 with (snd (date e, sumOn date weight (date e) l)); [now apply in_map|].
    simpl. specialize (Hub _ (in_map snd _ _ Hp)). simpl in Hub. lia. }
  apply in_map_iff in Hattained. destruct Hattained as [p [Hsnd Hp']].
  exists p. split; [exact Hp'|]. rewrite Hsnd. apply barHeight_full. lia.
Qed.

Lemma least_bar {A : Type} (date : A -> string) (weight : A -> Z) l :
  Forall (fun t => 0 <= weight t) l ->
  fold_left (fun s t => s + weight t) l 0 < 2 ^ 53 ->
  barHeight 0 (JSNumber.Math_max_spread 1 (map snd (groupByDateWith date weight l)))
  = JSNumber.RInt 4.
Proof.
  intros Hpos Hsum.
  destruct (chart_bars_range date weight 0 l Hpos Hsum) as [Hmax _].
  apply barHeight_zero. lia.
Qed.

(** [X11] When the amounts are non-negative with a safe sum and some
    expense is positive, the chart of the legacy application has a bar of
    height 100, and so has the chart of the unified application when it has
    at most 14 points; a visible point of value 0 gets a bar of height 4.
    With more than 14 points the highest bar can be cut off: 1000 spent on
    the first of fifteen days and 10 on each of the others gives fourteen
    bars of height 4. *)
Theorem chart_full_and_least_bars :
  (forall expenses,
      safeAmounts Legacy.amount expenses ->
      (exists e, In e expenses /\ 0 < Legacy.amount e) ->
      In (JSNumber.RInt 100) (Legacy.renderMiniChart expenses)) /\
  (forall txs,
      safeAmounts Unified.amount (filter Unified.isExpense txs) ->
      (exists t, In t txs /\ Unified.isExpense t = true /\ 0 < Unified.amount t) ->
      (List.length (Unified.groupByDate txs) <= 14)%nat ->
      In (JSNumber.RInt 100) (Unified.renderMiniChart txs)) /\
  (forall txs d,
      safeAmounts Unified.amount (filter Unified.isExpense txs) ->
      In (d, 0) (Unified.last14 txs) ->
      In (JSNumber.RInt 4) (Unified.renderMiniChart txs)) /\
  List.length (Unified.groupByDate fifteenDays) = 15%nat /\
  Unified.renderMiniChart fifteenDays = repeat (JSNumber.RInt 4) 14.
Proof.
  split; [|split; [|split; [|split; reflexivity]]].
  - intros expenses [Hpos Hsum] Hex.
    destruct (full_bar Legacy.date Legacy.amount expenses Hpos Hsum Hex) as [p [Hp Hh]].
    unfold Legacy.renderMiniChart. rewrite <- Hh.
    apply (in_map (fun p => barHeight (snd p) _)). exact Hp.
  - intros txs [Hpos Hsum] [t [Hin [He Ht]]] Hlen.
    destruct (expense_weights txs Hpos) as [Hw Hs].
    assert (Hsum' : fold_left
                      (fun s t => s + (if Unified.isExpense t then Unified.amount t else 0))
                      txs 0 < 2 ^ 53) by (rewrite Hs; exact Hsum).
    assert (Hex : exists e, In e txs /\
                            0 < (if Unified.isExpense e then Unified.amount e else 0))
      by (exists t; rewrite He; split; assumption).
    destruct (full_bar Unified.date _ txs Hw Hsum' Hex) as [p [Hp Hh]].
    unfold Unified.renderMiniChart.
    rewrite (proj2 (proj2 (sliceLast_suffix 14 _)) Hlen). rewrite <- Hh.
    apply (in_map (fun p => barHeight (snd p) _)). exact Hp.
  - intros txs d [Hpos Hsum] Hin.
    destruct (expense_weights txs Hpos) as [Hw Hs].
    assert (Hsum' : fold_left
                      (fun s t => s + (if Unified.isExpense t then Unified.amount t else 0))
                      txs 0 < 2 ^ 53) by (rewrite Hs; exact Hsum).
    unfold Unified.renderMiniChart.
    rewrite <- (least_bar Unified.date _ txs Hw Hsum').
    apply (in_map (fun p => barHeight (snd p) _) _ (d, 0)). exact Hin.
Qed.

Lemma chart_full_and_least_bars_witness :
  safeAmounts Unified.amount (filter Unified.isExpense scenarioB) /\
  (exists t, In t scenarioB /\ Unified.isExpense t = true /\ 0 < Unified.amount t) /\
  (List.length (Unified.groupByDate scenarioB) <= 14)%nat /\
  In (JSNumber.RInt 100) (Unified.renderMiniChart scenarioB).
Proof.
  assert (H : safeAmounts Unified.amount (filter Unified.isExpense scenarioB)).
  { split; [repeat constructor; simpl; lia|reflexivity]. }
  assert (Hex : exists t, In t scenarioB /\ Unified.isExpense t = true /\ 0 < Unified.amount t).
  { exists (mkTx 1 "expense" 1000 "2024-01-01"). split; [left; reflexivity|].
    split; [reflexivity|simpl; lia]. }
  assert (Hlen : (List.length (Unified.groupByDate scenarioB) <= 14)%nat)
    by (vm_compute; repeat constructor).
  split; [exact H|]. split; [exact Hex|]. split; [exact Hlen|].
  exact (proj1 (proj2 chart_full_and_least_bars) scenarioB H Hex Hlen).
Defined.

(** ** Opening the legacy database *)

(** [X1] [dbp.open] of the legacy application.  When the open succeeds, the
    database [gastosDB] has version 1; every store that it held before is
    kept as it was; a database that did not exist gets the stores
    [expenses] (with the indexes [by_date] and [by_name]), [attachments] and
    [meta], all empty; the database of the unified application is not
    touched; the expenses and the attachments listed are those listed
    before; and opening again changes nothing. *)
Theorem legacy_open_keeps_stores o o' :
  open_legacy o = Some o' ->
  gastosDB_v2 o' = gastosDB_v2 o /\
  (exists db',
      gastosDB o' = Some db' /\ Legacy.version db' = 1 /\
      (forall db s, gastosDB o = Some db -> Legacy.expensesStore db = Some s ->
                    Legacy.expensesStore db' = Some s) /\
      (forall db s, gastosDB o = Some db -> Legacy.attachmentsStore db = Some s ->
                    Legacy.attachmentsStore db' = Some s) /\
      (forall db s, gastosDB o = Some db -> Legacy.metaStore db = Some s ->
                    Legacy.metaStore db' = Some s) /\
      (gastosDB o = None ->
       Legacy.expensesStore db' = Some (IDB.createObjectStore ["by_date"; "by_name"]%string) /\
       Legacy.attachmentsStore db' = Some (IDB.createObjectStore []) /\
       Legacy.metaStore db' = Some [])) /\
  legacy_expenses o' = legacy_expenses o /\
  legacy_attachments o' = legacy_attachments o /\
  open_legacy o' = Some o'.
Proof.
  unfold open_legacy, Legacy.dbp_open.
  destruct (gastosDB o) as [db|] eqn:Hdb.
  - destruct (Z.ltb_spec (Legacy.version db) 1) as [Hlt|Hge].
    + intros [= <-]. cbn [gastosDB gastosDB_v2]. split; [reflexivity|]. split.
      * eexists. split; [reflexivity|]. split; [reflexivity|].
        split; [intros db0 s [= <-] Hs; simpl; now rewrite Hs|].
        split; [intros db0 s [= <-] Hs; simpl; now rewrite Hs|].
        split; [intros db0 s [= <-] Hs; simpl; now rewrite Hs|]. discriminate.
      * unfold legacy_expenses, legacy_attachments. rewrite Hdb. cbn.
        destruct (Legacy.expensesStore db); destruct (Legacy.attachmentsStore db);
          repeat split; reflexivity.
    + destruct (Z.eqb_spec (Legacy.version db) 1) as [H1|H1]; [|discriminate].
      intros [= <-]. cbn [gastosDB gastosDB_v2]. split; [reflexivity|]. split.
      * exists db. split; [reflexivity|]. split; [exact H1|].
        split; [intros db0 s [= <-] Hs; exact Hs|].
        split; [intros db0 s [= <-] Hs; exact Hs|].
        split; [intros db0 s [= <-] Hs; exact Hs|]. discriminate.
      * unfold legacy_expenses, legacy_attachments. rewrite Hdb. cbn [gastosDB].
        split; [reflexivity|]. split; [reflexivity|].
        rewrite H1. reflexivity.
  - intros [= <-]. cbn. split; [reflexivity|]. split.
    + eexists. split; [reflexivity|]. split; [reflexivity|].
      repeat (split; [discriminate|]). intros _. repeat split.
    + unfold legacy_expenses, legacy_attachments. rewrite Hdb. repeat split.
Qed.

Lemma legacy_open_keeps_stores_witness :
  exists o', open_legacy legacyOrigin = Some o' /\
             legacy_expenses o' = legacy_expenses legacyOrigin /\
             open_legacy o' = Some o'.
Proof.
  exists legacyOrigin.
  assert (H : open_legacy legacyOrigin = Some legacyOrigin) by reflexivity.
  split; [exact H|].
  destruct (legacy_open_keeps_stores _ _ H) as [_ [_ [H1 [_ H2]]]].
  split; [exact H1|exact H2].
Defined.

(** ** Loading *)

(** [X8] [loadAll], in both applications, leaves in the mirror the records
    of the store, each once, sorted by date descending with the id as
    tie-break; it writes nothing to the stores, and loading again changes
    nothing.  In the legacy application the income of the state is the
    value stored under [income], and 0 when nothing is stored. *)
Theorem loadAll_mirrors_store :
  (forall w,
      let w' := Unified.loadAll w in
      Permutation (Unified.txs (Unified.st w')) (IDB.getAll (Unified.db_transactions w)) /\
      mirrorSorted (Unified.txs (Unified.st w')) /\
      Unified.db_transactions w' = Unified.db_transactions w /\
      Unified.db_attachments w' = Unified.db_attachments w /\
      Unified.loadAll w' = w') /\
  (forall LocalTZA now w,
      let w' := Legacy.loadAll LocalTZA now w in
      Permutation (Legacy.expenses (Legacy.st w')) (IDB.getAll (Legacy.db_expenses w)) /\
      legacyMirrorSorted (Legacy.expenses (Legacy.st w')) /\
      (Legacy.metaGet (Legacy.db_meta w) "income" = None -> Legacy.income (Legacy.st w') = 0) /\
      (forall v, Legacy.metaGet (Legacy.db_meta w) "income" = Some v ->
                 Legacy.income (Legacy.st w') = v) /\
      Legacy.db_expenses w' = Legacy.db_expenses w /\
      Legacy.db_attachments w' = Legacy.db_attachments w /\
      Legacy.db_meta w' = Legacy.db_meta w /\
      Legacy.loadAll LocalTZA now w' = w').
Proof.
  split.
  - intros w w'. split; [symmetry; apply sort_perm|]. split; [apply sort_descending|].
    repeat split.
  - intros tza now w w'. split; [symmetry; apply sort_perm|]. split; [apply sort_descending|].
    split; [intros H; subst w'; cbn; now rewrite H|].
    split; [intros v H; subst w'; cbn; now rewrite H|].
    repeat split.
Qed.

Lemma loadAll_mirrors_store_witness :
  Legacy.metaGet (Legacy.db_meta lunchWorld) "income" = None /\
  Legacy.income (Legacy.st (Legacy.loadAll 0 sampleNow lunchWorld)) = 0 /\
  mirrorSorted (Unified.txs (Unified.st (Unified.loadAll loadedWorld))).
Proof.
  assert (H : Legacy.metaGet (Legacy.db_meta lunchWorld) "income" = None) by reflexivity.
  split; [exact H|]. split.
  - exact (proj1 (proj2 (proj2 (proj2 loadAll_mirrors_store 0 sampleNow lunchWorld))) H).
  - exact (proj1 (proj2 (proj1 loadAll_mirrors_store loadedWorld))).
Defined.

(** ** Attachments of a create *)

Lemma addAttachment_some now kind f s refs :
  addAttachment now kind (Some f) (s, refs)
  = (fst (IDB.add s (fun _ => attachmentOf now f)),
     refs ++ [refOf (IDB.keyGenerator s) kind f]).
Proof. reflexivity. Qed.

Lemma addAttachment_none now kind (acc : IDB.objectStore attachment * list attachmentRef) :
  addAttachment now kind None acc = acc.
Proof. reflexivity. Qed.

(** What the two [if] blocks of a create leave in the attachment store and
    in [attachmentRefs]. *)
Lemma attachments_added now photo doc s :
  wellKeyed s ->
  let acc := attached now photo doc s in
  wellKeyed (fst acc) /\
  (forall k a, IDB.get s k = Some a -> IDB.get (fst acc) k = Some a) /\
  map kind (snd acc)
  = (match photo with Some _ => ["photo"%string] | None => [] end)
      ++ (match doc with Some _ => ["document"%string] | None => [] end) /\
  (forall ref, In ref (snd acc) -> IDB.get s (storeId ref) = None) /\
  (forall f, photo = Some f ->
             exists ref rest, snd acc = ref :: rest /\ kind ref = "photo"%string /\
                              ref_name ref = file_name f /\ ref_type ref = file_type f /\
                              IDB.get (fst acc) (storeId ref) = Some (attachmentOf now f)) /\
  (forall f, doc = Some f ->
             exists ref, In ref (snd acc) /\ kind ref = "document"%string /\
                         ref_name ref = file_name f /\ ref_type ref = file_type f /\
                         IDB.get (fst acc) (storeId ref) = Some (attachmentOf now f)) /\
  (photo = None -> forall f, doc = Some f ->
                             exists ref, snd acc = [ref] /\ kind ref = "document"%string /\
                               IDB.get (fst acc) (storeId ref) = Some (attachmentOf now f)).
Proof.
  intros Hw acc. subst acc. unfold attached.
  pose proof (wellKeyed_fresh s Hw) as Hfresh.
  destruct photo as [p|]; destruct doc as [d|];
    rewrite ?addAttachment_some, ?addAttachment_none; cbn [fst snd app].
  - set (s1 := fst (IDB.add s (fun _ => attachmentOf now p))).
    assert (Hw1 : wellKeyed s1) by (apply add_wellKeyed; exact Hw).
    assert (Hg1 : IDB.keyGenerator s1 = IDB.keyGenerator s + 1) by reflexivity.
    split; [apply add_wellKeyed; exact Hw1|].
    split; [intros k a Hk; apply get_add_keep; apply get_add_keep; exact Hk|].
    split; [reflexivity|].
    split.
    { intros ref [<-|[<-|[]]]; cbn [storeId refOf]; [exact Hfresh|].
      rewrite Hg1. destruct Hw as [_ [_ Hall]]. rewrite Forall_forall in Hall.
      unfold IDB.get. destruct (IDB.lookup _ _) as [a|] eqn:Hl; [|reflexivity].
      apply lookup_In in Hl. specialize (Hall _ Hl). simpl in Hall. lia. }
    split.
    { intros f [= <-]. eexists. eexists. split; [reflexivity|].
      cbn [kind refOf ref_name ref_type storeId]. repeat (split; [reflexivity|]).
      apply get_add_keep. apply (get_add_same s (fun _ => attachmentOf now p) Hw). }
    split.
    { intros f [= <-]. eexists. split; [right; left; reflexivity|].
      cbn [kind refOf ref_name ref_type storeId]. repeat (split; [reflexivity|]).
      apply (get_add_same s1 (fun _ => attachmentOf now d) Hw1). }
    discriminate.
  - split; [apply add_wellKeyed; exact Hw|].
    split; [intros k a Hk; apply get_add_keep; exact Hk|].
    split; [reflexivity|].
    split; [intros ref [<-|[]]; exact Hfresh|].
    split.
    { intros f [= <-]. eexists. eexists. split; [reflexivity|].
      cbn [kind refOf ref_name ref_type storeId]. repeat (split; [reflexivity|]).
      apply (get_add_same s (fun _ => attachmentOf now p) Hw). }
    split; discriminate.
  - split; [apply add_wellKeyed; exact Hw|].
    split; [intros k a Hk; apply get_add_keep; exact Hk|].
    split; [reflexivity|].
    split; [intros ref [<-|[]]; exact Hfresh|].
    split; [discriminate|].
    split.
    { intros f [= <-]. eexists. split; [left; reflexivity|].
      cbn [kind refOf ref_name ref_type storeId]. repeat (split; [reflexivity|]).
      apply (get_add_same s (fun _ => attachmentOf now d) Hw). }
    intros _ f [= <-]. eexists. split; [reflexivity|]. split; [reflexivity|].
    apply (get_add_same s (fun _ => attachmentOf now d) Hw).
  - split; [exact Hw|]. split; [trivial|]. split; [reflexivity|].
    split; [intros ref []|]. repeat split; discriminate.
Qed.

(** ** The effect of a create *)

Lemma todayStr_not_empty now : todayStr now <> EmptyString.
Proof. unfold todayStr. rewrite toISODate_chars. discriminate. Qed.

Lemma valid_form name amount :
  name <> [] -> 0 < amount -> JSString.empty name || (amount <=? 0) = false.
Proof.
  intros Hn Ha. destruct (JSString.empty name) eqn:Hf; [apply empty_nil in Hf; contradiction|].
  cbn [orb]. apply Z.leb_gt. exact Ha.
Qed.

Lemma date_not_empty now d : (if JSString.falsy d then todayStr now else d) <> EmptyString.
Proof.
  destruct (JSString.falsy d) eqn:Hf; [apply todayStr_not_empty|].
  intros ->. discriminate.
Qed.

Lemma onAddTx_valid now f w :
  JSString.trim (Unified.f_name f) <> [] ->
  0 < parseAmount (Unified.f_amount f) ->
  let acc := attached now (Unified.f_photo f) (Unified.f_document f) (Unified.db_attachments w) in
  Unified.onAddTx now f w
  = {| Unified.db_transactions :=
         fst (IDB.add (Unified.db_transactions w) (txOf now f (snd acc)));
       Unified.db_attachments := fst acc;
       Unified.st :=
         {| Unified.txs := txOf now f (snd acc) (IDB.keyGenerator (Unified.db_transactions w))
                           :: Unified.txs (Unified.st w);
            Unified.editId := Unified.editId (Unified.st w) |} |}.
Proof.
  intros Hn Ha acc. unfold Unified.onAddTx. rewrite (valid_form _ _ Hn Ha).
  subst acc. unfold attached.
  destruct (addAttachment now "document" (Unified.f_document f)
              (addAttachment now "photo" (Unified.f_photo f) (Unified.db_attachments w, [])))
    as [atts refs].
  reflexivity.
Qed.

Lemma onAddExpense_valid LocalTZA now f w :
  JSString.trim (Legacy.f_name f) <> [] ->
  0 < parseAmount (Legacy.f_amount f) ->
  let acc := attached now (Legacy.f_photo f) (Legacy.f_document f) (Legacy.db_attachments w) in
  Legacy.onAddExpense LocalTZA now f w
  = Legacy.render LocalTZA now
      {| Legacy.db_expenses := fst (IDB.add (Legacy.db_expenses w) (expenseOf now f (snd acc)));
         Legacy.db_attachments := fst acc;
         Legacy.db_meta := Legacy.db_meta w;
         Legacy.st := Legacy.st w |}
      {| Legacy.expenses := expenseOf now f (snd acc) (IDB.keyGenerator (Legacy.db_expenses w))
                            :: Legacy.expenses (Legacy.st w);
         Legacy.income := Legacy.income (Legacy.st w);
         Legacy.filtered := Legacy.filtered (Legacy.st w);
         Legacy.period := Legacy.period (Legacy.st w);
         Legacy.editId := Legacy.editId (Legacy.st w) |}.
Proof.
  intros Hn Ha acc. unfold Legacy.onAddExpense. rewrite (valid_form _ _ Hn Ha).
  subst acc. unfold attached.
  destruct (addAttachment now "document" (Legacy.f_document f)
              (addAttachment now "photo" (Legacy.f_photo f) (Legacy.db_attachments w, [])))
    as [atts refs].
  reflexivity.
Qed.

(** [X26] A valid create in the unified application, on a store with
    well-formed keys: the new transaction takes the next key of the
    generator, which no record held; it has the type of the form, the
    trimmed name, the parsed amount, the date of the form or the UTC date of
    the clock reading when the form has none, and the clock reading as
    creation time; the store returns it under its key and lists it last;
    every other key reads as before; the mirror has it in front; the staged
    id stays. *)
Theorem onAddTx_stores_record now f w :
  JSString.trim (Unified.f_name f) <> [] ->
  0 < parseAmount (Unified.f_amount f) ->
  wellKeyed (Unified.db_transactions w) ->
  let w' := Unified.onAddTx now f w in
  exists t,
    Unified.txs (Unified.st w') = t :: Unified.txs (Unified.st w) /\
    Unified.id t = IDB.keyGenerator (Unified.db_transactions w) /\
    Unified.type t = Unified.f_type f /\
    Unified.name t = JSString.trim (Unified.f_name f) /\
    JSString.trim (Unified.name t) = Unified.name t /\
    JSString.is_space (hd 0 (Unified.name t)) = false /\
    JSString.is_space (last (Unified.name t) 0) = false /\
    Unified.amount t = parseAmount (Unified.f_amount f) /\
    (Unified.f_date f = EmptyString -> Unified.date t = todayStr now) /\
    (Unified.f_date f <> EmptyString -> Unified.date t = Unified.f_date f) /\
    Unified.created t = now /\
    IDB.get (Unified.db_transactions w) (Unified.id t) = None /\
    IDB.get (Unified.db_transactions w') (Unified.id t) = Some t /\
    (forall k, k <> Unified.id t ->
               IDB.get (Unified.db_transactions w') k = IDB.get (Unified.db_transactions w) k) /\
    IDB.getAll (Unified.db_transactions w') = IDB.getAll (Unified.db_transactions w) ++ [t] /\
    wellKeyed (Unified.db_transactions w') /\
    Unified.editId (Unified.st w') = Unified.editId (Unified.st w).
Proof.
  intros Hn Ha Hw w'. subst w'. rewrite (onAddTx_valid now f w Hn Ha).
  set (refs := snd (attached now (Unified.f_photo f) (Unified.f_document f)
                      (Unified.db_attachments w))).
  exists (txOf now f refs (IDB.keyGenerator (Unified.db_transactions w))).
  cbn [Unified.st Unified.txs Unified.db_transactions Unified.editId].
  split; [reflexivity|]. cbn [txOf Unified.id Unified.type Unified.name Unified.amount
                               Unified.date Unified.created].
  split; [reflexivity|]. split; [reflexivity|]. split; [reflexivity|].
  split; [apply trim_idempotent|].
  split; [apply (trim_ends _ Hn)|]. split; [apply (trim_ends _ Hn)|]. split; [reflexivity|].
  split; [intros ->; reflexivity|].
  split; [intros Hd; destruct (JSString.falsy (Unified.f_date f)) eqn:Hf;
          [apply falsy_empty in Hf; contradiction|reflexivity]|].
  split; [reflexivity|].
  split; [apply wellKeyed_fresh; exact Hw|].
  split; [exact (get_add_same (Unified.db_transactions w) (txOf now f refs) Hw)|].
  split; [intros k Hk; apply get_add_other; exact Hk|].
  split; [exact (getAll_add (Unified.db_transactions w) (txOf now f refs))|].
  split; [apply add_wellKeyed; exact Hw|reflexivity].
Qed.

(** A name that ends with a NO-BREAK SPACE: the stored name is "Cafe". *)
Lemma onAddTx_stores_record_witness :
  JSString.trim (Unified.f_name cafeTxForm) <> [] /\
  0 < parseAmount (Unified.f_amount cafeTxForm) /\
  wellKeyed (Unified.db_transactions emptyUnified) /\
  exists t,
    Unified.txs (Unified.st (Unified.onAddTx sampleNow cafeTxForm emptyUnified)) = [t] /\
    Unified.id t = 1 /\
    Unified.name t = JSString.literal "Cafe" /\
    IDB.get (Unified.db_transactions (Unified.onAddTx sampleNow cafeTxForm emptyUnified)) 1
    = Some t.
Proof.
  assert (Hn : JSString.trim (Unified.f_name cafeTxForm) <> []) by discriminate.
  assert (Ha : 0 < parseAmount (Unified.f_amount cafeTxForm)) by reflexivity.
  assert (Hw : wellKeyed (Unified.db_transactions emptyUnified)) by apply wellKeyed_create.
  split; [exact Hn|]. split; [exact Ha|]. split; [exact Hw|].
  destruct (onAddTx_stores_record sampleNow cafeTxForm emptyUnified Hn Ha Hw)
    as [t [H1 [H2 [_ [H4 [_ [_ [_ [_ [_ [_ [_ [_ [H3 _]]]]]]]]]]]]]].
  exists t. split; [exact H1|]. split; [exact H2|]. split; [rewrite H4; reflexivity|].
  rewrite H2 in H3. exact H3.
Defined.

(** [X27] The attachments of a valid create in the unified application, on
    an attachment store with well-formed keys: the new transaction refers
    to one attachment for each chosen file, the photo first; each reference
    has the name and type of its file, was not in use before, and opens an
    attachment holding that file; and every reference that opened an
    attachment before opens the same one. *)
Theorem onAddTx_attachments now f w :
  JSString.trim (Unified.f_name f) <> [] ->
  0 < parseAmount (Unified.f_amount f) ->
  wellKeyed (Unified.db_attachments w) ->
  let w' := Unified.onAddTx now f w in
  exists t rest,
    Unified.txs (Unified.st w') = t :: rest /\
    map kind (Unified.attachments t)
    = (match Unified.f_photo f with Some _ => ["photo"%string] | None => [] end)
        ++ (match Unified.f_document f with Some _ => ["document"%string] | None => [] end) /\
    (forall p, Unified.f_photo f = Some p ->
               exists ref, In ref (Unified.attachments t) /\ kind ref = "photo"%string /\
                           ref_name ref = file_name p /\ ref_type ref = file_type p /\
                           Unified.openAttachment ref w' = Some (attachmentOf now p)) /\
    (forall d, Unified.f_document f = Some d ->
               exists ref, In ref (Unified.attachments t) /\ kind ref = "document"%string /\
                           ref_name ref = file_name d /\ ref_type ref = file_type d /\
                           Unified.openAttachment ref w' = Some (attachmentOf now d)) /\
    (forall ref, In ref (Unified.attachments t) -> Unified.openAttachment ref w = None) /\
    (forall ref a, Unified.openAttachment ref w = Some a ->
                   Unified.openAttachment ref w' = Some a) /\
    wellKeyed (Unified.db_attachments w').
Proof.
  intros Hn Ha Hw w'. subst w'. rewrite (onAddTx_valid now f w Hn Ha).
  destruct (attachments_added now (Unified.f_photo f) (Unified.f_document f)
              (Unified.db_attachments w) Hw) as [H1 [H2 [H3 [H4 [H5 [H6 _]]]]]].
  eexists. eexists. cbn [Unified.st Unified.txs]. split; [reflexivity|].
  unfold Unified.openAttachment. cbn [txOf Unified.attachments Unified.db_attachments].
  split; [exact H3|]. split.
  { intros p Hp. destruct (H5 p Hp) as [ref [rest [E [K [N [T G]]]]]].
    exists ref. split; [rewrite E; now left|]. repeat (split; [assumption|]). exact G. }
  split; [exact H6|]. split; [exact H4|]. split; [|exact H1].
  intros ref a. apply H2.
Qed.

Lemma onAddTx_attachments_witness :
  JSString.trim (Unified.f_name lunchTxForm) <> [] /\
  0 < parseAmount (Unified.f_amount lunchTxForm) /\
  wellKeyed (Unified.db_attachments emptyUnified) /\
  exists t rest,
    Unified.txs (Unified.st (Unified.onAddTx sampleNow lunchTxForm emptyUnified)) = t :: rest /\
    map kind (Unified.attachments t) = ["photo"; "document"]%string.
Proof.
  assert (Hn : JSString.trim (Unified.f_name lunchTxForm) <> []) by discriminate.
  assert (Ha : 0 < parseAmount (Unified.f_amount lunchTxForm)) by reflexivity.
  assert (Hw : wellKeyed (Unified.db_attachments emptyUnified)) by apply wellKeyed_create.
  split; [exact Hn|]. split; [exact Ha|]. split; [exact Hw|].
  destruct (onAddTx_attachments sampleNow lunchTxForm emptyUnified Hn Ha Hw)
    as [t [rest [H1 [H2 _]]]].
  exists t, rest. split; [exact H1|exact H2].
Defined.

(** ** The list item of a new expense *)

(** [X12] After a valid create in the legacy application, [renderList]
    shows no empty state and its first item is the new expense; the item
    has no attachment link when no file was chosen, the link 'Comprobante'
    opening the chosen file when one file was chosen, and the link
    '2 archivos' opening the photo when both a photo and a document were
    chosen. *)
Theorem new_item_link LocalTZA now f w :
  JSString.trim (Legacy.f_name f) <> [] ->
  0 < parseAmount (Legacy.f_amount f) ->
  wellKeyed (Legacy.db_attachments w) ->
  let w' := Legacy.onAddExpense LocalTZA now f w in
  let list := Legacy.renderList LocalTZA (Legacy.expenses (Legacy.st w')) in
  Legacy.emptyState list = false /\
  exists it rest,
    Legacy.expenseItems list = it :: rest /\
    Legacy.dataset_id it = IDB.keyGenerator (Legacy.db_expenses w) /\
    Legacy.title it = (JSString.trim (Legacy.f_name f), parseAmount (Legacy.f_amount f)) /\
    (Legacy.f_photo f = None -> Legacy.f_document f = None -> Legacy.thumb it = None) /\
    (forall p, Legacy.f_photo f = Some p -> Legacy.f_document f = None ->
               exists ref, Legacy.thumb it = Some (Legacy.Comprobante, ref) /\
                           Legacy.openAttachment ref w' = Some (attachmentOf now p)) /\
    (forall d, Legacy.f_photo f = None -> Legacy.f_document f = Some d ->
               exists ref, Legacy.thumb it = Some (Legacy.Comprobante, ref) /\
                           Legacy.openAttachment ref w' = Some (attachmentOf now d)) /\
    (forall p d, Legacy.f_photo f = Some p -> Legacy.f_document f = Some d ->
                 exists ref, Legacy.thumb it = Some (Legacy.archivos 2, ref) /\
                             Legacy.openAttachment ref w' = Some (attachmentOf now p)).
Proof.
  intros Hn Ha Hw w' list. subst list w'. rewrite (onAddExpense_valid LocalTZA now f w Hn Ha).
  destruct (attachments_added now (Legacy.f_photo f) (Legacy.f_document f)
              (Legacy.db_attachments w) Hw) as [_ [_ [Hk [_ [Hp [_ Hd]]]]]].
  set (acc := attached now (Legacy.f_photo f) (Legacy.f_document f) (Legacy.db_attachments w))
    in *.
  cbn [Legacy.render Legacy.st Legacy.computeAndRender fst Legacy.expenses Legacy.renderList
         Legacy.emptyState Legacy.expenseItems map].
  split; [reflexivity|].
  eexists. eexists. split; [reflexivity|].
  unfold Legacy.openAttachment.
  cbn [Legacy.dataset_id Legacy.title Legacy.thumb expenseOf Legacy.id Legacy.name Legacy.amount
         Legacy.attachments Legacy.db_attachments].
  split; [reflexivity|]. split; [reflexivity|].
  split; [|split; [|split]].
  - intros H1 H2. rewrite H1, H2 in Hk. destruct (snd acc); [reflexivity|discriminate].
  - intros p H1 H2. destruct (Hp p H1) as [ref [rest [E [_ [_ [_ G]]]]]].
    rewrite H1, H2 in Hk. rewrite E in *. destruct rest; [|discriminate].
    exists ref. split; [reflexivity|exact G].
  - intros d H1 H2. destruct (Hd H1 d H2) as [ref [E [_ G]]]. rewrite E.
    exists ref. split; [reflexivity|exact G].
  - intros p d H1 H2. destruct (Hp p H1) as [ref [rest [E [_ [_ [_ G]]]]]].
    rewrite H1, H2 in Hk. rewrite E in *. destruct rest as [|r [|]]; try discriminate.
    exists ref. split; [reflexivity|exact G].
Qed.

Lemma new_item_link_witness :
  JSString.trim (Legacy.f_name lunchForm) <> [] /\
  0 < parseAmount (Legacy.f_amount lunchForm) /\
  JSString.trim (Legacy.f_name cafeForm) <> [] /\
  0 < parseAmount (Legacy.f_amount cafeForm) /\
  wellKeyed (Legacy.db_attachments emptyLegacy) /\
  Legacy.emptyState (Legacy.renderList 0 (Legacy.expenses (Legacy.st lunchWorld))) = false /\
  map Legacy.thumb (Legacy.expenseItems (Legacy.renderList 0 (Legacy.expenses (Legacy.st lunchWorld))))
  = [Some (Legacy.archivos 2, refOf 1 "photo" receipt)] /\
  exists it rest,
    Legacy.expenseItems
      (Legacy.renderList 0
         (Legacy.expenses (Legacy.st (Legacy.onAddExpense 0 sampleNow cafeForm emptyLegacy))))
    = it :: rest /\
    Legacy.title it = (JSString.literal "Cafe", 3500).
Proof.
  assert (Hn : JSString.trim (Legacy.f_name lunchForm) <> []) by discriminate.
  assert (Ha : 0 < parseAmount (Legacy.f_amount lunchForm)) by reflexivity.
  assert (Hn' : JSString.trim (Legacy.f_name cafeForm) <> []) by discriminate.
  assert (Ha' : 0 < parseAmount (Legacy.f_amount cafeForm)) by reflexivity.
  assert (Hw : wellKeyed (Legacy.db_attachments emptyLegacy)) by apply wellKeyed_create.
  split; [exact Hn|]. split; [exact Ha|]. split; [exact Hn'|]. split; [exact Ha'|].
  split; [exact Hw|].
  split; [exact (proj1 (new_item_link 0 sampleNow lunchForm emptyLegacy Hn Ha Hw))|].
  split; [reflexivity|].
  destruct (proj2 (new_item_link 0 sampleNow cafeForm emptyLegacy Hn' Ha' Hw))
    as [it [rest [E [_ [T _]]]]].
  exists it, rest. split; [exact E|]. rewrite T. reflexivity.
Defined.

(** ** Updates *)

Lemma updateExpense_valid LocalTZA now f w k e :
  staged (Legacy.editId (Legacy.st w)) = Some k ->
  JSString.trim (Legacy.editName f) <> [] ->
  0 < parseAmount (Legacy.editAmount f) ->
  IDB.get (Legacy.db_expenses w) k = Some e ->
  Legacy.updateExpense LocalTZA now f w
  = Done (Legacy.render LocalTZA now
            {| Legacy.db_expenses := IDB.put (Legacy.db_expenses w) (Legacy.id e) (edited now f e);
               Legacy.db_attachments := Legacy.db_attachments w;
               Legacy.db_meta := Legacy.db_meta w;
               Legacy.st := Legacy.st w |}
            {| Legacy.expenses :=
                 JSArray.sort Legacy.compareFn
                   (JSArray.assignAt (Legacy.expenses (Legacy.st w))
                      (JSArray.findIndex (fun x => Legacy.id x =? Legacy.id e)
                         (Legacy.expenses (Legacy.st w)))
                      (edited now f e));
               Legacy.income := Legacy.income (Legacy.st w);
               Legacy.filtered := Legacy.filtered (Legacy.st w);
               Legacy.period := Legacy.period (Legacy.st w);
               Legacy.editId := Legacy.editId (Legacy.st w) |}).
Proof.
  intros Hs Hn Ha Hg. unfold Legacy.updateExpense. rewrite Hs, (valid_form _ _ Hn Ha), Hg.
  reflexivity.
Qed.

Lemma assign_In {A : Type} (l : list A) i v x :
  In x (JSArray.assign l i v) -> x = v \/ In x l.
Proof.
  revert i. induction l as [|y l IH]; intros [|i]; simpl; try tauto.
  - intros [<-|H]; [now left|right; now right].
  - intros [<-|H]; [right; now left|]. destruct (IH i H); [now left|right; now right].
Qed.

Lemma assignAt_findIndex_In {A : Type} (p : A -> bool) (l : list A) v :
  (exists x, In x l /\ p x = true) -> In v (JSArray.assignAt l (JSArray.findIndex p l) v).
Proof.
  intros [x [Hin Hp]]. induction l as [|y l IH]; [contradiction|].
  cbn [JSArray.findIndex]. destruct (p y) eqn:Hy; [now left|].
  destruct Hin as [->|Hin]; [congruence|]. specialize (IH Hin).
  destruct (JSArray.findIndex p l); [right; exact IH|right; exact IH].
Qed.

Lemma assignAt_findIndex_keeps {A : Type} (p : A -> bool) (l : list A) v x :
  In x l -> p x = false -> In x (JSArray.assignAt l (JSArray.findIndex p l) v).
Proof.
  intros Hin Hp. induction l as [|y l IH]; [contradiction|].
  cbn [JSArray.findIndex]. destruct (p y) eqn:Hy.
  - destruct Hin as [->|Hin]; [congruence|]. right. exact Hin.
  - destruct Hin as [->|Hin].
    + destruct (JSArray.findIndex p l); now left.
    + specialize (IH Hin). destruct (JSArray.findIndex p l); right; exact IH.
Qed.

(** [X15] An update whose staged id is in the store, with a valid form:
    [updateExpense] runs to its end; the stored record of that id gets the
    trimmed name, the parsed amount and the date of the form and keeps its
    id, attachments and creation time; no other record, no attachment and
    no [meta] record changes; the income and the staged id stay; the mirror
    is sorted, holds the edited record when it held a record of that id,
    keeps the records of other ids and gains no other record. *)
Theorem updateExpense_rewrites_record LocalTZA now f w k e :
  staged (Legacy.editId (Legacy.st w)) = Some k ->
  JSString.trim (Legacy.editName f) <> [] ->
  0 < parseAmount (Legacy.editAmount f) ->
  IDB.get (Legacy.db_expenses w) k = Some e ->
  Legacy.id e = k ->
  exists w',
    Legacy.updateExpense LocalTZA now f w = Done w' /\
    IDB.get (Legacy.db_expenses w') k = Some (edited now f e) /\
    (forall k', k' <> k ->
                IDB.get (Legacy.db_expenses w') k' = IDB.get (Legacy.db_expenses w) k') /\
    Legacy.db_attachments w' = Legacy.db_attachments w /\
    Legacy.db_meta w' = Legacy.db_meta w /\
    Legacy.income (Legacy.st w') = Legacy.income (Legacy.st w) /\
    Legacy.editId (Legacy.st w') = Legacy.editId (Legacy.st w) /\
    legacyMirrorSorted (Legacy.expenses (Legacy.st w')) /\
    ((exists x, In x (Legacy.expenses (Legacy.st w)) /\ Legacy.id x = k) ->
     In (edited now f e) (Legacy.expenses (Legacy.st w'))) /\
    (forall x, In x (Legacy.expenses (Legacy.st w)) -> Legacy.id x <> k ->
               In x (Legacy.expenses (Legacy.st w'))) /\
    (forall x, In x (Legacy.expenses (Legacy.st w')) ->
               x = edited now f e \/ In x (Legacy.expenses (Legacy.st w))).
Proof.
  intros Hs Hn Ha Hg Hid. eexists.
  split; [apply (updateExpense_valid LocalTZA now f w k e Hs Hn Ha Hg)|].
  cbn [Legacy.render Legacy.db_expenses Legacy.db_attachments Legacy.db_meta Legacy.st
         Legacy.computeAndRender fst Legacy.expenses Legacy.income Legacy.editId].
  rewrite Hid.
  split; [apply get_put_same|]. split; [intros k' Hk'; now apply get_put_other|].
  split; [reflexivity|]. split; [reflexivity|]. split; [reflexivity|]. split; [reflexivity|].
  split; [apply sort_descending|].
  split; [|split].
  - intros [x [Hin Hx]].
    apply (Permutation_in _ (sort_perm Legacy.compareFn _)).
    apply assignAt_findIndex_In. exists x. split; [exact Hin|]. now apply Z.eqb_eq.
  - intros x Hin Hx.
    apply (Permutation_in _ (sort_perm Legacy.compareFn _)).
    apply assignAt_findIndex_keeps; [exact Hin|]. now apply Z.eqb_neq.
  - intros x Hin.
    apply (Permutation_in _ (Permutation_sym (sort_perm Legacy.compareFn _))) in Hin.
    destruct (JSArray.findIndex _ _) as [i|]; cbn [JSArray.assignAt] in Hin;
      [now apply assign_In in Hin|now right].
Qed.


(** An edit name with an EM SPACE in front and a NO-BREAK SPACE behind:
    the stored name is "Cena". *)
Lemma updateExpense_rewrites_record_witness :
  staged (Legacy.editId (Legacy.st lunchEdit)) = Some 1 /\
  IDB.get (Legacy.db_expenses lunchEdit) 1 = Some lunch /\
  JSString.trim (Legacy.editName cenaEdit) <> [] /\
  0 < parseAmount (Legacy.editAmount cenaEdit) /\
  exists w', Legacy.updateExpense 0 sampleNow cenaEdit lunchEdit = Done w' /\
             IDB.get (Legacy.db_expenses w') 1 = Some (edited sampleNow cenaEdit lunch) /\
             Legacy.name (edited sampleNow cenaEdit lunch) = JSString.literal "Cena".
Proof.
  assert (Hs : staged (Legacy.editId (Legacy.st lunchEdit)) = Some 1) by reflexivity.
  assert (Hg : IDB.get (Legacy.db_expenses lunchEdit) 1 = Some lunch) by reflexivity.
  assert (Hn : JSString.trim (Legacy.editName cenaEdit) <> []) by discriminate.
  assert (Ha : 0 < parseAmount (Legacy.editAmount cenaEdit)) by reflexivity.
  split; [exact Hs|]. split; [exact Hg|]. split; [exact Hn|]. split; [exact Ha|].
  destruct (updateExpense_rewrites_record 0 sampleNow cenaEdit lunchEdit 1 lunch
              Hs Hn Ha Hg eq_refl) as [w' [H1 [H2 _]]].
  exists w'. split; [exact H1|]. split; [exact H2|reflexivity].
Defined.

(** [X16] Opening the edit dialog on a stored expense and saving it as the
    dialog shows it leaves the database as it was, for an expense with a
    trimmed name that is not empty, an amount from 1 up to 2^53 and a
    date. *)
Theorem edit_without_change LocalTZA now w e :
  wellKeyed (Legacy.db_expenses w) ->
  IDB.get (Legacy.db_expenses w) (Legacy.id e) = Some e ->
  JSString.trim (Legacy.name e) = Legacy.name e ->
  Legacy.name e <> [] ->
  0 < Legacy.amount e < 2 ^ 53 ->
  Legacy.date e <> EmptyString ->
  exists w',
    Legacy.updateExpense LocalTZA now (Legacy.editDialogFields e) (Legacy.openEditDialog e w)
    = Done w' /\
    Legacy.db_expenses w' = Legacy.db_expenses w /\
    Legacy.db_attachments w' = Legacy.db_attachments w /\
    Legacy.db_meta w' = Legacy.db_meta w /\
    IDB.get (Legacy.db_expenses w') (Legacy.id e) = Some e.
Proof.
  intros Hw Hg Ht Hn Ha Hd.
  pose proof (wellKeyed_positive _ _ _ Hw Hg) as Hk.
  assert (Hs : staged (Legacy.editId (Legacy.st (Legacy.openEditDialog e w)))
               = Some (Legacy.id e)).
  { cbn. destruct (Legacy.id e); try reflexivity. lia. }
  assert (Hamount : parseAmount (Legacy.editAmount (Legacy.editDialogFields e)) = Legacy.amount e)
    by (apply parseAmount_of_Z; lia).
  assert (He : edited now (Legacy.editDialogFields e) e = e).
  { unfold edited. rewrite Hamount. cbn [Legacy.editDialogFields Legacy.editName Legacy.editDate].
    rewrite Ht. destruct (JSString.falsy (Legacy.date e)) eqn:Hf;
      [apply falsy_empty in Hf; contradiction|].
    destruct e; reflexivity. }
  eexists. split.
  - apply (updateExpense_valid LocalTZA now _ _ (Legacy.id e) e Hs).
    + cbn [Legacy.editDialogFields Legacy.editName]. rewrite Ht. exact Hn.
    + rewrite Hamount. lia.
    + exact Hg.
  - cbn [Legacy.render Legacy.db_expenses Legacy.db_attachments Legacy.db_meta
           Legacy.openEditDialog].
    rewrite He, (put_same_value _ _ _ Hw Hg). repeat split. exact Hg.
Qed.

Lemma edit_without_change_witness :
  wellKeyed (Legacy.db_expenses lunchWorld) /\
  exists w',
    Legacy.updateExpense 0 sampleNow (Legacy.editDialogFields lunch)
      (Legacy.openEditDialog lunch lunchWorld) = Done w' /\
    Legacy.db_expenses w' = Legacy.db_expenses lunchWorld.
Proof.
  assert (Hw : wellKeyed (Legacy.db_expenses lunchWorld)).
  { apply (add_wellKeyed (Legacy.db_expenses emptyLegacy)). apply wellKeyed_create. }
  split; [exact Hw|].
  assert (Hg : IDB.get (Legacy.db_expenses lunchWorld) (Legacy.id lunch) = Some lunch)
    by reflexivity.
  assert (Ha : 0 < Legacy.amount lunch < 2 ^ 53) by (split; reflexivity).
  destruct (edit_without_change 0 sampleNow lunchWorld lunch Hw Hg eq_refl
              ltac:(discriminate) Ha ltac:(discriminate)) as [w' [H1 [H2 _]]].
  exists w'. split; [exact H1|exact H2].
Defined.

(** ** Deletes *)

(** [X17] [deleteExpense] changes no record of another id, neither in the
    store nor in the mirror, and leaves the key generator, the [meta]
    store, the income and the staged id as they were; it keeps a sorted
    mirror sorted; and deleting the same id again changes nothing. *)
Theorem deleteExpense_only_that_record LocalTZA now id w :
  let w' := Legacy.deleteExpense LocalTZA now id w in
  (forall k, k <> id ->
             IDB.get (Legacy.db_expenses w') k = IDB.get (Legacy.db_expenses w) k) /\
  (forall e, Legacy.id e <> id ->
             (In e (Legacy.expenses (Legacy.st w')) <-> In e (Legacy.expenses (Legacy.st w)))) /\
  IDB.keyGenerator (Legacy.db_expenses w') = IDB.keyGenerator (Legacy.db_expenses w) /\
  Legacy.db_meta w' = Legacy.db_meta w /\
  Legacy.income (Legacy.st w') = Legacy.income (Legacy.st w) /\
  Legacy.editId (Legacy.st w') = Legacy.editId (Legacy.st w) /\
  (legacyMirrorSorted (Legacy.expenses (Legacy.st w)) ->
   legacyMirrorSorted (Legacy.expenses (Legacy.st w'))) /\
  Legacy.deleteExpense LocalTZA now id w' = w'.
Proof.
  intros w'. split; [intros k Hk; now apply get_delete_other|]. split.
  - intros e He. subst w'.
    cbn [Legacy.deleteExpense Legacy.render Legacy.st Legacy.computeAndRender fst
           Legacy.expenses].
    rewrite filter_In. split; [tauto|]. intros Hin. split; [exact Hin|].
    now apply negb_true_iff, Z.eqb_neq.
  - split; [reflexivity|]. split; [reflexivity|]. split; [reflexivity|].
    split; [reflexivity|]. split; [apply deleteExpense_sorted|].
    subst w'. unfold Legacy.deleteExpense, Legacy.render.
    cbn [Legacy.db_expenses Legacy.db_attachments Legacy.db_meta Legacy.st
           Legacy.computeAndRender fst Legacy.expenses Legacy.income Legacy.period
           Legacy.editId Legacy.filtered].
    assert (Hf : forall (l : list Legacy.expense),
               filter (fun e => negb (Legacy.id e =? id))
                 (filter (fun e => negb (Legacy.id e =? id)) l)
               = filter (fun e => negb (Legacy.id e =? id)) l).
    { induction l as [|x l IH]; [reflexivity|]. cbn [filter].
      destruct (negb (Legacy.id x =? id)) eqn:Hx; [|exact IH].
      cbn [filter]. now rewrite Hx, IH. }
    assert (Hr : forall (l : list (Z * Legacy.expense)),
               filter (fun kv => negb (fst kv =? id))
                 (filter (fun kv => negb (fst kv =? id)) l)
               = filter (fun kv => negb (fst kv =? id)) l).
    { induction l as [|x l IH]; [reflexivity|]. cbn [filter].
      destruct (negb (fst x =? id)) eqn:Hx; [|exact IH].
      cbn [filter]. now rewrite Hx, IH. }
    unfold IDB.delete. cbn [IDB.records IDB.keyGenerator IDB.indexNames].
    rewrite Hf, Hr. reflexivity.
Qed.

Lemma deleteExpense_only_that_record_witness :
  2 <> 1 /\
  IDB.get (Legacy.db_expenses (Legacy.deleteExpense 0 sampleNow 2 lunchWorld)) 1 = Some lunch.
Proof.
  assert (H : 1 <> 2) by discriminate.
  split; [discriminate|].
  rewrite (proj1 (deleteExpense_only_that_record 0 sampleNow 2 lunchWorld) 1 H). reflexivity.
Defined.

(** [X18] [deleteExpense] does not clear the id that [openEditDialog]
    staged: after the edit dialog was opened on an expense and that expense
    was deleted, [updateExpense] with a valid form throws. *)
Theorem delete_then_update_throws LocalTZA now now' f e w :
  Legacy.id e <> 0 ->
  JSString.trim (Legacy.editName f) <> [] ->
  0 < parseAmount (Legacy.editAmount f) ->
  Legacy.editId (Legacy.st (Legacy.deleteExpense LocalTZA now (Legacy.id e)
                              (Legacy.openEditDialog e w))) = Some (Legacy.id e) /\
  Legacy.updateExpense LocalTZA now' f
    (Legacy.deleteExpense LocalTZA now (Legacy.id e) (Legacy.openEditDialog e w))
  = TypeError.
Proof.
  intros Hid Hn Ha. split; [reflexivity|].
  apply (updateExpense_missing LocalTZA now' f _ (Legacy.id e)).
  - cbn. destruct (Legacy.id e); try reflexivity. contradiction.
  - exact Hn.
  - exact Ha.
  - apply get_delete.
Qed.

Lemma delete_then_update_throws_witness :
  Legacy.id lunch <> 0 /\
  Legacy.updateExpense 0 sampleNow renameForm
    (Legacy.deleteExpense 0 sampleNow (Legacy.id lunch) (Legacy.openEditDialog lunch lunchWorld))
  = TypeError.
Proof.
  assert (Hid : Legacy.id lunch <> 0) by discriminate.
  split; [exact Hid|].
  exact (proj2 (delete_then_update_throws 0 sampleNow sampleNow renameForm lunch lunchWorld Hid
                  ltac:(discriminate) eq_refl)).
Defined.

(** ** The declared income *)

Lemma metaGet_metaPut_same m k v : Legacy.metaGet (Legacy.metaPut m k v) k = Some v.
Proof.
  induction m as [|[k0 v0] m IH]; cbn [Legacy.metaPut Legacy.metaGet].
  - now rewrite String.eqb_refl.
  - destruct (String.compare k k0) eqn:Hc; cbn [Legacy.metaGet].
    + now rewrite String.eqb_refl.
    + now rewrite String.eqb_refl.
    + destruct (String.eqb_spec k k0) as [->|_]; [|exact IH].
      rewrite compare_refl in Hc. discriminate.
Qed.

Lemma metaGet_metaPut_other m k k' v :
  k' <> k -> Legacy.metaGet (Legacy.metaPut m k v) k' = Legacy.metaGet m k'.
Proof.
  intros Hne. induction m as [|[k0 v0] m IH]; cbn [Legacy.metaPut Legacy.metaGet].
  - destruct (String.eqb_spec k' k); [contradiction|reflexivity].
  - destruct (String.compare k k0) eqn:Hc; cbn [Legacy.metaGet].
    + apply compare_eq in Hc. subst k0.
      destruct (String.eqb_spec k' k); [contradiction|reflexivity].
    + destruct (String.eqb_spec k' k); [contradiction|reflexivity].
    + destruct (String.eqb k' k0); [reflexivity|exact IH].
Qed.

(** [X14] [saveIncome] sets the income of the state to the parsed input,
    never a negative value, and 0 when the input is negative or not finite;
    it writes the value under [income] in the [meta] store, so a later load
    reads the same income; it changes no other key of [meta], no expense
    and no attachment; and saving the value that [openIncomeDialog] put in
    the input leaves the income as it was (for an income from 0 up to
    2^53). *)
Theorem saveIncome_persists LocalTZA now v w :
  let w' := Legacy.saveIncome LocalTZA now v w in
  Legacy.income (Legacy.st w') = parseAmount v /\
  0 <= Legacy.income (Legacy.st w') /\
  (negative v = true \/ JSNumber.isFinite v = false -> Legacy.income (Legacy.st w') = 0) /\
  (forall now', Legacy.income (Legacy.st (Legacy.loadAll LocalTZA now' w')) = parseAmount v) /\
  (forall key, key <> "income"%string ->
               Legacy.metaGet (Legacy.db_meta w') key = Legacy.metaGet (Legacy.db_meta w) key) /\
  Legacy.db_expenses w' = Legacy.db_expenses w /\
  Legacy.db_attachments w' = Legacy.db_attachments w /\
  Legacy.expenses (Legacy.st w') = Legacy.expenses (Legacy.st w) /\
  (0 <= Legacy.income (Legacy.st w) < 2 ^ 53 ->
   Legacy.income (Legacy.st (Legacy.saveIncome LocalTZA now (Legacy.openIncomeDialog w) w))
   = Legacy.income (Legacy.st w)).
Proof.
  intros w'. split; [reflexivity|]. split; [apply parseAmount_nonneg|].
  split; [apply parseAmount_rejects|].
  split.
  { intros now'. subst w'.
    cbn [Legacy.loadAll Legacy.saveIncome Legacy.render Legacy.db_meta Legacy.st
           Legacy.computeAndRender fst Legacy.income].
    now rewrite metaGet_metaPut_same. }
  split; [intros key Hk; now apply metaGet_metaPut_other|].
  split; [reflexivity|]. split; [reflexivity|]. split; [reflexivity|].
  intros Hi. cbn [Legacy.saveIncome Legacy.render Legacy.st Legacy.computeAndRender fst
                    Legacy.income].
  unfold Legacy.openIncomeDialog.
  destruct (Z.eqb_spec (Legacy.income (Legacy.st w)) 0) as [->|Hne]; [reflexivity|].
  now apply parseAmount_of_Z.
Qed.

Lemma saveIncome_persists_witness :
  Legacy.income (Legacy.st (Legacy.saveIncome 0 sampleNow (JSNumber.of_Z 500000) lunchWorld))
  = 500000 /\
  Legacy.income (Legacy.st (Legacy.saveIncome 0 sampleNow (S754_finite true 5 0) lunchWorld)) = 0.
Proof.
  split.
  - rewrite (proj1 (saveIncome_persists 0 sampleNow (JSNumber.of_Z 500000) lunchWorld)).
    reflexivity.
  - apply (proj1 (proj2 (proj2 (saveIncome_persists 0 sampleNow (S754_finite true 5 0)
                                  lunchWorld)))).
    left. reflexivity.
Defined.

(** ** The balance of the legacy application *)

Lemma sumAmounts_totalSpent l : Legacy.sumAmounts l = totalSpent l.
Proof.
  unfold Legacy.sumAmounts. induction l as [|e l IH]; [reflexivity|].
  rewrite fold_sum_cons, IH. reflexivity.
Qed.

Lemma totalSpent_count l :
  Forall (fun e => 0 < Legacy.amount e) l -> Z.of_nat (List.length l) <= totalSpent l.
Proof.
  induction 1 as [|e l He _ IH]; [simpl; lia|].
  cbn [totalSpent List.length]. lia.
Qed.

(** [X9] The balance of the legacy [computeAndRender], for expenses whose
    amounts are non-negative integers with a sum below 2^53 and an income
    from 0 up to 2^53: the amount spent is the sum of the amounts of all
    the expenses of the mirror, the integer that their binary64 sum yields;
    the available amount, [Math.max(0, income - spent)] in binary64, is
    [income - spent] when the income covers what was spent and 0 otherwise,
    never negative;
    the progress ratio is an integer from 0 to 100, and it is 0 when the
    income is 0; the filtered list holds the expenses of the mirror whose
    date lies in the window of the period, in their order; the period total
    is the sum of their amounts, at most the amount spent; the period count
    is at most the number of expenses, and at most the period total when
    every amount is positive; and the chart has at most one bar for each of
    them, every bar an integer from 4 to 100. *)
Theorem legacy_balance LocalTZA now s :
  safeAmounts Legacy.amount (Legacy.expenses s) ->
  0 <= Legacy.income s < 2 ^ 53 ->
  let s' := fst (Legacy.computeAndRender LocalTZA now s) in
  let v := snd (Legacy.computeAndRender LocalTZA now s) in
  let r := Legacy.getPeriodRange LocalTZA now (Legacy.period s) in
  let inWindow := filter (fun e => within (Legacy.date e) (start r) (end_ r)) (Legacy.expenses s) in
  Legacy.spentDisplay v = totalSpent (Legacy.expenses s) /\
  reduceAmounts Legacy.amount (Legacy.expenses s) = JSNumber.of_Z (Legacy.spentDisplay v) /\
  JSNumber.Math_max2 (JSNumber.of_Z 0)
    (JSNumber.sub (JSNumber.of_Z (Legacy.income s)) (JSNumber.of_Z (Legacy.spentDisplay v)))
  = JSNumber.of_Z (Legacy.availableDisplay v) /\
  0 <= Legacy.availableDisplay v /\
  (Legacy.spentDisplay v <= Legacy.income s ->
   Legacy.availableDisplay v = Legacy.income s - Legacy.spentDisplay v) /\
  (Legacy.income s <= Legacy.spentDisplay v -> Legacy.availableDisplay v = 0) /\
  (Legacy.income s = 0 -> Legacy.progressBar v = JSNumber.RInt 0) /\
  integerIn 0 100 (Legacy.progressBar v) /\
  (forall e, In e (Legacy.filtered s') <->
             In e (Legacy.expenses s) /\ within (Legacy.date e) (start r) (end_ r) = true) /\
  Legacy.periodTotal v = totalSpent inWindow /\
  reduceAmounts Legacy.amount inWindow = JSNumber.of_Z (Legacy.periodTotal v) /\
  0 <= Legacy.periodTotal v <= Legacy.spentDisplay v /\
  (Legacy.periodCount v <= List.length (Legacy.expenses s))%nat /\
  (Forall (fun e => 0 < Legacy.amount e) (Legacy.expenses s) ->
   Z.of_nat (Legacy.periodCount v) <= Legacy.periodTotal v) /\
  (List.length (Legacy.chartBars v) <= Legacy.periodCount v)%nat /\
  Forall (integerIn 4 100) (Legacy.chartBars v).
Proof.
  intros Hsafe Hi s' v r inWindow. pose proof Hsafe as [Hpos Hsum]. subst s' v.
  cbn [Legacy.computeAndRender fst snd Legacy.spentDisplay Legacy.availableDisplay
         Legacy.progressBar Legacy.filtered Legacy.periodCount Legacy.periodTotal
         Legacy.chartBars].
  fold r. fold inWindow.
  assert (Hin : Forall (fun e => 0 <= Legacy.amount e) inWindow).
  { rewrite Forall_forall in *. intros e He. apply filter_In in He. now apply Hpos. }
  pose proof (fold_sum_filter Legacy.amount
                (fun e => within (Legacy.date e) (start r) (end_ r)) _ Hpos) as Hle.
  fold inWindow in Hle. fold (Legacy.sumAmounts inWindow) in Hle.
  fold (Legacy.sumAmounts (Legacy.expenses s)) in Hle, Hsum.
  split; [apply sumAmounts_totalSpent|].
  split; [exact (reduceAmounts_exact _ _ Hsafe)|].
  split; [rewrite sub_exact by lia; apply Math_max2_zero; lia|].
  split; [lia|]. split; [lia|]. split; [lia|].
  split.
  { intros H0. unfold spentRatio. rewrite H0. reflexivity. }
  split; [apply spentRatio_range; lia|].
  split; [intros e; apply filter_In|].
  split; [apply sumAmounts_totalSpent|].
  split; [exact (reduceAmounts_exact _ _ (safeAmounts_filter _ _ _ Hsafe))|].
  split; [exact Hle|].
  split; [apply filter_length_le|].
  split.
  { intros Hall. rewrite sumAmounts_totalSpent. apply totalSpent_count.
    rewrite Forall_forall in *. intros e He. apply filter_In in He. now apply Hall. }
  split.
  { unfold Legacy.renderMiniChart. rewrite length_map. apply groupByDateWith_length. }
  assert (Hsum' : fold_left (fun s e => s + Legacy.amount e) inWindow 0 < 2 ^ 53)
    by (unfold Legacy.sumAmounts in Hle, Hsum; lia).
  pose proof (proj2 (proj2 (chart_bars_range Legacy.date Legacy.amount
                              (List.length (Legacy.groupByDate inWindow)) inWindow Hin Hsum')))
    as H.
  unfold Legacy.groupByDate in H. rewrite sliceLast_all in H. exact H.
Qed.

Lemma legacy_balance_witness :
  let s := Legacy.st (Legacy.saveIncome 0 sampleNow (JSNumber.of_Z 500000) twoExpenses) in
  safeAmounts Legacy.amount (Legacy.expenses s) /\
  0 <= Legacy.income s < 2 ^ 53 /\
  Legacy.spentDisplay (snd (Legacy.computeAndRender 0 sampleNow s)) = 240000 /\
  Legacy.availableDisplay (snd (Legacy.computeAndRender 0 sampleNow s)) = 260000 /\
  Legacy.progressBar (snd (Legacy.computeAndRender 0 sampleNow s)) = JSNumber.RInt 48.
Proof.
  cbv zeta.
  set (s := Legacy.st (Legacy.saveIncome 0 sampleNow (JSNumber.of_Z 500000) twoExpenses)).
  assert (Hs : safeAmounts Legacy.amount (Legacy.expenses s)).
  { split; [repeat constructor; vm_compute; discriminate|reflexivity]. }
  assert (Hi : 0 <= Legacy.income s < 2 ^ 53) by (split; [discriminate|reflexivity]).
  split; [exact Hs|]. split; [exact Hi|].
  destruct (legacy_balance 0 sampleNow s Hs Hi) as [H1 [_ [_ [_ [H2 _]]]]].
  split; [rewrite H1; reflexivity|]. split; [|reflexivity].
  rewrite H2; [reflexivity|]. rewrite H1. discriminate.
Defined.

(** ** Mirror and store *)

Section KeyPath.
Context {A : Type}.
Variable id : A -> Z.
Implicit Types (s : IDB.objectStore A) (l : list (Z * A)).

Lemma keyed_get s k v : keyedBy id s -> IDB.get s k = Some v -> id v = k.
Proof.
  intros Hk Hg. unfold keyedBy in Hk. rewrite Forall_forall in Hk.
  apply (Hk (k, v)). now apply lookup_In.
Qed.

Lemma keyed_ids s : keyedBy id s -> map id (IDB.getAll s) = map fst (IDB.records s).
Proof.
  unfold keyedBy, IDB.getAll. induction 1 as [|kv l Hkv _ IH]; [reflexivity|].
  simpl. now rewrite Hkv, IH.
Qed.

Lemma sorted_nodup (l : list Z) : Sorted Z.lt l -> NoDup l.
Proof.
  intros Hs. apply Sorted_StronglySorted in Hs; [|exact Z.lt_trans].
  induction Hs as [|x l _ IH Hall]; constructor; [|exact IH].
  intros Hin. rewrite Forall_forall in Hall. specialize (Hall x Hin). lia.
Qed.

Lemma upsert_In k v l x : In x (IDB.upsert k v l) -> x = (k, v) \/ In x l.
Proof.
  induction l as [|[k' v'] l IH]; simpl.
  - intros [<-|[]]. now left.
  - destruct (k =? k'); [|destruct (k <? k')].
    + intros [<-|H]; [now left|right; now right].
    + intros [<-|H]; [now left|now right].
    + intros [<-|H]; [right; now left|]. destruct (IH H); [now left|right; now right].
Qed.

Lemma upsert_split k v v0 l :
  Sorted Z.lt (map fst l) -> IDB.lookup k l = Some v0 ->
  exists r1 r2, l = r1 ++ (k, v0) :: r2 /\ IDB.upsert k v l = r1 ++ (k, v) :: r2.
Proof.
  intros Hs. apply Sorted_StronglySorted in Hs; [|exact Z.lt_trans].
  induction l as [|[k' v'] l IH]; simpl; [discriminate|].
  inversion Hs as [|? ? Hs' Hall]; subst.
  destruct (Z.eqb_spec k k') as [->|Hne].
  - intros [= ->]. now exists [], l.
  - intros Hl. pose proof (lookup_In _ _ _ Hl) as Hin.
    rewrite Forall_forall in Hall. specialize (Hall k (in_map fst _ _ Hin)). simpl in Hall.
    destruct (Z.ltb_spec k k'); [lia|].
    destruct (IH Hs' Hl) as [r1 [r2 [E1 E2]]].
    exists ((k', v') :: r1), r2. simpl. now rewrite <- E1, E2.
Qed.

Lemma put_keyed s k v :
  keyedBy id s -> id v = k -> keyedBy id (IDB.put s k v).
Proof.
  unfold keyedBy, IDB.put; simpl. intros Hk Hv. rewrite Forall_forall in *.
  intros x Hx. destruct (upsert_In _ _ _ _ Hx) as [->|Hin]; [exact Hv|now apply Hk].
Qed.

Lemma add_keyed s (value : Z -> A) :
  keyedBy id s -> id (value (IDB.keyGenerator s)) = IDB.keyGenerator s ->
  keyedBy id (fst (IDB.add s value)).
Proof.
  unfold keyedBy, IDB.add; simpl. intros Hk Hv. apply Forall_app. split; [exact Hk|].
  repeat constructor. exact Hv.
Qed.

Lemma delete_keyed s k : keyedBy id s -> keyedBy id (IDB.delete s k).
Proof.
  unfold keyedBy, IDB.delete; simpl. intros Hk. rewrite Forall_forall in *.
  intros x Hx. apply filter_In in Hx. now apply Hk.
Qed.

Lemma getAll_delete_keyed s k :
  keyedBy id s ->
  IDB.getAll (IDB.delete s k) = filter (fun e => negb (id e =? k)) (IDB.getAll s).
Proof.
  unfold keyedBy, IDB.getAll, IDB.delete; simpl.
  induction 1 as [|kv l Hkv _ IH]; [reflexivity|].
  simpl. rewrite Hkv. destruct (negb (fst kv =? k)); simpl; now rewrite IH.
Qed.

End KeyPath.

Lemma assignAt_split {A : Type} (p : A -> bool) (l : list A) v :
  (exists x, In x l /\ p x = true) ->
  exists l1 x l2, l = l1 ++ x :: l2 /\ p x = true /\
                  JSArray.assignAt l (JSArray.findIndex p l) v = l1 ++ v :: l2.
Proof.
  intros [x [Hin Hp]]. induction l as [|y l IH]; [contradiction|].
  cbn [JSArray.findIndex]. destruct (p y) eqn:Hy.
  - exists [], y, l. repeat split; assumption.
  - destruct Hin as [->|Hin]; [congruence|].
    destruct (IH Hin) as [l1 [x' [l2 [E1 [E2 E3]]]]].
    exists (y :: l1), x', l2. split; [simpl; now rewrite E1|]. split; [exact E2|].
    destruct (JSArray.findIndex p l) as [i|]; simpl in *; now rewrite E3.
Qed.

Lemma NoDup_map_eq {A B : Type} (f : A -> B) l a b :
  NoDup (map f l) -> In a l -> In b l -> f a = f b -> a = b.
Proof.
  induction l as [|x l IH]; simpl; [contradiction|].
  intros Hnd Ha Hb Hf. inversion Hnd as [|? ? Hnot Hnd']; subst.
  destruct Ha as [->|Ha]; destruct Hb as [->|Hb]; try reflexivity.
  - exfalso. apply Hnot. rewrite Hf. now apply in_map.
  - exfalso. apply Hnot. rewrite <- Hf. now apply in_map.
  - now apply IH.
Qed.

Lemma filter_perm {A : Type} (p : A -> bool) l l' :
  Permutation l l' -> Permutation (filter p l) (filter p l').
Proof.
  induction 1 as [|x l l' _ IH|x y l|l1 l2 l3 _ IH1 _ IH2]; simpl.
  - constructor.
  - destruct (p x); [now constructor|exact IH].
  - destruct (p x); destruct (p y); try reflexivity. apply perm_swap.
  - now rewrite IH1.
Qed.

(** *** One step *)

Lemma consistent_ids w :
  legacyConsistent w -> NoDup (map Legacy.id (Legacy.expenses (Legacy.st w))).
Proof.
  intros [[Hs _] [Hk Hp]].
  apply (Permutation_NoDup (Permutation_sym (Permutation_map Legacy.id Hp))).
  rewrite (keyed_ids Legacy.id _ Hk). now apply sorted_nodup.
Qed.

Lemma onAddExpense_consistent LocalTZA now f w :
  legacyConsistent w -> legacyConsistent (Legacy.onAddExpense LocalTZA now f w).
Proof.
  intros Hc. pose proof Hc as [Hw [Hk Hp]].
  destruct (JSString.empty (JSString.trim (Legacy.f_name f))
            || (parseAmount (Legacy.f_amount f) <=? 0)) eqn:Hv.
  - unfold Legacy.onAddExpense. rewrite Hv. exact Hc.
  - apply orb_false_iff in Hv. destruct Hv as [Hn Ha].
    assert (Hn' : JSString.trim (Legacy.f_name f) <> []).
    { intros E. apply empty_nil in E. congruence. }
    apply Z.leb_gt in Ha. rewrite (onAddExpense_valid LocalTZA now f w Hn' Ha).
    unfold legacyConsistent.
    cbn [Legacy.render Legacy.db_expenses Legacy.st Legacy.computeAndRender fst Legacy.expenses].
    split; [apply add_wellKeyed; exact Hw|].
    split; [apply add_keyed; [exact Hk|reflexivity]|].
    rewrite getAll_add. apply Permutation_cons_app. now rewrite app_nil_r.
Qed.

Lemma updateExpense_consistent LocalTZA now f w w' :
  legacyConsistent w -> Legacy.updateExpense LocalTZA now f w = Done w' -> legacyConsistent w'.
Proof.
  intros Hc. pose proof Hc as [Hw [Hk Hp]]. pose proof (consistent_ids w Hc) as Hnd.
  destruct (staged (Legacy.editId (Legacy.st w))) as [k|] eqn:Hst;
    [|unfold Legacy.updateExpense; rewrite Hst; intros [= <-]; exact Hc].
  destruct (JSString.empty (JSString.trim (Legacy.editName f))
            || (parseAmount (Legacy.editAmount f) <=? 0)) eqn:Hv;
    [unfold Legacy.updateExpense; rewrite Hst, Hv; intros [= <-]; exact Hc|].
  destruct (IDB.get (Legacy.db_expenses w) k) as [e|] eqn:Hg;
    [|unfold Legacy.updateExpense; rewrite Hst, Hv, Hg; discriminate].
  apply orb_false_iff in Hv. destruct Hv as [Hn Ha].
  assert (Hn' : JSString.trim (Legacy.editName f) <> []).
  { intros E. apply empty_nil in E. congruence. }
  apply Z.leb_gt in Ha.
  rewrite (updateExpense_valid LocalTZA now f w k e Hst Hn' Ha Hg).
  intros [= <-].
  pose proof (keyed_get Legacy.id _ _ _ Hk Hg) as Hid. rewrite Hid.
  unfold legacyConsistent.
  cbn [Legacy.render Legacy.db_expenses Legacy.st Legacy.computeAndRender fst Legacy.expenses].
  split; [apply (put_wellKeyed _ _ _ _ Hw Hg)|].
  split; [apply (put_keyed Legacy.id _ _ _ Hk); exact Hid|].
  rewrite <- (sort_perm Legacy.compareFn).
  destruct Hw as [Hs _].
  destruct (upsert_split k (edited now f e) e _ Hs Hg) as [r1 [r2 [E1 E2]]].
  assert (Hin : In e (Legacy.expenses (Legacy.st w))).
  { apply (Permutation_in _ (Permutation_sym Hp)). unfold IDB.getAll.
    change e with (snd (k, e)). apply in_map. now apply lookup_In. }
  destruct (assignAt_split (fun x => Legacy.id x =? k) (Legacy.expenses (Legacy.st w))
              (edited now f e)) as [l1 [x [l2 [M1 [M2 M3]]]]].
  { exists e. split; [exact Hin|]. now apply Z.eqb_eq. }
  assert (Hx : x = e).
  { apply (NoDup_map_eq Legacy.id _ _ _ Hnd); [rewrite M1; apply in_elt|exact Hin|].
    apply Z.eqb_eq in M2. congruence. }
  subst x. rewrite M3. unfold IDB.getAll, IDB.put. cbn [IDB.records]. rewrite E2.
  rewrite map_app. cbn [map snd].
  apply Permutation_elt.
  rewrite M1 in Hp. unfold IDB.getAll in Hp. rewrite E1, map_app in Hp. cbn [map snd] in Hp.
  now apply Permutation_app_inv in Hp.
Qed.

Lemma deleteExpense_consistent LocalTZA now id w :
  legacyConsistent w -> legacyConsistent (Legacy.deleteExpense LocalTZA now id w).
Proof.
  intros [Hw [Hk Hp]]. unfold legacyConsistent.
  cbn [Legacy.deleteExpense Legacy.render Legacy.db_expenses Legacy.st Legacy.computeAndRender
         fst Legacy.expenses].
  split; [now apply delete_wellKeyed|]. split; [now apply delete_keyed|].
  rewrite (getAll_delete_keyed Legacy.id _ _ Hk). now apply filter_perm.
Qed.

Lemma step_consistent LocalTZA w w' :
  legacyConsistent w -> legacyStep LocalTZA w w' -> legacyConsistent w'.
Proof.
  intros Hc Hstep. destruct Hstep as [now w|now f w|e w|now f w w' Hu|now id w|now v w|now v w].
  - destruct Hc as [Hw [Hk _]]. split; [exact Hw|]. split; [exact Hk|].
    symmetry. apply sort_perm.
  - now apply onAddExpense_consistent.
  - exact Hc.
  - now apply (updateExpense_consistent LocalTZA now f w).
  - now apply deleteExpense_consistent.
  - exact Hc.
  - exact Hc.
Qed.

Lemma run_consistent LocalTZA w w' :
  legacyConsistent w -> legacyRun LocalTZA w w' -> legacyConsistent w'.
Proof.
  intros Hc Hrun. induction Hrun as [w|w1 w2 w3 _ IH Hstep]; [exact Hc|].
  apply (step_consistent LocalTZA w2); [now apply IH|exact Hstep].
Qed.

(** [X19] Over every run of handlers of the legacy application that starts
    with the mirror holding the records of the store, each once, the mirror
    still holds the records of the store, each once: no two records of the
    mirror share an id, and a record is in the mirror exactly when the store
    holds it under its id. *)
Theorem legacy_run_consistent LocalTZA w w' :
  legacyConsistent w -> legacyRun LocalTZA w w' ->
  legacyConsistent w' /\
  NoDup (map Legacy.id (Legacy.expenses (Legacy.st w'))) /\
  (forall e, In e (Legacy.expenses (Legacy.st w')) <->
             IDB.get (Legacy.db_expenses w') (Legacy.id e) = Some e).
Proof.
  intros Hc Hrun.
  pose proof (run_consistent LocalTZA w w' Hc Hrun) as Hc'.
  split; [exact Hc'|]. split; [now apply consistent_ids|].
  destruct Hc' as [[Hs _] [Hk Hp]]. intros e. split.
  - intros Hin. apply (Permutation_in _ Hp) in Hin.
    unfold IDB.getAll in Hin. apply in_map_iff in Hin. destruct Hin as [[k v] [Hv Hkv]].
    simpl in Hv. subst v.
    unfold keyedBy in Hk. rewrite Forall_forall in Hk. pose proof (Hk _ Hkv) as Hid.
    simpl in Hid. rewrite Hid. unfold IDB.get.
    destruct (IDB.lookup k (IDB.records (Legacy.db_expenses w'))) as [v|] eqn:Hl.
    + apply lookup_In in Hl. f_equal.
      assert (Heq : (k, v) = (k, e)).
      { apply (NoDup_map_eq fst (IDB.records (Legacy.db_expenses w'))); try assumption.
        - now apply sorted_nodup.
        - reflexivity. }
      congruence.
    + exfalso. apply (lookup_none_keys _ _ Hl (k, e) Hkv). reflexivity.
  - intros Hg. apply (Permutation_in _ (Permutation_sym Hp)). unfold IDB.getAll.
    change e with (snd (Legacy.id e, e)). apply in_map. now apply lookup_In.
Qed.

Lemma emptyLegacy_consistent : legacyConsistent emptyLegacy.
Proof.
  split; [apply wellKeyed_create|]. split; [constructor|]. constructor.
Qed.

Lemma legacy_run_consistent_witness :
  legacyConsistent emptyLegacy /\
  legacyRun 0 emptyLegacy (Legacy.deleteExpense 0 sampleNow 1 lunchWorld) /\
  legacyConsistent (Legacy.deleteExpense 0 sampleNow 1 lunchWorld).
Proof.
  pose proof emptyLegacy_consistent as Hc.
  assert (Hrun : legacyRun 0 emptyLegacy (Legacy.deleteExpense 0 sampleNow 1 lunchWorld)).
  { eapply run_step; [eapply run_step; [apply run_start|]|].
    - apply (step_onAddExpense 0 sampleNow lunchForm).
    - apply (step_deleteExpense 0 sampleNow 1). }
  split; [exact Hc|]. split; [exact Hrun|].
  exact (proj1 (legacy_run_consistent 0 _ _ Hc Hrun)).
Defined.

(** *** Stored records are valid *)

Lemma expenseOf_valid now f refs id :
  JSString.trim (Legacy.f_name f) <> [] ->
  0 < parseAmount (Legacy.f_amount f) ->
  validExpense (expenseOf now f refs id).
Proof.
  intros Hn Ha. unfold validExpense, expenseOf. cbn [Legacy.amount Legacy.name Legacy.date].
  split; [exact Ha|]. split; [apply trim_idempotent|]. split; [exact Hn|].
  split; [apply (trim_ends _ Hn)|]. split; [apply (trim_ends _ Hn)|apply date_not_empty].
Qed.

Lemma edited_valid now f e :
  JSString.trim (Legacy.editName f) <> [] ->
  0 < parseAmount (Legacy.editAmount f) ->
  validExpense (edited now f e).
Proof.
  intros Hn Ha. unfold validExpense, edited. cbn [Legacy.amount Legacy.name Legacy.date].
  split; [exact Ha|]. split; [apply trim_idempotent|]. split; [exact Hn|].
  split; [apply (trim_ends _ Hn)|]. split; [apply (trim_ends _ Hn)|apply date_not_empty].
Qed.

Lemma step_valid LocalTZA w w' :
  Forall validExpense (IDB.getAll (Legacy.db_expenses w)) ->
  legacyStep LocalTZA w w' ->
  Forall validExpense (IDB.getAll (Legacy.db_expenses w')).
Proof.
  intros Hval Hstep.
  destruct Hstep as [now w|now f w|e w|now f w w' Hu|now id w|now v w|now v w];
    try exact Hval.
  - destruct (JSString.empty (JSString.trim (Legacy.f_name f))
              || (parseAmount (Legacy.f_amount f) <=? 0)) eqn:Hv.
    + unfold Legacy.onAddExpense. rewrite Hv. exact Hval.
    + apply orb_false_iff in Hv. destruct Hv as [Hn Ha].
      assert (Hn' : JSString.trim (Legacy.f_name f) <> []).
      { intros E. apply empty_nil in E. congruence. }
      apply Z.leb_gt in Ha. rewrite (onAddExpense_valid LocalTZA now f w Hn' Ha).
      cbn [Legacy.render Legacy.db_expenses]. rewrite getAll_add.
      apply Forall_app. split; [exact Hval|]. constructor; [|constructor].
      now apply expenseOf_valid.
  - destruct (staged (Legacy.editId (Legacy.st w))) as [k|] eqn:Hst;
      [|unfold Legacy.updateExpense in Hu; rewrite Hst in Hu; injection Hu as <-; exact Hval].
    destruct (JSString.empty (JSString.trim (Legacy.editName f))
              || (parseAmount (Legacy.editAmount f) <=? 0)) eqn:Hv;
      [unfold Legacy.updateExpense in Hu; rewrite Hst, Hv in Hu; injection Hu as <-;
       exact Hval|].
    destruct (IDB.get (Legacy.db_expenses w) k) as [e|] eqn:Hg;
      [|unfold Legacy.updateExpense in Hu; rewrite Hst, Hv, Hg in Hu; discriminate].
    apply orb_false_iff in Hv. destruct Hv as [Hn Ha].
    assert (Hn' : JSString.trim (Legacy.editName f) <> []).
    { intros E. apply empty_nil in E. congruence. }
    apply Z.leb_gt in Ha.
    rewrite (updateExpense_valid LocalTZA now f w k e Hst Hn' Ha Hg) in Hu.
    injection Hu as <-. cbn [Legacy.render Legacy.db_expenses].
    unfold IDB.getAll, IDB.put. cbn [IDB.records].
    rewrite Forall_forall in *. intros x Hx. apply in_map_iff in Hx.
    destruct Hx as [kv [<- Hkv]]. destruct (upsert_In _ _ _ _ Hkv) as [->|Hin].
    + now apply edited_valid.
    + apply Hval. unfold IDB.getAll. now apply in_map.
  - cbn [Legacy.deleteExpense Legacy.render Legacy.db_expenses].
    rewrite Forall_forall in *. intros x Hx. apply Hval. now apply (getAll_delete _ id).
Qed.

(** [X20] Over every run of handlers of the legacy application that starts
    with valid records, every record of the store and of the mirror has a
    positive amount, a trimmed name that is not empty and a date; so the
    amount spent is positive whenever the mirror is not empty. *)
Theorem legacy_run_valid_records LocalTZA w w' :
  legacyConsistent w ->
  Forall validExpense (IDB.getAll (Legacy.db_expenses w)) ->
  legacyRun LocalTZA w w' ->
  Forall validExpense (IDB.getAll (Legacy.db_expenses w')) /\
  Forall validExpense (Legacy.expenses (Legacy.st w')) /\
  (Legacy.expenses (Legacy.st w') <> [] ->
   forall now,
     0 < Legacy.spentDisplay (snd (Legacy.computeAndRender LocalTZA now (Legacy.st w')))).
Proof.
  intros Hc Hval Hrun.
  assert (Hval' : Forall validExpense (IDB.getAll (Legacy.db_expenses w'))).
  { induction Hrun as [w|w1 w2 w3 _ IH Hstep]; [exact Hval|].
    apply (step_valid LocalTZA w2); [now apply IH|exact Hstep]. }
  destruct (run_consistent LocalTZA w w' Hc Hrun) as [_ [_ Hp]].
  assert (Hmirror : Forall validExpense (Legacy.expenses (Legacy.st w'))).
  { rewrite Forall_forall in *. intros e He. apply Hval'. now apply (Permutation_in _ Hp). }
  split; [exact Hval'|]. split; [exact Hmirror|].
  intros Hne now.
  cbn [Legacy.computeAndRender snd Legacy.spentDisplay]. unfold Legacy.sumAmounts.
  destruct (Legacy.expenses (Legacy.st w')) as [|e l]; [contradiction|].
  inversion Hmirror as [|? ? [He _] Hl]; subst. rewrite fold_sum_cons.
  assert (Hpos : Forall (fun e => 0 <= Legacy.amount e) l).
  { eapply Forall_impl; [|exact Hl]. intros x [Hx _]. lia. }
  pose proof (fold_sum_filter Legacy.amount (fun _ => true) l Hpos). lia.
Qed.

Lemma legacy_run_valid_records_witness :
  legacyConsistent emptyLegacy /\
  Forall validExpense (IDB.getAll (Legacy.db_expenses emptyLegacy)) /\
  legacyRun 0 emptyLegacy lunchWorld /\
  Forall validExpense (Legacy.expenses (Legacy.st lunchWorld)).
Proof.
  pose proof emptyLegacy_consistent as Hc.
  assert (Hv : Forall validExpense (IDB.getAll (Legacy.db_expenses emptyLegacy)))
    by constructor.
  assert (Hrun : legacyRun 0 emptyLegacy lunchWorld).
  { eapply run_step; [apply run_start|]. apply (step_onAddExpense 0 sampleNow lunchForm). }
  split; [exact Hc|]. split; [exact Hv|]. split; [exact Hrun|].
  exact (proj1 (proj2 (legacy_run_valid_records 0 _ _ Hc Hv Hrun))).
Defined.

(** *** Attachments stay *)

Lemma attached_keeps now photo doc s k a :
  IDB.get s k = Some a -> IDB.get (fst (attached now photo doc s)) k = Some a.
Proof.
  intros Hg. unfold attached.
  destruct photo as [p|]; destruct doc as [d|];
    rewrite ?addAttachment_some, ?addAttachment_none; cbn [fst];
    repeat apply get_add_keep; exact Hg.
Qed.

Lemma attached_prefix now photo doc s :
  exists more, IDB.records (fst (attached now photo doc s)) = IDB.records s ++ more /\
               (List.length more <= 2)%nat.
Proof.
  unfold attached.
  destruct photo as [p|]; destruct doc as [d|];
    rewrite ?addAttachment_some, ?addAttachment_none; cbn [fst IDB.add IDB.records].
  - eexists. rewrite <- app_assoc. split; [reflexivity|simpl; lia].
  - eexists. split; [reflexivity|simpl; lia].
  - eexists. split; [reflexivity|simpl; lia].
  - exists []. rewrite app_nil_r. split; [reflexivity|simpl; lia].
Qed.

Lemma step_attachments LocalTZA w w' :
  legacyStep LocalTZA w w' ->
  exists more, IDB.records (Legacy.db_attachments w')
               = IDB.records (Legacy.db_attachments w) ++ more.
Proof.
  intros Hstep.
  destruct Hstep as [now w|now f w|e w|now f w w' Hu|now id w|now v w|now v w];
    try (exists []; rewrite app_nil_r; reflexivity).
  - destruct (JSString.empty (JSString.trim (Legacy.f_name f))
              || (parseAmount (Legacy.f_amount f) <=? 0)) eqn:Hv.
    + unfold Legacy.onAddExpense. rewrite Hv. exists []. now rewrite app_nil_r.
    + apply orb_false_iff in Hv. destruct Hv as [Hn Ha].
      assert (Hn' : JSString.trim (Legacy.f_name f) <> []).
      { intros E. apply empty_nil in E. congruence. }
      apply Z.leb_gt in Ha. rewrite (onAddExpense_valid LocalTZA now f w Hn' Ha).
      cbn [Legacy.render Legacy.db_attachments].
      destruct (attached_prefix now (Legacy.f_photo f) (Legacy.f_document f)
                  (Legacy.db_attachments w)) as [more [E _]].
      now exists more.
  - unfold Legacy.updateExpense in Hu.
    destruct (staged _); [|injection Hu as <-; exists []; now rewrite app_nil_r].
    destruct (_ || _); [injection Hu as <-; exists []; now rewrite app_nil_r|].
    destruct (IDB.get _ _); [|discriminate].
    injection Hu as <-. exists []. now rewrite app_nil_r.
Qed.

(** [X21] No handler of the legacy application removes or changes a stored
    attachment: over every run the attachment store only grows at its end,
    and every attachment reference opens what it opened before. *)
Theorem legacy_run_keeps_attachments LocalTZA w w' :
  legacyRun LocalTZA w w' ->
  (exists more, IDB.records (Legacy.db_attachments w')
                = IDB.records (Legacy.db_attachments w) ++ more) /\
  (forall ref a, Legacy.openAttachment ref w = Some a -> Legacy.openAttachment ref w' = Some a).
Proof.
  intros Hrun.
  assert (H : exists more, IDB.records (Legacy.db_attachments w')
                           = IDB.records (Legacy.db_attachments w) ++ more).
  { induction Hrun as [w|w1 w2 w3 _ IH Hstep]; [exists []; now rewrite app_nil_r|].
    destruct IH as [m1 E1]. destruct (step_attachments LocalTZA w2 w3 Hstep) as [m2 E2].
    exists (m1 ++ m2). now rewrite E2, E1, app_assoc. }
  split; [exact H|]. destruct H as [more E].
  intros ref a. unfold Legacy.openAttachment, IDB.get. rewrite E. apply lookup_app_keep.
Qed.

Lemma legacy_run_keeps_attachments_witness :
  legacyRun 0 lunchWorld (Legacy.deleteExpense 0 sampleNow 1 lunchWorld) /\
  Legacy.openAttachment (refOf 2 "document" invoice)
    (Legacy.deleteExpense 0 sampleNow 1 lunchWorld)
  = Some (attachmentOf sampleNow invoice).
Proof.
  assert (Hrun : legacyRun 0 lunchWorld (Legacy.deleteExpense 0 sampleNow 1 lunchWorld)).
  { eapply run_step; [apply run_start|]. apply (step_deleteExpense 0 sampleNow 1). }
  split; [exact Hrun|].
  apply (proj2 (legacy_run_keeps_attachments 0 _ _ Hrun)). reflexivity.
Defined.

(** *** The unified mirror *)

(** [X28] In the unified application [loadAll] leaves the mirror holding
    the records of the store, each once, and [onAddTx] and [openEditDialog]
    keep it so; then no two transactions of the mirror share an id, and the
    store holds every transaction of the mirror under its id. *)
Theorem unified_mirror_consistent :
  (forall w,
      wellKeyed (Unified.db_transactions w) -> keyedBy Unified.id (Unified.db_transactions w) ->
      unifiedConsistent (Unified.loadAll w)) /\
  (forall now f w, unifiedConsistent w -> unifiedConsistent (Unified.onAddTx now f w)) /\
  (forall t w, unifiedConsistent w -> unifiedConsistent (Unified.openEditDialog t w)) /\
  (forall w, unifiedConsistent w ->
             NoDup (map Unified.id (Unified.txs (Unified.st w))) /\
             (forall t, In t (Unified.txs (Unified.st w)) ->
                        IDB.get (Unified.db_transactions w) (Unified.id t) = Some t)).
Proof.
  split; [|split; [|split]].
  - intros w Hw Hk. split; [exact Hw|]. split; [exact Hk|]. symmetry. apply sort_perm.
  - intros now f w Hc. pose proof Hc as [Hw [Hk Hp]].
    destruct (JSString.empty (JSString.trim (Unified.f_name f))
              || (parseAmount (Unified.f_amount f) <=? 0)) eqn:Hv.
    + unfold Unified.onAddTx. rewrite Hv. exact Hc.
    + apply orb_false_iff in Hv. destruct Hv as [Hn Ha].
      assert (Hn' : JSString.trim (Unified.f_name f) <> []).
      { intros E. apply empty_nil in E. congruence. }
      apply Z.leb_gt in Ha. rewrite (onAddTx_valid now f w Hn' Ha).
      unfold unifiedConsistent. cbn [Unified.db_transactions Unified.st Unified.txs].
      split; [apply add_wellKeyed; exact Hw|].
      split; [apply add_keyed; [exact Hk|reflexivity]|].
      rewrite getAll_add. apply Permutation_cons_app. now rewrite app_nil_r.
  - intros t w Hc. exact Hc.
  - intros w [[Hs _] [Hk Hp]].
    assert (Hnd : NoDup (map Unified.id (Unified.txs (Unified.st w)))).
    { apply (Permutation_NoDup (Permutation_sym (Permutation_map Unified.id Hp))).
      rewrite (keyed_ids Unified.id _ Hk). now apply sorted_nodup. }
    split; [exact Hnd|].
    intros t Hin. apply (Permutation_in _ Hp) in Hin.
    unfold IDB.getAll in Hin. apply in_map_iff in Hin. destruct Hin as [[k v] [Hv Hkv]].
    simpl in Hv. subst v.
    unfold keyedBy in Hk. rewrite Forall_forall in Hk. pose proof (Hk _ Hkv) as Hid.
    simpl in Hid. rewrite Hid. unfold IDB.get.
    destruct (IDB.lookup k (IDB.records (Unified.db_transactions w))) as [v|] eqn:Hl.
    + apply lookup_In in Hl. f_equal.
      assert (Heq : (k, v) = (k, t)).
      { apply (NoDup_map_eq fst (IDB.records (Unified.db_transactions w))); try assumption.
        - now apply sorted_nodup.
        - reflexivity. }
      congruence.
    + exfalso. apply (lookup_none_keys _ _ Hl (k, t) Hkv). reflexivity.
Qed.

Lemma unified_mirror_consistent_witness :
  unifiedConsistent emptyUnified /\
  unifiedConsistent (Unified.onAddTx sampleNow lunchTxForm emptyUnified).
Proof.
  assert (Hc : unifiedConsistent emptyUnified).
  { split; [split; [constructor|split; [reflexivity|constructor]]|].
    split; [constructor|constructor]. }
  split; [exact Hc|].
  exact (proj1 (proj2 unified_mirror_consistent) sampleNow lunchTxForm emptyUnified Hc).
Defined.
